(** * keeper_secrets_manager_core.utils.get_totp_code

    A shallow embedding of the TOTP generator of
    [sdk/python/core/keeper_secrets_manager_core/utils.py] and of the
    parts of the Python runtime it calls ([hashlib], [hmac],
    [base64.b32decode], [int], [str], integer true division), followed
    by the properties its specification states.

    Conventions.  A Python [str] is a list of Unicode code points, a
    [bytes] object a list of integers in [0, 256); Python integers are
    [Z].  Exceptions are values of [exn]; the two effects of the function
    (reading the wall clock, keying an HMAC) are nodes of the program
    tree [prog].

    The development then covers the rest of the module that can be
    embedded: the password generator ([random_sample],
    [generate_password]) over the random sources of the runtime, and
    the conversions between bytes, integers and base64 over
    [binascii]'s encoder and decoder; and, of
    [sdk/python/core/keepercommandersm/storage.py], the file-backed
    key-value storage [FileKeyValueStorage]. *)

From Stdlib Require Import ZArith String Ascii Bool Lia List Permutation.
Import ListNotations.
Local Open Scope list_scope.
Local Open Scope Z_scope.

(* ================================================================== *)
(** ** Python values *)

Module Py.

Definition str := list Z.
Definition bytes := list Z.

(** A literal of the source text, as a Python [str]. *)
Definition lit (s : string) : str :=
  map (fun a => Z.of_N (N_of_ascii a)) (list_ascii_of_string s).

Fixpoint str_eqb (a b : str) : bool :=
  match a, b with
  | [], [] => true
  | x :: a', y :: b' => (x =? y) && str_eqb a' b'
  | _, _ => false
  end.

(** [needle in hay] for strings. *)
Fixpoint startswith (hay needle : str) {struct needle} : bool :=
  match needle, hay with
  | [], _ => true
  | n :: needle', h :: hay' => (n =? h) && startswith hay' needle'
  | _ :: _, [] => false
  end.

Fixpoint contains (hay needle : str) : bool :=
  startswith hay needle ||
  match hay with
  | [] => false
  | _ :: hay' => contains hay' needle
  end.

(** The exceptions the function can leave with, by class, with the
    message the runtime or the source attaches. *)
Inductive exn : Type :=
| ValueError (msg : str)
| BinasciiError (msg : str)      (* binascii.Error, a ValueError subclass *)
| OverflowError (msg : str)
| ZeroDivisionError (msg : str)
| IndexError (msg : str).

(** A call that returns or raises. *)
Inductive res (A : Type) : Type :=
| Ok (a : A)
| Fail (e : exn).
Arguments Ok {A} a.
Arguments Fail {A} e.

Definition bind {A B} (r : res A) (k : A -> res B) : res B :=
  match r with
  | Ok a => k a
  | Fail e => Fail e
  end.

(** [x.to_bytes(n, byteorder='big')] on [0 <= x < 256^n]. *)
Fixpoint be_bytes (n : nat) (x : Z) : bytes :=
  match n with
  | O => []
  | S n' => be_bytes n' (x / 256) ++ [x mod 256]
  end.

(** [int.from_bytes(b, byteorder='big')]. *)
Definition from_bytes (b : bytes) : Z :=
  fold_left (fun acc x => acc * 256 + x) b 0.

Definition is_byte (x : Z) : Prop := 0 <= x < 256.

(** [x.to_bytes(n, byteorder='big')] with its range checks. *)
Definition to_bytes (n : nat) (x : Z) : res bytes :=
  if x <? 0 then
    Fail (OverflowError (lit "can't convert negative int to unsigned"))
  else if 256 ^ Z.of_nat n <=? x then
    Fail (OverflowError (lit "int too big to convert"))
  else Ok (be_bytes n x).

(** [str(n)] for an integer: decimal digits, most significant first. *)
Fixpoint dec_digits (fuel : nat) (n : Z) (acc : str) : str :=
  match fuel with
  | O => acc
  | S fuel' =>
      let acc' := (48 + n mod 10) :: acc in
      if n / 10 =? 0 then acc' else dec_digits fuel' (n / 10) acc'
  end.

Definition str_of_int (n : Z) : str :=
  let m := Z.abs n in
  let ds := dec_digits (S (Z.to_nat (Z.log2 m))) m [] in
  if n <? 0 then 45 :: ds else ds.

(** [s.zfill(width)]: zeros go after a leading sign. *)
Definition zfill (width : Z) (s : str) : str :=
  let len := Z.of_nat (length s) in
  if width <=? len then s
  else
    let fill := repeat 48 (Z.to_nat (width - len)) in
    match s with
    | c :: s' => if (c =? 43) || (c =? 45) then c :: fill ++ s' else fill ++ s
    | [] => fill
    end.

(** [s[i:j]] of a list for [0 <= i <= j]. *)
Definition slice {A} (l : list A) (i j : Z) : list A :=
  firstn (Z.to_nat (j - i)) (skipn (Z.to_nat i) l).

End Py.

(* ================================================================== *)
(** ** hashlib: SHA-1, SHA-256, SHA-512 (FIPS 180-4) *)

Module Hashlib.
Import Py.

Section Words.
(** Word size in bits: 32 for SHA-1 and SHA-256, 64 for SHA-512. *)
Variable w : Z.

Definition wrap (x : Z) : Z := x mod 2 ^ w.
Definition add (x y : Z) : Z := wrap (x + y).
Definition rotl (n x : Z) : Z :=
  wrap (Z.lor (Z.shiftl x n) (Z.shiftr x (w - n))).
Definition rotr (n x : Z) : Z := rotl (w - n) x.
Definition shr (n x : Z) : Z := Z.shiftr x n.
Definition inv (x : Z) : Z := Z.lxor x (2 ^ w - 1).

Definition Ch (x y z : Z) : Z := Z.lxor (Z.land x y) (Z.land (inv x) z).
Definition Maj (x y z : Z) : Z :=
  Z.lxor (Z.lxor (Z.land x y) (Z.land x z)) (Z.land y z).
Definition Parity (x y z : Z) : Z := Z.lxor (Z.lxor x y) z.
End Words.

(** Split a list into consecutive runs of [n] elements. *)
Fixpoint chunks {A} (fuel n : nat) (l : list A) : list (list A) :=
  match fuel, l with
  | _, [] => []
  | O, _ => []
  | S fuel', _ => firstn n l :: chunks fuel' n (skipn n l)
  end.

(** Merkle-Damgard padding: a [0x80] byte, zeros up to [block - lenb]
    modulo [block], then the bit length on [lenb] bytes. *)
Definition pad (block lenb : nat) (msg : bytes) : bytes :=
  let l := length msg in
  let fill := ((block - (l + 1 + lenb) mod block) mod block)%nat in
  msg ++ [128] ++ repeat 0 fill ++ be_bytes lenb (8 * Z.of_nat l).

Definition blocks (block lenb : nat) (msg : bytes) : list (list Z) :=
  let p := pad block lenb msg in
  chunks (length p) block p.

Definition words (wbytes : nat) (blk : bytes) : list Z :=
  map from_bytes (chunks (length blk) wbytes blk).

(** The message schedule, most recent word first while it grows. *)
Fixpoint expand (next : list Z -> Z) (k : nat) (rev_w : list Z) : list Z :=
  match k with
  | O => rev_w
  | S k' => expand next k' (next rev_w :: rev_w)
  end.

Definition schedule (next : list Z -> Z) (total : nat) (blk : list Z) : list Z :=
  rev (expand next (total - length blk) (rev blk)).

Definition at_ (l : list Z) (i : nat) : Z := nth i l 0.

(** *** SHA-1 *)

Definition sha1_next (r : list Z) : Z :=
  rotl 32 1 (Z.lxor (Z.lxor (at_ r 2) (at_ r 7)) (Z.lxor (at_ r 13) (at_ r 15))).

Definition sha1_f (t : nat) (b c d : Z) : Z :=
  if (t <? 20)%nat then Ch 32 b c d
  else if (t <? 40)%nat then Parity b c d
  else if (t <? 60)%nat then Maj b c d
  else Parity b c d.

Definition sha1_k (t : nat) : Z :=
  if (t <? 20)%nat then 0x5a827999
  else if (t <? 40)%nat then 0x6ed9eba1
  else if (t <? 60)%nat then 0x8f1bbcdc
  else 0xca62c1d6.

Definition st5 : Type := Z * Z * Z * Z * Z.

Definition sha1_round (s : st5) (tw : nat * Z) : st5 :=
  let '(a, b, c, d, e) := s in
  let '(t, wt) := tw in
  let tmp := add 32 (add 32 (add 32 (rotl 32 5 a) (sha1_f t b c d))
                            (add 32 e (sha1_k t))) wt in
  (tmp, a, rotl 32 30 b, c, d).

Definition sha1_compress (h : st5) (blk : bytes) : st5 :=
  let ws := schedule sha1_next 80 (words 4 blk) in
  let '(a, b, c, d, e) := fold_left sha1_round (combine (seq 0 80) ws) h in
  let '(h0, h1, h2, h3, h4) := h in
  (add 32 h0 a, add 32 h1 b, add 32 h2 c, add 32 h3 d, add 32 h4 e).

Definition sha1_init : st5 :=
  (0x67452301, 0xefcdab89, 0x98badcfe, 0x10325476, 0xc3d2e1f0).

Definition sha1_out (s : st5) : bytes :=
  let '(h0, h1, h2, h3, h4) := s in
  be_bytes 4 h0 ++ be_bytes 4 h1 ++ be_bytes 4 h2 ++ be_bytes 4 h3 ++
  be_bytes 4 h4.

Definition sha1 (msg : bytes) : bytes :=
  sha1_out (fold_left sha1_compress (blocks 64 8 msg) sha1_init).

(** *** SHA-256 and SHA-512: one compression function at two word sizes *)

Definition st8 : Type := Z * Z * Z * Z * Z * Z * Z * Z.

Section Sha2.
Variable w : Z.
(** Rotation and shift amounts of the four sigma functions. *)
Variables (S0 S1 s0 s1 : Z * Z * Z).
Variable K : list Z.

Definition big_sigma (r : Z * Z * Z) (x : Z) : Z :=
  let '(i, j, k) := r in
  Z.lxor (Z.lxor (rotr w i x) (rotr w j x)) (rotr w k x).

Definition small_sigma (r : Z * Z * Z) (x : Z) : Z :=
  let '(i, j, k) := r in
  Z.lxor (Z.lxor (rotr w i x) (rotr w j x)) (shr k x).

Definition sha2_next (r : list Z) : Z :=
  add w (add w (small_sigma s1 (at_ r 1)) (at_ r 6))
        (add w (small_sigma s0 (at_ r 14)) (at_ r 15)).

Definition sha2_round (s : st8) (kw : Z * Z) : st8 :=
  let '(a, b, c, d, e, f, g, h) := s in
  let '(kt, wt) := kw in
  let t1 := add w (add w (add w h (big_sigma S1 e)) (Ch w e f g))
                  (add w kt wt) in
  let t2 := add w (big_sigma S0 a) (Maj a b c) in
  (add w t1 t2, a, b, c, add w d t1, e, f, g).

Definition sha2_compress (wbytes : nat) (hs : st8) (blk : bytes) : st8 :=
  let ws := schedule sha2_next (length K) (words wbytes blk) in
  let '(a, b, c, d, e, f, g, h) := fold_left sha2_round (combine K ws) hs in
  let '(h0, h1, h2, h3, h4, h5, h6, h7) := hs in
  (add w h0 a, add w h1 b, add w h2 c, add w h3 d,
   add w h4 e, add w h5 f, add w h6 g, add w h7 h).

Definition sha2_out (wbytes : nat) (s : st8) : bytes :=
  let '(h0, h1, h2, h3, h4, h5, h6, h7) := s in
  be_bytes wbytes h0 ++ be_bytes wbytes h1 ++ be_bytes wbytes h2 ++
  be_bytes wbytes h3 ++ be_bytes wbytes h4 ++ be_bytes wbytes h5 ++
  be_bytes wbytes h6 ++ be_bytes wbytes h7.
End Sha2.

(** The round constants are the leading bits of the fractional parts
    of the cube roots of the first primes, and the initial values those
    of their square roots: 64 bits for SHA-512, and the upper 32 of the
    same numbers for SHA-256. *)
Definition K512 : list Z :=
  [0x428a2f98d728ae22; 0x7137449123ef65cd;
   0xb5c0fbcfec4d3b2f; 0xe9b5dba58189dbbc;
   0x3956c25bf348b538; 0x59f111f1b605d019;
   0x923f82a4af194f9b; 0xab1c5ed5da6d8118;
   0xd807aa98a3030242; 0x12835b0145706fbe;
   0x243185be4ee4b28c; 0x550c7dc3d5ffb4e2;
   0x72be5d74f27b896f; 0x80deb1fe3b1696b1;
   0x9bdc06a725c71235; 0xc19bf174cf692694;
   0xe49b69c19ef14ad2; 0xefbe4786384f25e3;
   0x0fc19dc68b8cd5b5; 0x240ca1cc77ac9c65;
   0x2de92c6f592b0275; 0x4a7484aa6ea6e483;
   0x5cb0a9dcbd41fbd4; 0x76f988da831153b5;
   0x983e5152ee66dfab; 0xa831c66d2db43210;
   0xb00327c898fb213f; 0xbf597fc7beef0ee4;
   0xc6e00bf33da88fc2; 0xd5a79147930aa725;
   0x06ca6351e003826f; 0x142929670a0e6e70;
   0x27b70a8546d22ffc; 0x2e1b21385c26c926;
   0x4d2c6dfc5ac42aed; 0x53380d139d95b3df;
   0x650a73548baf63de; 0x766a0abb3c77b2a8;
   0x81c2c92e47edaee6; 0x92722c851482353b;
   0xa2bfe8a14cf10364; 0xa81a664bbc423001;
   0xc24b8b70d0f89791; 0xc76c51a30654be30;
   0xd192e819d6ef5218; 0xd69906245565a910;
   0xf40e35855771202a; 0x106aa07032bbd1b8;
   0x19a4c116b8d2d0c8; 0x1e376c085141ab53;
   0x2748774cdf8eeb99; 0x34b0bcb5e19b48a8;
   0x391c0cb3c5c95a63; 0x4ed8aa4ae3418acb;
   0x5b9cca4f7763e373; 0x682e6ff3d6b2b8a3;
   0x748f82ee5defb2fc; 0x78a5636f43172f60;
   0x84c87814a1f0ab72; 0x8cc702081a6439ec;
   0x90befffa23631e28; 0xa4506cebde82bde9;
   0xbef9a3f7b2c67915; 0xc67178f2e372532b;
   0xca273eceea26619c; 0xd186b8c721c0c207;
   0xeada7dd6cde0eb1e; 0xf57d4f7fee6ed178;
   0x06f067aa72176fba; 0x0a637dc5a2c898a6;
   0x113f9804bef90dae; 0x1b710b35131c471b;
   0x28db77f523047d84; 0x32caab7b40c72493;
   0x3c9ebe0a15c9bebc; 0x431d67c49c100d4c;
   0x4cc5d4becb3e42b6; 0x597f299cfc657e2a;
   0x5fcb6fab3ad6faec; 0x6c44198c4a475817].

Definition sha512_init : st8 :=
  (0x6a09e667f3bcc908, 0xbb67ae8584caa73b, 0x3c6ef372fe94f82b,
   0xa54ff53a5f1d36f1, 0x510e527fade682d1, 0x9b05688c2b3e6c1f,
   0x1f83d9abfb41bd6b, 0x5be0cd19137e2179).

Definition sha512_compress : st8 -> bytes -> st8 :=
  sha2_compress 64 (28, 34, 39) (14, 18, 41) (1, 8, 7) (19, 61, 6) K512 8.

Definition sha512 (msg : bytes) : bytes :=
  sha2_out 8 (fold_left sha512_compress (blocks 128 16 msg) sha512_init).

Definition K256 : list Z := map (fun k => Z.shiftr k 32) (firstn 64 K512).

Definition sha256_init : st8 :=
  let '(h0, h1, h2, h3, h4, h5, h6, h7) := sha512_init in
  let hi (x : Z) := Z.shiftr x 32 in
  (hi h0, hi h1, hi h2, hi h3, hi h4, hi h5, hi h6, hi h7).

Definition sha256_compress : st8 -> bytes -> st8 :=
  sha2_compress 32 (2, 13, 22) (6, 11, 25) (7, 18, 3) (17, 19, 10) K256 4.

Definition sha256 (msg : bytes) : bytes :=
  sha2_out 4 (fold_left sha256_compress (blocks 64 8 msg) sha256_init).

(** The three constructors [get_totp_code] selects from. *)
Inductive algorithm : Type := SHA1 | SHA256 | SHA512.

Definition digest (h : algorithm) : bytes -> bytes :=
  match h with SHA1 => sha1 | SHA256 => sha256 | SHA512 => sha512 end.

Definition block_size (h : algorithm) : nat :=
  match h with SHA1 => 64 | SHA256 => 64 | SHA512 => 128 end%nat.

Definition digest_size (h : algorithm) : nat :=
  match h with SHA1 => 20 | SHA256 => 32 | SHA512 => 64 end%nat.

End Hashlib.

(* ================================================================== *)
(** ** hmac.new(key, msg, digestmod).digest()  (RFC 2104) *)

Module Hmac.
Import Py Hashlib.

Definition ljust (n : nat) (b : bytes) : bytes :=
  b ++ repeat 0 (n - length b).

Definition translate (pad : Z) (b : bytes) : bytes :=
  map (fun x => Z.lxor x pad) b.

Definition hmac_digest (h : algorithm) (key msg : bytes) : bytes :=
  let key := if (block_size h <? length key)%nat then digest h key else key in
  let key := ljust (block_size h) key in
  let inner := digest h (translate 0x36 key ++ msg) in
  digest h (translate 0x5c key ++ inner).

End Hmac.

(* ================================================================== *)
(** ** base64.b32decode(s, casefold=True) *)

Module Base64.
Import Py.

(** The reverse table of the alphabet [A-Z2-7]. *)
Definition b32rev (c : Z) : option Z :=
  if (65 <=? c) && (c <=? 90) then Some (c - 65)
  else if (50 <=? c) && (c <=? 55) then Some (c - 50 + 26)
  else None.

(** [bytes.upper], which touches ASCII letters only. *)
Definition upper_byte (c : Z) : Z :=
  if (97 <=? c) && (c <=? 122) then c - 32 else c.

(** A character of the base32 alphabet, in either case. *)
Definition in_alphabet (c : Z) : bool :=
  match b32rev (upper_byte c) with
  | Some _ => true
  | None => false
  end.

Fixpoint lstrip_pad (s : bytes) : bytes :=
  match s with
  | c :: s' => if c =? 61 then lstrip_pad s' else s
  | [] => []
  end.

Definition rstrip_pad (s : bytes) : bytes := rev (lstrip_pad (rev s)).

(** The inner loop over one quantum: [acc = (acc << 5) + b32rev[c]]. *)
Fixpoint quantum (q : bytes) (acc : Z) : option Z :=
  match q with
  | [] => Some acc
  | c :: q' =>
      match b32rev c with
      | Some v => quantum q' (Z.shiftl acc 5 + v)
      | None => None
      end
  end.

(** The loop over the quanta; the state is [decoded] and the last [acc]. *)
Fixpoint decode_quanta (qs : list bytes) (decoded : bytes) (acc : Z)
  : res (bytes * Z) :=
  match qs with
  | [] => Ok (decoded, acc)
  | q :: qs' =>
      match quantum q 0 with
      | Some a => decode_quanta qs' (decoded ++ be_bytes 5 a) a
      | None => Fail (BinasciiError (lit "Non-base32 digit found"))
      end
  end.

Definition b32decode (s : str) : res bytes :=
  if negb (forallb (fun c => c <? 128) s) then
    Fail (ValueError (lit "string argument should contain only ASCII characters"))
  else if negb (Nat.modulo (length s) 8 =? 0)%nat then
    Fail (BinasciiError (lit "Incorrect padding"))
  else
    let s := map upper_byte s in
    let l := length s in
    let s := rstrip_pad s in
    let padchars := Z.of_nat (l - length s) in
    bind (decode_quanta (Hashlib.chunks (length s) 8 s) [] 0) (fun '(decoded, acc) =>
    if negb (existsb (Z.eqb padchars) [0; 1; 3; 4; 6]) then
      Fail (BinasciiError (lit "Incorrect padding"))
    else if negb (padchars =? 0) && negb (length decoded =? 0)%nat then
      let last := be_bytes 5 (Z.shiftl acc (5 * padchars)) in
      let leftover := (43 - 5 * padchars) / 8 in
      Ok (firstn (length decoded - 5) decoded ++ firstn (Z.to_nat leftover) last)
    else Ok decoded).

End Base64.

(* ================================================================== *)
(** ** Integer true division and [int(float)]

    [a / b] on two Python integers is the binary64 number nearest to the
    exact quotient (ties to even), or [OverflowError] when that number is
    not finite.  A finite binary64 value is kept as [mant * 2 ^ expo]. *)

Module Float.
Import Py.

Record float : Type := { mant : Z; expo : Z }.

(** Nearest integer to [n / d], ties to even, for [0 <= n] and [0 < d]. *)
Definition round_half_even (n d : Z) : Z :=
  let q := n / d in
  let r := n mod d in
  if 2 * r <? d then q
  else if d <? 2 * r then q + 1
  else if Z.even q then q else q + 1.

(** [floor (log2 (x / y))] for positive [x] and [y]. *)
Definition log2_quot (x y : Z) : Z :=
  let k := Z.log2 x - Z.log2 y in
  let reached := if 0 <=? k then y * 2 ^ k <=? x else y <=? x * 2 ^ (- k) in
  if reached then k else k - 1.

Definition truediv (a b : Z) : res float :=
  if b =? 0 then Fail (ZeroDivisionError (lit "division by zero"))
  else if a =? 0 then Ok {| mant := 0; expo := 0 |}
  else
    let x := Z.abs a in
    let y := Z.abs b in
    (* 53 significant bits, or fewer in the subnormal range *)
    let e := Z.max (log2_quot x y - 52) (-1074) in
    let m := if 0 <=? e then round_half_even x (y * 2 ^ e)
             else round_half_even (x * 2 ^ (- e)) y in
    if (0 <=? e) && (2 ^ 1024 <=? m * 2 ^ e) then
      Fail (OverflowError (lit "integer division result too large for a float"))
    else Ok {| mant := Z.sgn a * Z.sgn b * m; expo := e |}.

(** [int(x)]: truncation toward zero. *)
Definition to_int (x : float) : Z :=
  if 0 <=? expo x then mant x * 2 ^ expo x
  else Z.quot (mant x) (2 ^ (- expo x)).

End Float.

(* ================================================================== *)
(** ** The runtime services [get_totp_code] is written against

    [urllib.parse] and the Unicode tables behind [str.isnumeric],
    [int] and [str.upper] belong to the interpreter, and differ between
    its versions.  The embedding takes them as one value of [runtime];
    every general property below holds for each runtime.  A reference
    runtime, [Cpython.rt], is defined further down for the worked
    examples. *)

Module Runtime.
Import Py.

(** The fields of [urllib.parse.ParseResult] the function reads. *)
Record ParseResult : Type := { scheme : str; query : str }.

(** Unicode classes of a code point, as [str.isdecimal] and
    [str.isnumeric] see them: a decimal digit with its value (category
    Nd), numeric otherwise (superscripts, fractions, letter numerals,
    ideographs), or not numeric. *)
Inductive numeric_type : Type :=
| Decimal (value : Z)
| Numeric
| NotNumeric.

Record runtime : Type := {
  urlparse : str -> res ParseResult;
  parse_qsl : str -> list (str * str);
  unicode_numeric : Z -> numeric_type;
  upper : str -> str;
  (** [sys.get_int_max_str_digits()]; [0] where the limit is disabled or
      predates the interpreter. *)
  int_max_str_digits : Z
}.

End Runtime.

(* ================================================================== *)
(** ** Reference runtime: CPython 3.11 *)

Module Urllib.
Import Py Runtime.

Definition mem (c : Z) (s : str) : bool := existsb (Z.eqb c) s.

(** [s.split(sep, 1)]: the text before and after the first [sep]. *)
Fixpoint split1 (sep : Z) (s : str) : str * option str :=
  match s with
  | [] => ([], None)
  | c :: s' =>
      if c =? sep then ([], Some s')
      else let '(a, b) := split1 sep s' in (c :: a, b)
  end.

(** [s.split(sep)]. *)
Fixpoint split (sep : Z) (s : str) : list str :=
  match s with
  | [] => [[]]
  | c :: s' =>
      match split sep s' with
      | w :: ws => if c =? sep then [] :: w :: ws else (c :: w) :: ws
      | [] => [[c]]
      end
  end.

Fixpoint lstrip_c0 (s : str) : str :=
  match s with
  | c :: s' => if (0 <=? c) && (c <=? 32) then lstrip_c0 s' else s
  | [] => []
  end.

Definition is_alpha (c : Z) : bool :=
  ((65 <=? c) && (c <=? 90)) || ((97 <=? c) && (c <=? 122)).

Definition is_digit (c : Z) : bool := (48 <=? c) && (c <=? 57).

Definition scheme_char (c : Z) : bool :=
  is_alpha c || is_digit c || mem c [43; 45; 46].

Definition lower_ascii (c : Z) : Z :=
  if (65 <=? c) && (c <=? 90) then c + 32 else c.

(** [_splitnetloc(url, 2)] on a text that starts with two slashes. *)
Fixpoint span_netloc (s : str) : str * str :=
  match s with
  | [] => ([], [])
  | c :: s' =>
      if mem c [47; 63; 35] then ([], s)
      else let '(a, b) := span_netloc s' in (c :: a, b)
  end.

(** [urlparse(url)], as far as [scheme] and [query] go.  The checks of
    a bracketed or non-ASCII host ([_check_bracketed_netloc],
    [_checknetloc]) are left out: the reference runtime is exact on URLs
    whose host part is ASCII without brackets. *)
Definition urlparse (url : str) : res ParseResult :=
  let url := lstrip_c0 url in
  let url := filter (fun c => negb (mem c [9; 13; 10])) url in
  let '(sch, url) :=
    match split1 58 url with
    | (c :: pre, Some post) =>
        if (c <? 128) && is_alpha c && forallb scheme_char (c :: pre)
        then (map lower_ascii (c :: pre), post)
        else ([], url)
    | _ => ([], url)
    end in
  let checked :=
    match url with
    | 47 :: 47 :: rest =>
        let '(netloc, rest') := span_netloc rest in
        if xorb (mem 91 netloc) (mem 93 netloc)
        then Fail (ValueError (lit "Invalid IPv6 URL"))
        else Ok rest'
    | _ => Ok url
    end in
  bind checked (fun url =>
  let url := fst (split1 35 url) in
  let q := match split1 63 url with (_, Some q) => q | (_, None) => [] end in
  Ok {| scheme := sch; query := q |}).

(** *** Percent decoding *)

Definition hexval (c : Z) : option Z :=
  if is_digit c then Some (c - 48)
  else if (65 <=? c) && (c <=? 70) then Some (c - 55)
  else if (97 <=? c) && (c <=? 102) then Some (c - 87)
  else None.

(** [unquote_to_bytes] on ASCII text. *)
Fixpoint unquote_to_bytes (s : str) : bytes :=
  match s with
  | [] => []
  | c :: s' =>
      match s' with
      | h :: l :: s'' =>
          match (if c =? 37 then hexval h else None), hexval l with
          | Some hv, Some lv => (16 * hv + lv) :: unquote_to_bytes s''
          | _, _ => c :: unquote_to_bytes s'
          end
      | _ => c :: unquote_to_bytes s'
      end
  end.

Definition cont (c : Z) : bool := (128 <=? c) && (c <=? 191).
Definition within (lo hi c : Z) : bool := (lo <=? c) && (c <=? hi).

(** [b.decode('utf-8', 'replace')]: an ill-formed sequence gives one
    U+FFFD for its longest prefix that starts a well-formed one. *)
Fixpoint utf8_decode (b : bytes) : str :=
  match b with
  | [] => []
  | c :: r =>
      if c <? 128 then c :: utf8_decode r
      else if within 194 223 c then
        match r with
        | c1 :: r1 =>
            if cont c1 then ((c - 192) * 64 + (c1 - 128)) :: utf8_decode r1
            else 65533 :: utf8_decode r
        | [] => [65533]
        end
      else if within 224 239 c then
        let lo := if c =? 224 then 160 else 128 in
        let hi := if c =? 237 then 159 else 191 in
        match r with
        | c1 :: r1 =>
            if within lo hi c1 then
              match r1 with
              | c2 :: r2 =>
                  if cont c2 then
                    ((c - 224) * 4096 + (c1 - 128) * 64 + (c2 - 128))
                      :: utf8_decode r2
                  else 65533 :: utf8_decode r1
              | [] => [65533]
              end
            else 65533 :: utf8_decode r
        | [] => [65533]
        end
      else if within 240 244 c then
        let lo := if c =? 240 then 144 else 128 in
        let hi := if c =? 244 then 143 else 191 in
        match r with
        | c1 :: r1 =>
            if within lo hi c1 then
              match r1 with
              | c2 :: r2 =>
                  if cont c2 then
                    match r2 with
                    | c3 :: r3 =>
                        if cont c3 then
                          ((c - 240) * 262144 + (c1 - 128) * 4096
                           + (c2 - 128) * 64 + (c3 - 128)) :: utf8_decode r3
                        else 65533 :: utf8_decode r2
                    | [] => [65533]
                    end
                  else 65533 :: utf8_decode r1
              | [] => [65533]
              end
            else 65533 :: utf8_decode r
        | [] => [65533]
        end
      else 65533 :: utf8_decode r
  end.

(** The longest prefix whose characters satisfy [p], and the rest. *)
Fixpoint span (p : Z -> bool) (s : str) : str * str :=
  match s with
  | [] => ([], [])
  | c :: s' =>
      if p c then let '(a, b) := span p s' in (c :: a, b) else ([], s)
  end.

(** The loop of [unquote]: ASCII runs are decoded, the text between
    them is kept. *)
Fixpoint unquote_runs (fuel : nat) (s : str) : str :=
  match fuel, s with
  | _, [] => []
  | O, _ => s
  | S fuel', _ =>
      let '(plain, rest) := span (fun c => 128 <=? c) s in
      let '(run, rest') := span (fun c => c <? 128) rest in
      plain ++ utf8_decode (unquote_to_bytes run) ++ unquote_runs fuel' rest'
  end.

Definition unquote (s : str) : str :=
  if mem 37 s then unquote_runs (length s) s else s.

Definition plus_to_space (s : str) : str :=
  map (fun c => if c =? 43 then 32 else c) s.

(** [parse_qsl(qs)] with its defaults: blank values dropped, fields
    without [=] skipped, separator [&]. *)
Definition parse_qsl (qs : str) : list (str * str) :=
  let query_args := match qs with [] => [] | _ => split 38 qs end in
  flat_map (fun name_value =>
    match split1 61 name_value with
    | (_, None) => []
    | (_, Some []) => []
    | (n, Some v) => [(unquote (plus_to_space n), unquote (plus_to_space v))]
    end) query_args.

End Urllib.

Module Unicodedata.
Import Py Runtime.

(** An excerpt of the Unicode Character Database: the Nd digits of five
    scripts, and the No and Nl characters of Latin-1, the super- and
    subscripts, the circled numbers, the Roman numerals and three
    ideographs.  A code point outside the excerpt is classed as not
    numeric, so the reference runtime is exact on text drawn from ASCII
    and the ranges listed here. *)
Definition numeric (c : Z) : numeric_type :=
  let nd (zero : Z) := (zero <=? c) && (c <=? zero + 9) in
  if nd 0x30 then Decimal (c - 0x30)            (* DIGIT ZERO.. *)
  else if nd 0x660 then Decimal (c - 0x660)     (* ARABIC-INDIC DIGIT *)
  else if nd 0x6f0 then Decimal (c - 0x6f0)     (* EXTENDED ARABIC-INDIC *)
  else if nd 0x966 then Decimal (c - 0x966)     (* DEVANAGARI DIGIT *)
  else if nd 0xff10 then Decimal (c - 0xff10)   (* FULLWIDTH DIGIT *)
  else if Urllib.mem c [0xb2; 0xb3; 0xb9; 0xbc; 0xbd; 0xbe] then Numeric
  else if Urllib.mem c [0x2070; 0x4e00; 0x4e8c; 0x4e09] then Numeric
  else if (0x2074 <=? c) && (c <=? 0x2079) then Numeric
  else if (0x2080 <=? c) && (c <=? 0x2089) then Numeric
  else if (0x2160 <=? c) && (c <=? 0x2182) then Numeric
  else if (0x2460 <=? c) && (c <=? 0x2473) then Numeric
  else NotNumeric.

(** [str.upper] on ASCII and Latin-1 text and on LATIN SMALL LETTER
    LONG S; other characters are kept. *)
Definition upper_char (c : Z) : str :=
  if (0x61 <=? c) && (c <=? 0x7a) then [c - 32]
  else if c =? 0xb5 then [0x39c]
  else if c =? 0xdf then [0x53; 0x53]
  else if c =? 0xf7 then [c]
  else if c =? 0xff then [0x178]
  else if (0xe0 <=? c) && (c <=? 0xfe) then [c - 32]
  else if c =? 0x17f then [0x53]
  else [c].

Definition upper (s : str) : str := flat_map upper_char s.

End Unicodedata.

Module Cpython.
Import Runtime.

Definition rt : runtime := {|
  urlparse := Urllib.urlparse;
  parse_qsl := Urllib.parse_qsl;
  unicode_numeric := Unicodedata.numeric;
  upper := Unicodedata.upper;
  int_max_str_digits := 4300
|}.

End Cpython.

(* ================================================================== *)
(** ** utils.py: [TotpCode] and [get_totp_code] *)

Module Utils.
Import Py Runtime.

Record TotpCode : Type := { code : str; time_left : Z; period : Z }.

(** Programs over the two effects of [get_totp_code]: a reading of the
    wall clock, [int(datetime.datetime.now().timestamp())], and the
    keyed digest [hmac.new(key, msg, digestmod).digest()]. *)
Inductive prog (R : Type) : Type :=
| Return (r : R)
| Raise (e : exn)
| Now (k : Z -> prog R)
| HmacDigest (h : Hashlib.algorithm) (key msg : bytes) (k : bytes -> prog R).
Arguments Return {R} r.
Arguments Raise {R} e.
Arguments Now {R} k.
Arguments HmacDigest {R} h key msg k.

Definition try {A R} (r : res A) (k : A -> prog R) : prog R :=
  match r with
  | Ok a => k a
  | Fail e => Raise e
  end.

Notation "x <- r ;; k" := (try r (fun x => k))
  (at level 61, r at next level, right associativity).

(** The local variables the query loop assigns. *)
Record locals : Type := {
  secret : option str;
  algorithm : str;
  digits : Z;
  period_ : Z;
  counter : Z
}.

Definition initial : locals := {|
  secret := None;
  algorithm := lit "SHA1";
  digits := 6;
  period_ := 30;
  counter := 0
|}.

Section WithRuntime.
Variable rt : runtime.

(** [v.isnumeric()]: at least one character, all of them numeric. *)
Definition isnumeric (v : str) : bool :=
  match v with
  | [] => false
  | _ => forallb (fun c => match unicode_numeric rt c with
                           | NotNumeric => false
                           | _ => true
                           end) v
  end.

(** The decimal digits [int] scans at the head of its argument. *)
Fixpoint leading_digits (v : str) : Z :=
  match v with
  | [] => 0
  | c :: v' => match unicode_numeric rt c with
               | Decimal _ => 1 + leading_digits v'
               | _ => 0
               end
  end.

Fixpoint int_digits (v : str) (acc : Z) : option Z :=
  match v with
  | [] => Some acc
  | c :: v' => match unicode_numeric rt c with
               | Decimal d => int_digits v' (10 * acc + d)
               | _ => None
               end
  end.

(** [int(v)] on a string that passed [isnumeric]: the value of its
    decimal digits, of any script; [ValueError] when a character is
    numeric without being a decimal digit, or when the digits exceed
    the interpreter's limit. *)
Definition int (v : str) : res Z :=
  let limit := int_max_str_digits rt in
  let n := leading_digits v in
  if (0 <? limit) && (limit <? n) then
    Fail (ValueError
            (lit "Exceeds the limit (" ++ str_of_int limit
             ++ lit " digits) for integer string conversion: value has "
             ++ str_of_int n
             ++ lit " digits; use sys.set_int_max_str_digits() to increase the limit"))
  else
    match int_digits v 0 with
    | Some n => Ok n
    | None =>
        Fail (ValueError (lit "invalid literal for int() with base 10: "
                          ++ [39] ++ v ++ [39]))
    end.

(** [int(v) if v.isnumeric() and int(v) > 0 else cur]. *)
Definition coerce (v : str) (cur : Z) : res Z :=
  if isnumeric v then
    bind (int v) (fun n => if 0 <? n then int v else Ok cur)
  else Ok cur.

(** One turn of [for k, v in parse.parse_qsl(comp.query)]. *)
Definition query_step (st : locals) (kv : str * str) : res locals :=
  let '(k, v) := kv in
  if str_eqb k (lit "secret") then
    Ok {| secret := Some v; algorithm := algorithm st; digits := digits st;
          period_ := period_ st; counter := counter st |}
  else if str_eqb k (lit "algorithm") then
    Ok {| secret := secret st; algorithm := v; digits := digits st;
          period_ := period_ st; counter := counter st |}
  else if str_eqb k (lit "digits") then
    bind (coerce v (digits st)) (fun d =>
    Ok {| secret := secret st; algorithm := algorithm st; digits := d;
          period_ := period_ st; counter := counter st |})
  else if str_eqb k (lit "period") then
    bind (coerce v (period_ st)) (fun p =>
    Ok {| secret := secret st; algorithm := algorithm st; digits := digits st;
          period_ := p; counter := counter st |})
  else if str_eqb k (lit "counter") then
    bind (coerce v (counter st)) (fun c =>
    Ok {| secret := secret st; algorithm := algorithm st; digits := digits st;
          period_ := period_ st; counter := c |})
  else Ok st.

Fixpoint query_loop (qs : list (str * str)) (st : locals) : res locals :=
  match qs with
  | [] => Ok st
  | kv :: qs' => bind (query_step st kv) (query_loop qs')
  end.

(** The [if]/[elif] chain over [algorithm.upper()]. *)
Definition select_hash (algorithm : str) : option Hashlib.algorithm :=
  if str_eqb algorithm (lit "SHA1") then Some Hashlib.SHA1
  else if str_eqb algorithm (lit "SHA256") then Some Hashlib.SHA256
  else if str_eqb algorithm (lit "SHA512") then Some Hashlib.SHA512
  else None.

Definition invalid_algorithm (algorithm : str) : exn :=
  ValueError (lit "Invalid value " ++ [34] ++ algorithm ++ [34]
              ++ lit " for TOTP algorithm, must be SHA1, SHA256 or SHA512").

(** [reminder = len(secret) % 8] and the [=] padding. *)
Definition pad_secret (secret : str) : str :=
  let reminder := Z.of_nat (length secret) mod 8 in
  if existsb (Z.eqb reminder) [2; 4; 5; 7]
  then secret ++ repeat 61 (Z.to_nat (8 - reminder))
  else secret.

(** [offset = digest[-1] & 0x0f]. *)
Definition offset_of (digest : bytes) : res Z :=
  match digest with
  | [] => Fail (IndexError (lit "index out of range"))
  | _ => Ok (Z.land (last digest 0) 0x0f)
  end.

(** [base = bytearray(digest[offset:offset + 4])]. *)
Definition base_of (digest : bytes) (offset : Z) : bytes :=
  slice digest offset (offset + 4).

(** [base[0] = base[0] & 0x7f; code_int = int.from_bytes(base, 'big')]. *)
Definition code_int_of (base : bytes) : res Z :=
  match base with
  | [] => Fail (IndexError (lit "bytearray index out of range"))
  | b0 :: rest => Ok (from_bytes (Z.land b0 0x7f :: rest))
  end.

(** [str(code_int % (10 ** digits)).zfill(digits)]. *)
Definition format_code (code_int digits : Z) : str :=
  zfill digits (str_of_int (code_int mod 10 ^ digits)).

(** The time step, [int(tm)] for [tm = tm_base / period]. *)
Definition time_step (tm_base period : Z) : res Z :=
  bind (Float.truediv tm_base period) (fun tm => Ok (Float.to_int tm)).

(** Lines 159-177, once [tm_base] is known. *)
Definition generate (hash : Hashlib.algorithm) (secret : str)
           (digits period tm_base : Z) : prog (option TotpCode) :=
  tm <- Float.truediv tm_base period ;;
  key <- Base64.b32decode (pad_secret secret) ;;
  msg <- to_bytes 8 (Float.to_int tm) ;;
  HmacDigest hash key msg (fun digest =>
  offset <- offset_of digest ;;
  code_int <- code_int_of (base_of digest offset) ;;
  let code := format_code code_int digits in
  let elapsed := tm_base mod period in
  let ttl := period - elapsed in
  Return (Some {| code := code; time_left := ttl; period := period |})).

(** [tm_base]: the counter if positive, else the clock reading. *)
Definition tm_base_of (st : locals) (now : Z) : Z :=
  if 0 <? counter st then counter st else now.

(** Lines 140-158: validation, then [tm_base]. *)
Definition validate (st : locals) : prog (option TotpCode) :=
  match secret st with
  | None | Some [] => Raise (ValueError (lit "TOTP secret not found in URI"))
  | Some secret =>
      let algorithm := upper rt (algorithm st) in
      match select_hash algorithm with
      | None => Raise (invalid_algorithm algorithm)
      | Some hash =>
          if negb (existsb (Z.eqb (digits st)) [6; 7; 8]) then
            Raise (ValueError (lit "TOTP Digits may only be 6, 7, or 8"))
          else if 0 <? counter st then
            generate hash secret (digits st) (period_ st) (counter st)
          else
            Now (generate hash secret (digits st) (period_ st))
      end
  end.

(** The checks of [validate], one after the other. *)
Inductive validated (st : locals) : prog (option TotpCode) -> Prop :=
| NoSecret :
    secret st = None \/ secret st = Some [] ->
    validated st (Raise (ValueError (lit "TOTP secret not found in URI")))
| BadAlgorithm s :
    secret st = Some s -> s <> [] ->
    select_hash (upper rt (algorithm st)) = None ->
    validated st (Raise (invalid_algorithm (upper rt (algorithm st))))
| BadDigits s hash :
    secret st = Some s -> s <> [] ->
    select_hash (upper rt (algorithm st)) = Some hash ->
    ~ In (digits st) [6; 7; 8] ->
    validated st (Raise (ValueError (lit "TOTP Digits may only be 6, 7, or 8")))
| FromCounter s hash :
    secret st = Some s -> s <> [] ->
    select_hash (upper rt (algorithm st)) = Some hash ->
    In (digits st) [6; 7; 8] ->
    0 < counter st ->
    validated st (generate hash s (digits st) (period_ st) (counter st))
| FromClock s hash :
    secret st = Some s -> s <> [] ->
    select_hash (upper rt (algorithm st)) = Some hash ->
    In (digits st) [6; 7; 8] ->
    counter st <= 0 ->
    validated st (Now (generate hash s (digits st) (period_ st))).

Definition get_totp_code (url : str) : prog (option TotpCode) :=
  comp <- urlparse rt url ;;
  if negb (str_eqb (scheme comp) (lit "otpauth")) then
    Raise (ValueError (lit "Not an otpauth URI"))
  else if str_eqb (scheme comp) (lit "otpauth") then
    st <- query_loop (parse_qsl rt (query comp)) initial ;;
    validate st
  else Return None.

(** The three keys whose values go through [coerce]. *)
Definition numeric_key (k : str) : bool :=
  existsb (str_eqb k) [lit "digits"; lit "period"; lit "counter"].

(** The local each of them assigns. *)
Definition numeric_field (k : str) (st : locals) : option Z :=
  if str_eqb k (lit "digits") then Some (digits st)
  else if str_eqb k (lit "period") then Some (period_ st)
  else if str_eqb k (lit "counter") then Some (counter st)
  else None.

(** A value [coerce] passes over: [isnumeric] rejects it, or [int]
    reads it as a number that is not positive. *)
Definition skipped (v : str) : Prop :=
  isnumeric v = false \/ exists n, int v = Ok n /\ n <= 0.

(** A value [coerce] takes: [int] reads it as a positive number. *)
Definition accepted (v : str) (n : Z) : Prop :=
  isnumeric v = true /\ int v = Ok n /\ 0 < n.

(** The locals a URL leaves the query loop with. *)
Definition locals_of (url : str) : res locals :=
  bind (urlparse rt url) (fun comp =>
  if str_eqb (scheme comp) (lit "otpauth")
  then query_loop (parse_qsl rt (query comp)) initial
  else Fail (ValueError (lit "Not an otpauth URI"))).

Definition parsed (url : str) (st : locals) : Prop := locals_of url = Ok st.
End WithRuntime.

(** *** Running a program

    [clock n] is what the wall clock shows at its [n]-th reading; the
    digest is the one of [hmac].  The outcome records both effects: how
    often the clock was read, and each HMAC that was keyed. *)
Record outcome (R : Type) : Type := {
  value : res R;
  clock_reads : nat;
  hmac_log : list (Hashlib.algorithm * bytes * bytes)
}.
Arguments value {R} o.
Arguments clock_reads {R} o.
Arguments hmac_log {R} o.

Fixpoint run {R} (clock : nat -> Z) (reads : nat)
         (log : list (Hashlib.algorithm * bytes * bytes)) (p : prog R)
  : outcome R :=
  match p with
  | Return r => {| value := Ok r; clock_reads := reads; hmac_log := log |}
  | Raise e => {| value := Fail e; clock_reads := reads; hmac_log := log |}
  | Now k => run clock (S reads) log (k (clock reads))
  | HmacDigest h key msg k =>
      run clock reads (log ++ [(h, key, msg)]) (k (Hmac.hmac_digest h key msg))
  end.

Definition exec {R} (clock : nat -> Z) (p : prog R) : outcome R :=
  run clock 0 [] p.

(** A program that never reads the clock, whatever the digests are. *)
Fixpoint clock_free {R} (p : prog R) : Prop :=
  match p with
  | Return _ | Raise _ => True
  | Now _ => False
  | HmacDigest _ _ _ k => forall d, clock_free (k d)
  end.

(** A program that keys no HMAC, whatever the clock shows. *)
Fixpoint hmac_free {R} (p : prog R) : Prop :=
  match p with
  | Return _ | Raise _ => True
  | Now k => forall t, hmac_free (k t)
  | HmacDigest _ _ _ _ => False
  end.

End Utils.

(* ================================================================== *)
(** ** URIs of the worked examples *)

Module Examples.
Import Py.

(** The key of the RFC 6238 test vectors, ["12345678901234567890"], in
    base32. *)
Definition rfc6238_secret : str := lit "GEZDGNBVGY3TQOJQGEZDGNBVGY3TQOJQ".

Definition with_query (q : str) : str :=
  lit "otpauth://totp/Example:alice?secret=" ++ rfc6238_secret ++ q.

Definition rfc6238_uri : str :=
  with_query (lit "&algorithm=SHA1&digits=8&counter=59").

Definition rfc6238_uri_clock : str :=
  with_query (lit "&algorithm=SHA1&digits=8").

(** A counter of [2^53 + 1], the first integer binary64 cannot hold. *)
Definition large_counter_uri : str :=
  with_query (lit "&period=1&counter=9007199254740993").

Definition repeated_digits_uri : str :=
  with_query (lit "&digits=8&digits=abc&counter=59").

(** [%C2%B2] is SUPERSCRIPT TWO, U+00B2. *)
Definition superscript_digits_uri : str :=
  with_query (lit "&digits=%C2%B2&digits=8&counter=59").

Definition superscript_period_uri : str :=
  with_query (lit "&period=%C2%B2&counter=59").

Definition md5_uri : str := with_query (lit "&algorithm=md5").

Definition md5_no_secret_uri : str := lit "otpauth://totp/Example:alice?algorithm=md5".

Definition md5_https_uri : str :=
  lit "https://totp/Example:alice?secret=GEZDGNBVGY3TQOJQ&algorithm=md5".

(** Nine characters: one quantum and one left over. *)
Definition odd_secret_uri : str :=
  lit "otpauth://totp/Example:alice?secret=GEZDGNBVG&counter=59".

Definition at_time (t : Z) : nat -> Z := fun _ => t.

End Examples.

(* ================================================================== *)
(** ** storage.py: [FileKeyValueStorage]

    The state is the configuration file of one storage object: absent,
    holding text that [json.load] rejects (an empty file is such a
    text), or holding a JSON document.  [json.dump] followed by
    [json.load] gives the document back, so the file is kept as the
    document it holds; a dict is the association list of its items, read
    through [lookup], and the order of its keys (which [sort_keys]
    changes on disk) is not part of the model.  Values are JSON values,
    keys are the strings [key.value].  The file system is taken to
    answer every [open]; log messages are left out. *)

Module Storage.
Import Py.

(** The exceptions of the methods, by class. *)
Inductive error : Type :=
| AttributeError
| TypeError
| FileNotFoundError.

Inductive answer (A : Type) : Type :=
| Returns (a : A)
| Raises (e : error).
Arguments Returns {A} a.
Arguments Raises {A} e.

Section Documents.
(** Python's [int] and [float], as [json.load] produces them. *)
Variable number : Type.

#[warnings="-register-all"]
Inductive json : Type :=
| JNull
| JBool (b : bool)
| JNumber (n : number)
| JString (s : str)
| JArray (items : list json)
| JObject (items : list (str * json)).

(** A Python dict with string keys, as the list of its items; the
    first binding of a key is its value, and the methods below never
    look at the order. *)
Definition dict : Type := list (str * json).

(** [d[k]], when [k in d]. *)
Fixpoint lookup (k : str) (d : dict) : option json :=
  match d with
  | [] => None
  | (k', v) :: d' => if str_eqb k' k then Some v else lookup k d'
  end.

(** [del d[k]]. *)
Fixpoint remove (k : str) (d : dict) : dict :=
  match d with
  | [] => []
  | (k', v) :: d' =>
      if str_eqb k' k then remove k d' else (k', v) :: remove k d'
  end.

(** [d[k] = v]. *)
Definition assign (k : str) (v : json) (d : dict) : dict :=
  (k, v) :: remove k d.

(** [k in config] for a string [k], by the type of [config]: a key of
    a dict, an item of a list, a substring of a string; the other
    types are not iterable. *)
Definition is_in (k : str) (config : json) : answer bool :=
  match config with
  | JObject d => Returns (match lookup k d with Some _ => true | None => false end)
  | JArray l =>
      Returns (existsb (fun x => match x with
                                 | JString s => str_eqb s k
                                 | _ => false
                                 end) l)
  | JString s => Returns (contains s k)
  | JNull | JBool _ | JNumber _ => Raises TypeError
  end.

(** The file at [default_config_file_location], by what [os.path.exists]
    and [json.load] make of it: no file; a file on which [json.load]
    raises [JSONDecodeError] (an empty one, say); a file from which it
    returns [document].  [json.dump] followed by [json.load] gives a JSON
    value back, so a saved document is held as it is. *)
Inductive file : Type :=
| Absent
| Unparsable
| Holds (document : json).

Definition create_config_file_if_missing (f : file) : file :=
  match f with
  | Absent => Unparsable        (* [open(path, "w+")]: an empty file *)
  | _ => f
  end.

Definition save_storage (updated_config : json) (f : file) : file :=
  match create_config_file_if_missing f with
  | _ => Holds updated_config
  end.

Definition read_storage (f : file) : answer json * file :=
  let f := create_config_file_if_missing f in
  match f with
  | Holds config => (Returns config, f)
  | Unparsable =>                (* JSONDecodeError *)
      (Returns (JObject []), save_storage (JObject []) f)
  | Absent => (Raises FileNotFoundError, f)      (* IOError on [open] *)
  end.

(** [config.get(key.value)]: [None] for a missing key. *)
Definition get (key : str) (f : file) : answer json * file :=
  match read_storage f with
  | (Raises e, f) => (Raises e, f)
  | (Returns config, f) =>
      match config with
      | JObject d =>
          (Returns (match lookup key d with Some v => v | None => JNull end), f)
      | _ => (Raises AttributeError, f)
      end
  end.

Definition set (key : str) (value : json) (f : file) : answer json * file :=
  match read_storage f with
  | (Raises e, f) => (Raises e, f)
  | (Returns config, f) =>
      match config with
      | JObject d =>
          let config := JObject (assign key value d) in
          (Returns config, save_storage config f)
      | _ => (Raises TypeError, f)
      end
  end.

Definition delete (key : str) (f : file) : answer json * file :=
  match read_storage f with
  | (Raises e, f) => (Raises e, f)
  | (Returns config, f) =>
      match is_in key config with
      | Raises e => (Raises e, f)
      | Returns true =>
          match config with
          | JObject d =>
              let config := JObject (remove key d) in
              (Returns config, save_storage config f)
          | _ => (Raises TypeError, f)          (* [del] on a list or a string *)
          end
      | Returns false => (Returns config, save_storage config f)
      end
  end.

(** [config.clear()], which dicts and lists have. *)
Definition delete_all (f : file) : answer json * file :=
  match read_storage f with
  | (Raises e, f) => (Raises e, f)
  | (Returns config, f) =>
      match config with
      | JObject _ => (Returns (JObject []), save_storage (JObject []) f)
      | JArray _ => (Returns (JArray []), save_storage (JArray []) f)
      | _ => (Raises AttributeError, f)
      end
  end.

Definition contains (key : str) (f : file) : answer bool * file :=
  match read_storage f with
  | (Raises e, f) => (Raises e, f)
  | (Returns config, f) => (is_in key config, f)
  end.

(** A file from which the methods read a dict: it is absent, or
    unparsable, or holds a JSON object. *)
Definition usable (f : file) : Prop :=
  match f with
  | Holds (JObject _) | Absent | Unparsable => True
  | Holds _ => False
  end.

(** The dict the methods read from a usable file. *)
Definition items_of (f : file) : dict :=
  match f with
  | Holds (JObject d) => d
  | _ => []
  end.
End Documents.

Arguments JNull {number}.
Arguments JBool {number} b.
Arguments JNumber {number} n.
Arguments JString {number} s.
Arguments JArray {number} items.
Arguments JObject {number} items.
Arguments Absent {number}.
Arguments Unparsable {number}.
Arguments Holds {number} document.
Arguments lookup {number} k d.
Arguments remove {number} k d.
Arguments assign {number} k v d.
Arguments is_in {number} k config.
Arguments create_config_file_if_missing {number} f.
Arguments save_storage {number} updated_config f.
Arguments read_storage {number} f.
Arguments get {number} key f.
Arguments set {number} key value f.
Arguments delete {number} key f.
Arguments delete_all {number} f.
Arguments contains {number} key f.
Arguments usable {number} f.
Arguments items_of {number} f.

End Storage.

(* ================================================================== *)
(** ** utils.py: [random_sample] and [generate_password]

    The random sources are the runtime's: [secrets.choice] draws through
    [SystemRandom._randbelow], [random.sample] through [_randbelow] of
    the module's generator, and the fallback of [random_sample] reads
    [os.urandom].  Their generators are threaded as one state; whether
    [import secrets] succeeds is a flag of the runtime. *)

Module Password.
Import Py.

(** [string.ascii_lowercase], [string.ascii_uppercase], [string.digits]
    and the module constant [SPECIAL_CHARACTERS], which starts with a
    double quote (code point 34). *)
Definition ascii_lowercase : str := lit "abcdefghijklmnopqrstuvwxyz".
Definition ascii_uppercase : str := lit "ABCDEFGHIJKLMNOPQRSTUVWXYZ".
Definition string_digits : str := lit "0123456789".
Definition SPECIAL_CHARACTERS : str := 34 :: lit "!@#$%()+;<>=?[]{}^.,".

(** [seq[j]] of a string or a list: a negative index counts from the
    end, an index out of range raises. *)
Definition getitem (msg : string) (seq : list Z) (j : Z) : res Z :=
  let n := Z.of_nat (List.length seq) in
  if (0 <=? j) && (j <? n) then Ok (nth (Z.to_nat j) seq 0)
  else if (- n <=? j) && (j <? 0) then Ok (nth (Z.to_nat (n + j)) seq 0)
  else Fail (IndexError (lit msg)).

(** The list [l] with [x] at position [i < len(l)]. *)
Definition put (l : list Z) (i : nat) (x : Z) : list Z :=
  firstn i l ++ x :: skipn (S i) l.

(** [l[j] = x] of a list. *)
Definition setitem (l : list Z) (j : Z) (x : Z) : res (list Z) :=
  let n := Z.of_nat (List.length l) in
  if (0 <=? j) && (j <? n) then Ok (put l (Z.to_nat j) x)
  else if (- n <=? j) && (j <? 0) then Ok (put l (Z.to_nat (n + j)) x)
  else Fail (IndexError (lit "list assignment index out of range")).

(** The random sources over the state of their generators: whether
    [import secrets] succeeds; [_randbelow(n)] of [secrets]'
    [SystemRandom] and of the generator of [random]; [os.urandom(n)]. *)
Record source (state : Type) : Type := {
  has_secrets : bool;
  system_randbelow : Z -> state -> Z * state;
  randbelow : Z -> state -> Z * state;
  urandom : Z -> state -> bytes * state
}.
Arguments has_secrets {state} s.
Arguments system_randbelow {state} s n st.
Arguments randbelow {state} s n st.
Arguments urandom {state} s n st.

Section WithRandom.
Variable state : Type.
Variable rnd : source state.

(** A call that draws from the random sources and returns or raises. *)
Definition rand (A : Type) : Type := state -> res A * state.

Definition ret {A} (a : A) : rand A := fun s => (Ok a, s).

Definition raise {A} (e : exn) : rand A := fun s => (Fail e, s).

Definition lift {A} (r : res A) : rand A := fun s => (r, s).

Definition and_then {A B} (m : rand A) (k : A -> rand B) : rand B :=
  fun s =>
    match m s with
    | (Ok a, s') => k a s'
    | (Fail e, s') => (Fail e, s')
    end.

Notation "x <~ m ;; k" := (and_then m (fun x => k))
  (at level 61, m at next level, right associativity).

(** [secrets.choice(seq)]. *)
Definition choice (seq : str) : rand Z :=
  fun s =>
    let n := Z.of_nat (List.length seq) in
    if n =? 0 then
      (Fail (IndexError (lit "Cannot choose from an empty sequence")), s)
    else
      let (j, s') := system_randbelow rnd n s in
      (getitem "string index out of range" seq j, s').

(** One round of the loop of [random_sample]: the character that is
    added to [sample]. *)
Definition draw (sample_string : str) : rand Z :=
  if has_secrets rnd then choice sample_string
  else
    fun s =>
      let (b, s') := urandom rnd 2 s in
      let n := Z.of_nat (List.length sample_string) in
      if n =? 0 then
        (Fail (ZeroDivisionError (lit "integer modulo by zero")), s')
      else
        let pos := from_bytes b mod n in
        (getitem "string index out of range" sample_string pos, s').

(** [for _ in range(sample_length)], with [count] rounds left. *)
Fixpoint sample_loop (count : nat) (sample_string sample : str) : rand str :=
  match count with
  | O => ret sample
  | S count' =>
      c <~ draw sample_string ;;
      sample_loop count' sample_string (sample ++ [c])
  end.

Definition random_sample (sample_length : Z) (sample_string : str) : rand str :=
  sample_loop (Z.to_nat sample_length) sample_string [].

(** The loop of [random.sample] over the pool, with [todo] rounds left;
    [result] holds the [i] items selected so far. *)
Fixpoint pool_loop (todo : nat) (n i : Z) (pool result : list Z)
  : rand (list Z) :=
  match todo with
  | O => ret result
  | S todo' =>
      fun s =>
        let (j, s') := randbelow rnd (n - i) s in
        (x <~ lift (getitem "list index out of range" pool j) ;;
         y <~ lift (getitem "list index out of range" pool (n - i - 1)) ;;
         pool' <~ lift (setitem pool j y) ;;
         pool_loop todo' n (i + 1) pool' (result ++ [x])) s'
  end.

(** [random.sample(population, k)] for [k = len(population)], as
    [generate_password] calls it.  The library then selects from the
    pool of the items not selected yet: its test [n <= setsize] holds,
    [setsize] being at least [21] and, above [k = 5], at least [3 * k]. *)
Definition sample (population : list Z) (k : Z) : rand (list Z) :=
  let n := Z.of_nat (List.length population) in
  if negb ((0 <=? k) && (k <=? n)) then
    raise (ValueError (lit "Sample larger than population or is negative"))
  else pool_loop (Z.to_nat k) n 0 population [].

(** [if count: password += random_sample(count, alphabet)]. *)
Definition part (count : Z) (alphabet password : str) : rand str :=
  if count =? 0 then ret password
  else
    chosen <~ random_sample count alphabet ;;
    ret (password ++ chosen).

(** The four counts after the first two tests of [generate_password]. *)
Definition counts (length lowercase uppercase digits special_characters : Z)
  : Z * Z * Z * Z :=
  let length := if length <=? 0 then 64 else length in
  if (lowercase =? 0) && (uppercase =? 0) && (digits =? 0)
     && (special_characters =? 0)
  then
    let increment := length / 4 in
    let lastincrement := increment + length mod 4 in
    (increment, increment, increment, lastincrement)
  else (lowercase, uppercase, digits, special_characters).

Definition generate_password
           (length lowercase uppercase digits special_characters : Z)
  : rand str :=
  let '(lowercase, uppercase, digits, special_characters) :=
    counts length lowercase uppercase digits special_characters in
  password <~ part lowercase ascii_lowercase [] ;;
  password <~ part uppercase ascii_uppercase password ;;
  password <~ part digits string_digits password ;;
  password <~ part special_characters SPECIAL_CHARACTERS password ;;
  newpass <~ sample password (Z.of_nat (List.length password)) ;;
  ret newpass.

(** What the library promises of [_randbelow(n)] for [n > 0]. *)
Definition below (f : Z -> state -> Z * state) : Prop :=
  forall n s, 0 < n -> 0 <= fst (f n s) < n.

End WithRandom.

Arguments ret {state A} a.
Arguments raise {state A} e.
Arguments lift {state A} r.
Arguments and_then {state A B} m k.
Arguments choice {state} rnd seq.
Arguments draw {state} rnd sample_string.
Arguments sample_loop {state} rnd count sample_string sample.
Arguments random_sample {state} rnd sample_length sample_string.
Arguments pool_loop {state} rnd todo n i pool result.
Arguments sample {state} rnd population k.
Arguments part {state} rnd count alphabet password.
Arguments generate_password {state} rnd length lowercase uppercase digits
  special_characters.
Arguments below {state} f.

(** The number of characters of [s] that are in [alphabet]. *)
Definition count_of (alphabet s : str) : Z :=
  Z.of_nat (List.length
              (filter (fun c => existsb (Z.eqb c) alphabet) s)).

(** Two alphabets without a common character. *)
Definition apart (alphabet other : str) : bool :=
  forallb (fun c => negb (existsb (Z.eqb c) alphabet)) other.

(** A generator for the examples: a counter, reduced below [n]. *)
Definition counter_below (n : Z) (s : Z) : Z * Z := (s mod n, s + 1).

Definition counter_urandom (n : Z) (s : Z) : bytes * Z :=
  (be_bytes (Z.to_nat n) (s mod 256 ^ n), s + 1).

Definition counter_source (secrets : bool) : source Z := {|
  has_secrets := secrets;
  system_randbelow := counter_below;
  randbelow := counter_below;
  urandom := counter_urandom
|}.

End Password.

(* ================================================================== *)
(** ** utils.py: the conversions between bytes, integers and base64

    [binascii.b2a_base64] and [binascii.a2b_base64] are the runtime's,
    with the variables of their loops; the decoder is the one without
    [strict_mode], as [base64.b64decode] calls it. *)

Module Binascii.
Import Py.

Definition table_b2a_base64 : str :=
  lit "ABCDEFGHIJKLMNOPQRSTUVWXYZabcdefghijklmnopqrstuvwxyz0123456789+/".

Definition BASE64_PAD : Z := 61.

(** [table_b2a_base64[this_ch]]. *)
Definition char_of (this_ch : Z) : Z :=
  nth (Z.to_nat this_ch) table_b2a_base64 0.

(** The reverse table, on a byte: [255] (that is [-1] as an unsigned
    char) off the alphabet, [0] on the pad. *)
Definition table_a2b_base64 (c : Z) : Z :=
  if (65 <=? c) && (c <=? 90) then c - 65
  else if (97 <=? c) && (c <=? 122) then c - 71
  else if (48 <=? c) && (c <=? 57) then c + 4
  else if c =? 43 then 62
  else if c =? 47 then 63
  else if c =? BASE64_PAD then 0
  else 255.

(** [while (leftbits >= 6)]: the characters written and [leftbits]
    afterwards. *)
Fixpoint b2a_ready (fuel : nat) (leftchar leftbits : Z) : str * Z :=
  match fuel with
  | O => ([], leftbits)
  | S fuel' =>
      if 6 <=? leftbits then
        let this_ch := Z.land (Z.shiftr leftchar (leftbits - 6)) 63 in
        let leftbits := leftbits - 6 in
        let (more, leftbits') := b2a_ready fuel' leftchar leftbits in
        (char_of this_ch :: more, leftbits')
      else ([], leftbits)
  end.

(** The loop over the bytes; [leftchar] is an unsigned int of 32 bits. *)
Fixpoint b2a_loop (bin_data : bytes) (leftchar leftbits : Z)
         (ascii_data : str) : str :=
  match bin_data with
  | [] =>
      if leftbits =? 2 then
        ascii_data
          ++ [char_of (Z.shiftl (Z.land leftchar 3) 4);
              BASE64_PAD; BASE64_PAD]
      else if leftbits =? 4 then
        ascii_data
          ++ [char_of (Z.shiftl (Z.land leftchar 15) 2); BASE64_PAD]
      else ascii_data
  | byte :: bin_data' =>
      let leftchar :=
        Z.land (Z.lor (Z.shiftl leftchar 8) byte) 4294967295 in
      let leftbits := leftbits + 8 in
      let (written, leftbits) :=
        b2a_ready (Z.to_nat leftbits) leftchar leftbits in
      b2a_loop bin_data' leftchar leftbits (ascii_data ++ written)
  end.

(** [binascii.b2a_base64(data, newline=False)]. *)
Definition b2a_base64 (data : bytes) : str := b2a_loop data 0 0 [].

(** The loop of the decoder over the characters; [leftchar] is an
    unsigned char, and so is what is stored in [bin_data]. *)
Fixpoint a2b_loop (ascii_data : bytes) (quad_pos leftchar pads : Z)
         (bin_data : bytes) : res bytes :=
  match ascii_data with
  | [] =>
      if quad_pos =? 0 then Ok bin_data
      else if quad_pos =? 1 then
        Fail (BinasciiError
                (lit "Invalid base64-encoded string: number of data characters ("
                 ++ str_of_int (Z.of_nat (length bin_data) / 3 * 4 + 1)
                 ++ lit ") cannot be 1 more than a multiple of 4"))
      else Fail (BinasciiError (lit "Incorrect padding"))
  | this_ch :: rest =>
      if this_ch =? BASE64_PAD then
        if 2 <=? quad_pos then
          let pads := pads + 1 in
          if 4 <=? quad_pos + pads then Ok bin_data
          else a2b_loop rest quad_pos leftchar pads bin_data
        else a2b_loop rest quad_pos leftchar pads bin_data
      else
        let this_ch := table_a2b_base64 this_ch in
        if 64 <=? this_ch then a2b_loop rest quad_pos leftchar pads bin_data
        else
          let pads := 0 in
          if quad_pos =? 0 then a2b_loop rest 1 this_ch pads bin_data
          else if quad_pos =? 1 then
            a2b_loop rest 2 (Z.land this_ch 15) pads
                     (bin_data
                        ++ [Z.land (Z.lor (Z.shiftl leftchar 2)
                                          (Z.shiftr this_ch 4)) 255])
          else if quad_pos =? 2 then
            a2b_loop rest 3 (Z.land this_ch 3) pads
                     (bin_data
                        ++ [Z.land (Z.lor (Z.shiftl leftchar 4)
                                          (Z.shiftr this_ch 2)) 255])
          else
            a2b_loop rest 0 0 pads
                     (bin_data
                        ++ [Z.land (Z.lor (Z.shiftl leftchar 6) this_ch) 255])
  end.

(** [binascii.a2b_base64(data, strict_mode=False)]. *)
Definition a2b_base64 (data : bytes) : res bytes := a2b_loop data 0 0 0 [].

End Binascii.

Module Convert.
Import Py.

(** [base64._bytes_from_decode_data] on a [str]. *)
Definition bytes_from_decode_data (s : str) : res bytes :=
  if forallb (fun c => c <? 128) s then Ok s
  else
    Fail (ValueError
            (lit "string argument should contain only ASCII characters")).

(** [s.translate(_urlsafe_decode_translation)]: [-] to [+], [_] to [/]. *)
Definition urlsafe_decode_translation (c : Z) : Z :=
  if c =? 45 then 43 else if c =? 95 then 47 else c.

Definition b64encode (s : bytes) : bytes := Binascii.b2a_base64 s.

(** [base64.b64decode] on the bytes [urlsafe_b64decode] hands it, which
    [_bytes_from_decode_data] returns as they are. *)
Definition b64decode (s : bytes) : res bytes := Binascii.a2b_base64 s.

Definition urlsafe_b64decode (s : str) : res bytes :=
  bind (bytes_from_decode_data s) (fun s =>
  b64decode (map urlsafe_decode_translation s)).

Definition bytes_to_int (b : bytes) : Z := from_bytes b.

Definition bytes_to_base64 (b : bytes) : str := b64encode b.

Definition base64_to_bytes (s : str) : res bytes := urlsafe_b64decode s.

Definition url_safe_str_to_bytes (s : str) : res bytes :=
  urlsafe_b64decode (s ++ lit "==").

Definition url_safe_str_to_int (s : str) : res Z :=
  bind (url_safe_str_to_bytes s) (fun b => Ok (bytes_to_int b)).

(** [s.rstrip('=')] and the URL-safe alphabet of
    [base64.urlsafe_b64encode], for the texts the functions are given. *)
Definition rstrip_pad (s : str) : str := Base64.rstrip_pad s.

Definition urlsafe_encode_translation (c : Z) : Z :=
  if c =? 43 then 45 else if c =? 47 then 95 else c.

Definition urlsafe (s : str) : str := map urlsafe_encode_translation s.

(** A character the decoder passes over: ASCII, not the pad, and in
    neither alphabet. *)
Definition ignored (c : Z) : bool :=
  (c <? 128) && negb (c =? 61)
  && (64 <=? Binascii.table_a2b_base64 (urlsafe_decode_translation c)).

End Convert.

(* ================================================================== *)
(** ** Vocabulary of the further properties *)

Module Chars.

(** An ASCII decimal digit. *)
Definition is_digit_char (c : Z) : Prop := 48 <= c <= 57.

(** The five names the query loop of [get_totp_code] compares with. *)
Definition recognized (k : Py.str) : bool :=
  existsb (Py.str_eqb k)
          [Py.lit "secret"; Py.lit "algorithm"; Py.lit "digits";
           Py.lit "period"; Py.lit "counter"].

End Chars.

(* ================================================================== *)
(** * Properties *)

(** ** Bytes and digests *)

Module BytesFacts.
Import Py Hashlib.

Lemma be_bytes_length (n : nat) (x : Z) : length (be_bytes n x) = n.
Proof.
  revert x; induction n as [|n IH]; intro x; simpl; [reflexivity|].
  rewrite length_app, IH; simpl; lia.
Qed.

Lemma be_bytes_range (n : nat) (x : Z) : Forall is_byte (be_bytes n x).
Proof.
  revert x; induction n as [|n IH]; intro x; simpl; [constructor|].
  apply Forall_app; split; [apply IH|].
  constructor; [|constructor].
  unfold is_byte; apply Z.mod_pos_bound; lia.
Qed.

Lemma sha1_out_length (s : st5) : length (sha1_out s) = 20%nat.
Proof.
  destruct s as [[[[a b] c] d] e]; unfold sha1_out.
  rewrite !length_app, !be_bytes_length; reflexivity.
Qed.

Lemma sha1_out_range (s : st5) : Forall is_byte (sha1_out s).
Proof.
  destruct s as [[[[a b] c] d] e]; unfold sha1_out.
  rewrite !Forall_app; repeat split; apply be_bytes_range.
Qed.

Lemma sha2_out_length (wbytes : nat) (s : st8) :
  length (sha2_out wbytes s) = (8 * wbytes)%nat.
Proof.
  destruct s as [[[[[[[a b] c] d] e] f] g] h]; unfold sha2_out.
  rewrite !length_app, !be_bytes_length; lia.
Qed.

Lemma sha2_out_range (wbytes : nat) (s : st8) :
  Forall is_byte (sha2_out wbytes s).
Proof.
  destruct s as [[[[[[[a b] c] d] e] f] g] h]; unfold sha2_out.
  rewrite !Forall_app; repeat split; apply be_bytes_range.
Qed.

(** [hashlib]'s [digest_size]: 20, 32 and 64 bytes. *)
Lemma digest_length (h : algorithm) (msg : bytes) :
  length (digest h msg) = digest_size h.
Proof.
  destruct h; simpl; unfold sha1, sha256, sha512.
  - apply sha1_out_length.
  - apply sha2_out_length.
  - apply sha2_out_length.
Qed.

Lemma digest_range (h : algorithm) (msg : bytes) :
  Forall is_byte (digest h msg).
Proof.
  destruct h; simpl; unfold sha1, sha256, sha512;
    auto using sha1_out_range, sha2_out_range.
Qed.

Lemma hmac_digest_length (h : algorithm) (key msg : bytes) :
  length (Hmac.hmac_digest h key msg) = digest_size h.
Proof. unfold Hmac.hmac_digest; apply digest_length. Qed.

Lemma hmac_digest_range (h : algorithm) (key msg : bytes) :
  Forall is_byte (Hmac.hmac_digest h key msg).
Proof. unfold Hmac.hmac_digest; apply digest_range. Qed.

Lemma digest_size_ge_20 (h : algorithm) : (20 <= digest_size h)%nat.
Proof. destruct h; simpl; lia. Qed.

(** A big-endian value of [n] bytes is below [256 ^ n]. *)
Lemma from_bytes_acc_bound (b : bytes) :
  Forall is_byte b ->
  forall acc, 0 <= acc ->
    0 <= fold_left (fun a x => a * 256 + x) b acc
    < (acc + 1) * 256 ^ Z.of_nat (length b).
Proof.
  induction 1 as [|x b Hx Hb IH]; intros acc Hacc; simpl fold_left.
  - simpl; lia.
  - unfold is_byte in Hx.
    assert (Hstep : 0 <= acc * 256 + x) by lia.
    specialize (IH _ Hstep).
    replace (Z.of_nat (length (x :: b))) with (1 + Z.of_nat (length b))
      by (simpl length; lia).
    rewrite Z.pow_add_r by lia.
    assert (0 < 256 ^ Z.of_nat (length b)) by (apply Z.pow_pos_nonneg; lia).
    nia.
Qed.

Lemma last_is_byte (b : bytes) :
  Forall is_byte b -> b <> [] -> is_byte (last b 0).
Proof.
  intros Hb Hne.
  destruct (exists_last Hne) as [b' [x ->]].
  rewrite last_last.
  apply Forall_app in Hb; destruct Hb as [_ Hx]; inversion Hx; assumption.
Qed.

End BytesFacts.

(** ** Dynamic truncation *)

Module TruncationFacts.
Import Py Utils BytesFacts.

Lemma Forall_slice (b : bytes) (i j : Z) :
  Forall is_byte b -> Forall is_byte (slice b i j).
Proof.
  intro Hb; unfold slice.
  rewrite <- (firstn_skipn (Z.to_nat i) b) in Hb.
  apply Forall_app in Hb; destruct Hb as [_ Hb].
  rewrite <- (firstn_skipn (Z.to_nat (j - i)) (skipn (Z.to_nat i) b)) in Hb.
  apply Forall_app in Hb; tauto.
Qed.

Lemma land_low_bits (x : Z) (n : Z) :
  0 <= n -> 0 <= Z.land x (2 ^ n - 1) < 2 ^ n.
Proof.
  intro Hn.
  replace (2 ^ n - 1) with (Z.ones n)
    by (rewrite Z.ones_equiv; lia).
  rewrite Z.land_ones by assumption.
  apply Z.mod_pos_bound, Z.pow_pos_nonneg; lia.
Qed.

(** The offset is a four-bit number. *)
Lemma offset_of_bound (digest : bytes) :
  digest <> [] ->
  exists offset, offset_of digest = Ok offset /\ 0 <= offset <= 15.
Proof.
  intro Hne; destruct digest as [|x digest]; [congruence|].
  eexists; split; [reflexivity|].
  pose proof (land_low_bits (last (x :: digest) 0) 4 ltac:(lia)) as H.
  change (2 ^ 4 - 1) with 15 in H; change (2 ^ 4) with 16 in H.
  change 0x0f with 15; lia.
Qed.

(** Twenty bytes are enough for any four-bit offset. *)
Lemma base_of_length (digest : bytes) (offset : Z) :
  (20 <= length digest)%nat -> 0 <= offset <= 15 ->
  length (base_of digest offset) = 4%nat.
Proof.
  intros Hlen Hoff; unfold base_of, slice.
  rewrite length_firstn, length_skipn.
  replace (offset + 4 - offset) with 4 by lia.
  change (Z.to_nat 4) with 4%nat.
  assert (Z.to_nat offset <= 15)%nat by lia.
  lia.
Qed.

(** Four bytes with the top bit cleared read as a 31-bit integer. *)
Lemma code_int_of_bound (base : bytes) :
  length base = 4%nat -> Forall is_byte base ->
  exists code_int, code_int_of base = Ok code_int /\ 0 <= code_int < 2 ^ 31.
Proof.
  intros Hlen Hb.
  destruct base as [|b0 [|b1 [|b2 [|b3 [|? ?]]]]]; try discriminate Hlen.
  eexists; split; [reflexivity|].
  repeat match goal with
         | H : Forall _ (_ :: _) |- _ => inversion H; subst; clear H
         end.
  unfold is_byte in *.
  pose proof (land_low_bits b0 7 ltac:(lia)) as H0.
  change (2 ^ 7 - 1) with 127 in H0; change (2 ^ 7) with 128 in H0.
  change 0x7f with 127.
  unfold from_bytes; simpl fold_left.
  change (2 ^ 31) with 2147483648.
  lia.
Qed.

End TruncationFacts.

(** ** Decimal text *)

Module TextFacts.
Import Py.

Lemma dec_digits_length (fuel : nat) :
  forall (d : nat) (n : Z) (acc : str),
    (1 <= d)%nat -> 0 <= n < 10 ^ Z.of_nat d ->
    (length (dec_digits fuel n acc) <= length acc + d)%nat.
Proof.
  induction fuel as [|fuel IH]; intros d n acc Hd Hn; simpl.
  - lia.
  - destruct (n / 10 =? 0) eqn:Hq; [simpl; lia|].
    apply Z.eqb_neq in Hq.
    destruct d as [|[|d]]; [lia| |].
    + (* one digit: n < 10 *)
      change (10 ^ Z.of_nat 1) with 10 in Hn.
      exfalso; apply Hq, Z.div_small; lia.
    + assert (Hn' : 0 <= n / 10 < 10 ^ Z.of_nat (S d)).
      { split; [apply Z.div_pos; lia|].
        apply Z.div_lt_upper_bound; [lia|].
        replace (Z.of_nat (S (S d))) with (1 + Z.of_nat (S d)) in Hn by lia.
        rewrite Z.pow_add_r in Hn by lia.
        change (10 ^ 1) with 10 in Hn; lia. }
      specialize (IH (S d) (n / 10) ((48 + n mod 10) :: acc) ltac:(lia) Hn').
      simpl length in IH; lia.
Qed.

(** [str] of a number below [10 ^ d] has at most [d] characters. *)
Lemma str_of_int_length (d : nat) (n : Z) :
  (1 <= d)%nat -> 0 <= n < 10 ^ Z.of_nat d ->
  (length (str_of_int n) <= d)%nat.
Proof.
  intros Hd Hn; unfold str_of_int.
  replace (n <? 0) with false by (symmetry; apply Z.ltb_ge; lia).
  rewrite Z.abs_eq by lia.
  pose proof (dec_digits_length (S (Z.to_nat (Z.log2 n))) d n [] Hd Hn) as H.
  simpl length in H; exact H.
Qed.

Lemma dec_digits_no_sign (fuel : nat) :
  forall (n : Z) (acc : str),
    0 <= n ->
    forall c, hd_error (dec_digits (S fuel) n acc) = Some c -> 48 <= c <= 57.
Proof.
  induction fuel as [|fuel IH]; intros n acc Hn c;
    assert (Hr : 0 <= n mod 10 < 10) by (apply Z.mod_pos_bound; lia).
  - change (dec_digits 1 n acc)
      with (if n / 10 =? 0 then (48 + n mod 10) :: acc
            else (48 + n mod 10) :: acc).
    remember (48 + n mod 10) as d eqn:Hd.
    destruct (n / 10 =? 0); cbn [hd_error]; intros [= <-]; lia.
  - change (dec_digits (S (S fuel)) n acc)
      with (if n / 10 =? 0 then (48 + n mod 10) :: acc
            else dec_digits (S fuel) (n / 10) ((48 + n mod 10) :: acc)).
    remember (48 + n mod 10) as d eqn:Hd.
    destruct (n / 10 =? 0).
    + cbn [hd_error]; intros [= <-]; lia.
    + apply IH, Z.div_pos; lia.
Qed.

(** Left zero padding: a non-negative number below [10 ^ digits] is
    printed on exactly [digits] characters. *)
Lemma format_code_padded (code_int digits : Z) :
  1 <= digits ->
  let s := str_of_int (code_int mod 10 ^ digits) in
  Utils.format_code code_int digits
  = repeat 48 (Z.to_nat digits - length s) ++ s
  /\ Z.of_nat (length (Utils.format_code code_int digits)) = digits.
Proof.
  intros Hd s.
  assert (Hpow : 0 < 10 ^ digits) by (apply Z.pow_pos_nonneg; lia).
  assert (Hm : 0 <= code_int mod 10 ^ digits < 10 ^ Z.of_nat (Z.to_nat digits)).
  { rewrite Z2Nat.id by lia. apply Z.mod_pos_bound; assumption. }
  assert (Hlen : (length s <= Z.to_nat digits)%nat).
  { apply str_of_int_length; [lia | exact Hm]. }
  assert (Hsign : forall c, hd_error s = Some c -> 48 <= c <= 57).
  { unfold s, str_of_int.
    replace (code_int mod 10 ^ digits <? 0) with false
      by (symmetry; apply Z.ltb_ge; lia).
    apply dec_digits_no_sign, Z.abs_nonneg. }
  unfold Utils.format_code, zfill; fold s.
  destruct (digits <=? Z.of_nat (length s)) eqn:Hle.
  - apply Z.leb_le in Hle.
    replace (Z.to_nat digits - length s)%nat with 0%nat by lia.
    simpl; split; [reflexivity | lia].
  - apply Z.leb_gt in Hle.
    replace (Z.to_nat (digits - Z.of_nat (length s)))
      with (Z.to_nat digits - length s)%nat by lia.
    destruct s as [|c s'] eqn:Hs.
    + split; [rewrite app_nil_r; reflexivity|].
      rewrite repeat_length; simpl length; lia.
    + specialize (Hsign c eq_refl).
      replace (c =? 43) with false by (symmetry; apply Z.eqb_neq; lia).
      replace (c =? 45) with false by (symmetry; apply Z.eqb_neq; lia).
      simpl orb; cbv iota.
      split; [reflexivity|].
      rewrite length_app, repeat_length.
      simpl length in *; lia.
Qed.

End TextFacts.

(** ** Base32 *)

Module Base32Facts.
Import Py Base64.

Lemma in_alphabet_range (c : Z) :
  in_alphabet c = true ->
  c < 128 /\ upper_byte c <> 61 /\ exists v, b32rev (upper_byte c) = Some v.
Proof.
  unfold in_alphabet.
  destruct (b32rev (upper_byte c)) as [v|] eqn:E; [intros _|discriminate].
  split; [|split; [|exists v; reflexivity]]; revert E;
    unfold b32rev, upper_byte;
    destruct ((97 <=? c) && (c <=? 122)) eqn:Hl;
    repeat match goal with
           | |- context [(?a <=? ?b) && (?c <=? ?d)] =>
               let H := fresh in
               destruct ((a <=? b) && (c <=? d)) eqn:H;
               [apply andb_true_iff in H; destruct H as [?H ?H];
                repeat match goal with
                       | H' : (_ <=? _) = true |- _ => apply Z.leb_le in H'
                       end|]
           end; try discriminate; try lia;
    apply andb_true_iff in Hl; destruct Hl as [H1 H2];
    apply Z.leb_le in H1, H2; intros; lia.
Qed.

Lemma lstrip_pad_repeat (k : nat) (u : bytes) :
  lstrip_pad (repeat 61 k ++ u) = lstrip_pad u.
Proof. induction k as [|k IH]; simpl; auto. Qed.

Lemma lstrip_pad_keeps (u : bytes) :
  (forall c, hd_error u = Some c -> c <> 61) -> lstrip_pad u = u.
Proof.
  destruct u as [|c u]; simpl; [reflexivity|].
  intro H; specialize (H c eq_refl).
  replace (c =? 61) with false by (symmetry; apply Z.eqb_neq; exact H).
  reflexivity.
Qed.

Lemma rev_repeat {A} (x : A) (k : nat) : rev (repeat x k) = repeat x k.
Proof.
  induction k as [|k IH]; simpl; [reflexivity|].
  rewrite IH. clear IH.
  induction k as [|k IH]; simpl; [reflexivity|]. rewrite IH; reflexivity.
Qed.

(** Stripping takes the appended padding off again. *)
Lemma rstrip_pad_padding (t : bytes) (k : nat) :
  Forall (fun c => c <> 61) t ->
  rstrip_pad (t ++ repeat 61 k) = t.
Proof.
  intro Ht; unfold rstrip_pad.
  rewrite rev_app_distr, rev_repeat, lstrip_pad_repeat.
  rewrite lstrip_pad_keeps; [apply rev_involutive|].
  intros c Hc.
  assert (Hin : In c (rev t)).
  { destruct (rev t); [discriminate|]. injection Hc as ->. left; reflexivity. }
  apply in_rev in Hin.
  rewrite Forall_forall in Ht; auto.
Qed.

Lemma quantum_alphabet (q : bytes) :
  Forall (fun c => exists v, b32rev c = Some v) q ->
  forall acc, exists a, quantum q acc = Some a.
Proof.
  induction 1 as [|c q [v Hv] Hq IH]; intro acc; simpl.
  - eauto.
  - rewrite Hv; apply IH.
Qed.

Lemma decode_quanta_alphabet (fuel n : nat) :
  forall (t decoded : bytes) (acc : Z),
    Forall (fun c => exists v, b32rev c = Some v) t ->
    exists r, decode_quanta (Hashlib.chunks fuel n t) decoded acc = Ok r.
Proof.
  induction fuel as [|fuel IH]; intros t decoded acc Ht.
  - destruct t; simpl; eauto.
  - destruct t as [|c t]; [simpl; eauto|].
    cbn [Hashlib.chunks decode_quanta].
    rewrite <- (firstn_skipn n (c :: t)) in Ht.
    apply Forall_app in Ht; destruct Ht as [Hq Hrest].
    destruct (quantum_alphabet _ Hq 0) as [a ->].
    apply IH; exact Hrest.
Qed.

(** A secret over the alphabet whose length has a padding decodes. *)
Lemma b32decode_padded (s : str) :
  forallb in_alphabet s = true ->
  In (Z.of_nat (length s) mod 8) [0; 2; 4; 5; 7] ->
  exists key, b32decode (Utils.pad_secret s) = Ok key.
Proof.
  intros Hs Hr.
  rewrite forallb_forall in Hs.
  assert (Hascii : forallb (fun c => c <? 128) s = true).
  { apply forallb_forall; intros c Hc; apply Z.ltb_lt.
    apply in_alphabet_range; auto. }
  assert (Hne : Forall (fun c => c <> 61) (map upper_byte s)).
  { apply Forall_forall; intros c Hc; apply in_map_iff in Hc.
    destruct Hc as (c0 & <- & Hc0); apply in_alphabet_range; auto. }
  assert (Hal : Forall (fun c => exists v, b32rev c = Some v) (map upper_byte s)).
  { apply Forall_forall; intros c Hc; apply in_map_iff in Hc.
    destruct Hc as (c0 & <- & Hc0); apply in_alphabet_range; auto. }
  assert (Hpad : exists k : nat,
             Utils.pad_secret s = s ++ repeat 61%Z k /\
             In (Z.of_nat k) [0; 1; 3; 4; 6] /\
             (Nat.modulo (length (s ++ repeat 61%Z k)) 8 =? 0)%nat = true).
  { unfold Utils.pad_secret.
    pose proof (Nat2Z.inj_mod (length s) 8) as Hz.
    change (Z.of_nat 8) with 8 in Hz.
    assert (Hlen : forall k : nat,
               (Z.of_nat (length s) mod 8 + Z.of_nat k) mod 8 = 0 ->
               (Nat.modulo (length (s ++ repeat 61%Z k)) 8 =? 0)%nat = true).
    { intros k Hk; apply Nat.eqb_eq.
      rewrite length_app, repeat_length.
      apply Nat2Z.inj. rewrite Nat2Z.inj_mod, Nat2Z.inj_add.
      change (Z.of_nat 8) with 8; change (Z.of_nat 0) with 0.
      rewrite Z.add_mod_idemp_l in Hk by lia. exact Hk. }
    remember (Z.of_nat (length s) mod 8) as r eqn:Er.
    cbn [In] in Hr.
    destruct Hr as [<-|[<-|[<-|[<-|[<-|[]]]]]].
    - exists 0%nat; rewrite app_nil_r; repeat split;
        [cbn [In]; tauto | rewrite <- (app_nil_r s) at 1; apply (Hlen 0%nat); reflexivity].
    - exists 6%nat; repeat split; [cbn [In]; tauto | apply Hlen; reflexivity].
    - exists 4%nat; repeat split; [cbn [In]; tauto | apply Hlen; reflexivity].
    - exists 3%nat; repeat split; [cbn [In]; tauto | apply Hlen; reflexivity].
    - exists 1%nat; repeat split; [cbn [In]; tauto | apply Hlen; reflexivity]. }
  destruct Hpad as (k & -> & Hk & Hlen).
  unfold b32decode.
  assert (Hascii' : forallb (fun c => c <? 128) (s ++ repeat 61 k) = true).
  { rewrite forallb_app, Hascii; simpl.
    apply forallb_forall; intros c Hc; apply repeat_spec in Hc; subst.
    reflexivity. }
  rewrite Hascii', Hlen; cbn [negb].
  rewrite map_app, map_repeat.
  change (upper_byte 61) with 61.
  rewrite rstrip_pad_padding by exact Hne.
  rewrite length_app, repeat_length, length_map.
  replace (length s + k - length s)%nat with k by lia.
  destruct (decode_quanta_alphabet (length (map upper_byte s)) 8
              (map upper_byte s) [] 0 Hal) as [[decoded acc] Hd].
  rewrite length_map in Hd; rewrite Hd; cbn [bind].
  assert (Hk' : existsb (Z.eqb (Z.of_nat k)) [0; 1; 3; 4; 6] = true).
  { apply existsb_exists; exists (Z.of_nat k); split;
      [exact Hk | apply Z.eqb_refl]. }
  rewrite Hk'; cbn [negb].
  destruct (negb (Z.of_nat k =? 0) && negb (length decoded =? 0)%nat); eauto.
Qed.

End Base32Facts.

(** ** True division *)

Module FloatFacts.
Import Py Float.

Lemma pow2_pos (n : Z) : 0 <= n -> 0 < 2 ^ n.
Proof. intro; apply Z.pow_pos_nonneg; lia. Qed.

Lemma pow2_split (a b : Z) : 0 <= a -> 0 <= b -> 2 ^ (a + b) = 2 ^ a * 2 ^ b.
Proof. intros; apply Z.pow_add_r; assumption. Qed.

(** [log2_quot x y] is the binary exponent of [x / y]. *)
Lemma log2_quot_lower (x y : Z) :
  0 < x -> 0 < y ->
  let l := log2_quot x y in
  if 0 <=? l then y * 2 ^ l <= x else y <= x * 2 ^ (- l).
Proof.
  intros Hx Hy; unfold log2_quot.
  pose proof (Z.log2_spec x Hx) as [Hx1 Hx2].
  pose proof (Z.log2_spec y Hy) as [Hy1 Hy2].
  pose proof (Z.log2_nonneg x) as Hlx.
  pose proof (Z.log2_nonneg y) as Hly.
  remember (Z.log2 x) as lx eqn:Elx; remember (Z.log2 y) as ly eqn:Ely.
  clear Elx Ely.
  rewrite <- Z.add_1_r in Hx2, Hy2.
  destruct (0 <=? lx - ly) eqn:Hk.
  - pose proof Hk as Hkb; apply Z.leb_le in Hk.
    destruct (y * 2 ^ (lx - ly) <=? x) eqn:Ht; cbv zeta.
    + rewrite Hkb. apply Z.leb_le in Ht. exact Ht.
    + (* l = k - 1 *)
      destruct (0 <=? lx - ly - 1) eqn:Hk1.
      * apply Z.leb_le in Hk1.
        assert (E : 2 ^ lx = 2 ^ (ly + 1) * 2 ^ (lx - ly - 1)).
        { rewrite <- pow2_split by lia. f_equal; lia. }
        pose proof (pow2_pos (lx - ly - 1) Hk1). nia.
      * apply Z.leb_gt in Hk1.
        assert (lx = ly) by lia.
        replace (- (lx - ly - 1)) with 1 by lia.
        change (2 ^ 1) with 2.
        rewrite pow2_split in Hy2 by lia. change (2 ^ 1) with 2 in Hy2.
        subst lx. nia.
  - apply Z.leb_gt in Hk.
    destruct (y <=? x * 2 ^ (- (lx - ly))) eqn:Ht; cbv zeta.
    + replace (0 <=? lx - ly) with false by (symmetry; apply Z.leb_gt; lia).
      apply Z.leb_le in Ht; exact Ht.
    + replace (0 <=? lx - ly - 1) with false by (symmetry; apply Z.leb_gt; lia).
      assert (E : 2 ^ (ly + 1) = 2 ^ lx * 2 ^ (- (lx - ly - 1))).
      { rewrite <- pow2_split by lia. f_equal; lia. }
      pose proof (pow2_pos (- (lx - ly - 1)) ltac:(lia)). nia.
Qed.

Lemma log2_quot_upper (x y : Z) :
  0 < x -> 0 < y ->
  let l := log2_quot x y + 1 in
  if 0 <=? l then x < y * 2 ^ l else x * 2 ^ (- l) < y.
Proof.
  intros Hx Hy; unfold log2_quot.
  pose proof (Z.log2_spec x Hx) as [Hx1 Hx2].
  pose proof (Z.log2_spec y Hy) as [Hy1 Hy2].
  pose proof (Z.log2_nonneg x) as Hlx.
  pose proof (Z.log2_nonneg y) as Hly.
  remember (Z.log2 x) as lx eqn:Elx; remember (Z.log2 y) as ly eqn:Ely.
  clear Elx Ely.
  rewrite <- Z.add_1_r in Hx2, Hy2.
  destruct (0 <=? lx - ly) eqn:Hk.
  - pose proof Hk as Hkb; apply Z.leb_le in Hk.
    destruct (y * 2 ^ (lx - ly) <=? x) eqn:Ht; cbv zeta.
    + replace (0 <=? lx - ly + 1) with true by (symmetry; apply Z.leb_le; lia).
      assert (E : 2 ^ (lx + 1) = 2 ^ ly * 2 ^ (lx - ly + 1)).
      { rewrite <- pow2_split by lia. f_equal; lia. }
      pose proof (pow2_pos (lx - ly + 1) ltac:(lia)). nia.
    + replace (lx - ly - 1 + 1) with (lx - ly) by lia.
      rewrite Hkb. apply Z.leb_gt in Ht; exact Ht.
  - apply Z.leb_gt in Hk.
    destruct (y <=? x * 2 ^ (- (lx - ly))) eqn:Ht; cbv zeta.
    + destruct (0 <=? lx - ly + 1) eqn:Hk1.
      * apply Z.leb_le in Hk1. assert (lx - ly + 1 = 0) by lia.
        replace (lx - ly + 1) with 0 by lia. change (2 ^ 0) with 1.
        replace (ly) with (lx + 1) in Hy1 by lia. lia.
      * apply Z.leb_gt in Hk1.
        assert (E : 2 ^ ly = 2 ^ (lx + 1) * 2 ^ (- (lx - ly + 1))).
        { rewrite <- pow2_split by lia. f_equal; lia. }
        pose proof (pow2_pos (- (lx - ly + 1)) ltac:(lia)). nia.
    + replace (lx - ly - 1 + 1) with (lx - ly) by lia.
      replace (0 <=? lx - ly) with false by (symmetry; apply Z.leb_gt; lia).
      apply Z.leb_gt in Ht; exact Ht.
Qed.

Lemma round_half_even_cases (n d : Z) :
  round_half_even n d = n / d \/
  (round_half_even n d = n / d + 1 /\ d <= 2 * (n mod d)).
Proof.
  unfold round_half_even.
  destruct (2 * (n mod d) <? d) eqn:H1; [left; reflexivity|].
  apply Z.ltb_ge in H1.
  destruct (d <? 2 * (n mod d)); [right; auto|].
  destruct (Z.even (n / d)); [left; reflexivity | right; auto].
Qed.

(** Rounding a quotient scaled by [2 ^ s] and dropping the [s] low bits
    again gives the floor of the quotient, as long as the divisor is
    small against the scale. *)
Lemma scaled_round_floor (a b s : Z) :
  0 <= a -> 0 < b -> 0 < s ->
  b < (b - a mod b) * 2 ^ (s + 1) ->
  round_half_even (a * 2 ^ s) b / 2 ^ s = a / b.
Proof.
  intros Ha Hb Hs Hsmall.
  rewrite pow2_split in Hsmall by lia; change (2 ^ 1) with 2 in Hsmall.
  pose proof (pow2_pos s ltac:(lia)) as HP.
  remember (2 ^ s) as P eqn:EP; clear EP.
  pose proof (Z.div_mod a b ltac:(lia)) as Ea.
  pose proof (Z.mod_pos_bound a b Hb) as Hr.
  pose proof (Z.div_mod (a * P) b ltac:(lia)) as EN.
  pose proof (Z.mod_pos_bound (a * P) b Hb) as HR.
  remember (a / b) as q; remember (a mod b) as r.
  remember ((a * P) / b) as Q; remember ((a * P) mod b) as R.
  assert (Hlow : q * P <= Q) by nia.
  assert (Hhigh : Q < (q + 1) * P) by nia.
  symmetry.
  destruct (round_half_even_cases (a * P) b) as [-> | [-> Htie]];
    rewrite <- ?HeqQ, <- ?HeqR in *.
  - apply (Z.div_unique Q P q (Q - q * P)); lia.
  - assert (Hnext : Q + 1 < (q + 1) * P).
    { assert (Q + 1 <> (q + 1) * P); [|lia].
      intro E. assert (b = (b - r) * P + R) by nia. nia. }
    apply (Z.div_unique (Q + 1) P q (Q + 1 - q * P)); lia.
Qed.

(** Below [2^53] the code's time step is the exact floor. *)
Lemma time_step_exact (tm_base period : Z) :
  0 <= tm_base < 2 ^ 53 -> 0 < period ->
  Utils.time_step tm_base period = Ok (tm_base / period).
Proof.
  intros [Ha Ha53] Hb; unfold Utils.time_step, truediv.
  replace (period =? 0) with false by (symmetry; apply Z.eqb_neq; lia).
  destruct (tm_base =? 0) eqn:E0.
  { apply Z.eqb_eq in E0; subst; reflexivity. }
  apply Z.eqb_neq in E0.
  assert (Hpos : 0 < tm_base) by lia.
  rewrite !Z.abs_eq by lia.
  pose proof (log2_quot_lower tm_base period Hpos Hb) as Hlo.
  pose proof (log2_quot_upper tm_base period Hpos Hb) as Hup.
  cbv zeta in Hlo, Hup.
  remember (log2_quot tm_base period) as L eqn:EL; clear EL.
  rewrite (Z.sgn_pos tm_base), (Z.sgn_pos period) by lia.
  assert (HL : L <= 52).
  { destruct (Z.le_gt_cases L 52) as [H|H]; [exact H|exfalso].
    replace (0 <=? L) with true in Hlo by (symmetry; apply Z.leb_le; lia).
    cbv iota in Hlo.
    pose proof (Z.pow_le_mono_r 2 53 L ltac:(lia) ltac:(lia)).
    nia. }
  destruct (Z.eq_dec L 52) as [-> | Hne].
  - (* the quotient has 53 bits: the divisor is 1 *)
    change (Z.max (52 - 52) (-1074)) with 0.
    change (0 <=? 0) with true; cbv iota; cbn [andb].
    change (0 <=? 52) with true in Hlo; cbv iota in Hlo.
    assert (period = 1).
    { change (2 ^ 53) with (2 * 2 ^ 52) in Ha53.
      pose proof (pow2_pos 52 ltac:(lia)). nia. }
    subst period. change (2 ^ 0) with 1.
    unfold round_half_even.
    rewrite !Z.mul_1_l, Z.div_1_r, Z.mod_1_r.
    change (2 * 0 <? 1) with true; cbv iota.
    rewrite Z.mul_1_r.
    replace (2 ^ 1024 <=? tm_base) with false.
    2:{ symmetry; apply Z.leb_gt.
        pose proof (Z.pow_lt_mono_r 2 53 1024 ltac:(lia) ltac:(lia) ltac:(lia)).
        lia. }
    cbn [bind]; unfold to_int; cbn [expo mant].
    change (0 <=? 0) with true; cbv iota.
    rewrite Z.mul_1_r; reflexivity.
  - set (e := Z.max (L - 52) (-1074)).
    assert (He : e < 0) by (unfold e; lia).
    replace (0 <=? e) with false by (symmetry; apply Z.leb_gt; lia).
    cbn [andb bind]. unfold to_int; cbn [expo mant].
    replace (0 <=? e) with false by (symmetry; apply Z.leb_gt; lia).
    rewrite !Z.mul_1_l.
    f_equal.
    pose proof (pow2_pos (- e) ltac:(lia)) as HP.
    assert (Hm : 0 <= round_half_even (tm_base * 2 ^ (- e)) period).
    { destruct (round_half_even_cases (tm_base * 2 ^ (- e)) period)
        as [-> | [-> _]];
        pose proof (Z.div_pos (tm_base * 2 ^ (- e)) period ltac:(nia) Hb); lia. }
    rewrite Z.quot_div_nonneg by lia.
    apply scaled_round_floor; try lia.
    pose proof (Z.mod_pos_bound tm_base period Hb) as Hr.
    destruct (Z.le_gt_cases (-1074) (L - 52)) as [Hnorm | Hsub].
    + (* normal range: period < 2^(53 - L) *)
      replace (- e + 1) with (53 - L) by (unfold e; lia).
      assert (Hb' : period < 2 ^ (53 - L)).
      { destruct (0 <=? L) eqn:HL0.
        - apply Z.leb_le in HL0.
          assert (E : 2 ^ 53 = 2 ^ L * 2 ^ (53 - L)).
          { rewrite <- pow2_split by lia. f_equal; lia. }
          pose proof (pow2_pos L HL0). pose proof (pow2_pos (53 - L) ltac:(lia)).
          nia.
        - apply Z.leb_gt in HL0.
          assert (E : 2 ^ (53 - L) = 2 ^ 53 * 2 ^ (- L)).
          { rewrite <- pow2_split by lia. f_equal; lia. }
          pose proof (pow2_pos (- L) ltac:(lia)). nia. }
      pose proof (pow2_pos (53 - L) ltac:(lia)). nia.
    + (* subnormal range: the quotient is below 2^-1022 *)
      replace (- e + 1) with 1075 by (unfold e; lia).
      replace (0 <=? L + 1) with false in Hup by (symmetry; apply Z.leb_gt; lia).
      assert (H2 : 2 * tm_base < period).
      { pose proof (Z.pow_le_mono_r 2 1 (- (L + 1)) ltac:(lia) ltac:(lia)) as Hp.
        change (2 ^ 1) with 2 in Hp. nia. }
      rewrite (Z.mod_small tm_base period) by lia.
      assert (2 <= 2 ^ 1075).
      { pose proof (Z.pow_le_mono_r 2 1 1075 ltac:(lia) ltac:(lia)) as Hp.
        change (2 ^ 1) with 2 in Hp. exact Hp. }
      nia.
Qed.

End FloatFacts.

(** ** The query loop *)

Module LoopFacts.
Import Py Runtime Utils.

Lemma str_eqb_refl (a : str) : str_eqb a a = true.
Proof. induction a as [|x a IH]; simpl; [|rewrite Z.eqb_refl]; auto. Qed.

Lemma str_eqb_eq (a b : str) : str_eqb a b = true <-> a = b.
Proof.
  split; [|intros ->; apply str_eqb_refl].
  revert b; induction a as [|x a IH]; intros [|y b]; simpl; try discriminate.
  - reflexivity.
  - intro H; apply andb_true_iff in H; destruct H as [Hx Hab].
    apply Z.eqb_eq in Hx; subst; f_equal; auto.
Qed.

Lemma startswith_app (b c : str) : startswith (b ++ c) b = true.
Proof. induction b as [|x b IH]; simpl; [|rewrite Z.eqb_refl]; auto. Qed.

Lemma contains_app (a b c : str) : contains (a ++ b ++ c) b = true.
Proof.
  induction a as [|x a IH].
  - simpl app. destruct (b ++ c) eqn:E; simpl;
      rewrite <- E, startswith_app; reflexivity.
  - simpl; rewrite IH; apply orb_true_r.
Qed.

(** Case analysis on the key of a query field. *)
Ltac key_cases k :=
  destruct (str_eqb k (lit "secret")) eqn:?Ksecret;
  [|destruct (str_eqb k (lit "algorithm")) eqn:?Kalgorithm;
    [|destruct (str_eqb k (lit "digits")) eqn:?Kdigits;
      [|destruct (str_eqb k (lit "period")) eqn:?Kperiod;
        [|destruct (str_eqb k (lit "counter")) eqn:?Kcounter]]]].

Section WithRuntime.
Variable rt : runtime.

Lemma locals_eta (st : locals) :
  {| secret := secret st; algorithm := algorithm st; digits := digits st;
     period_ := period_ st; counter := counter st |} = st.
Proof. destruct st; reflexivity. Qed.

Lemma coerce_skipped (v : str) (cur : Z) :
  skipped rt v -> coerce rt v cur = Ok cur.
Proof.
  unfold coerce; intros [Hn | [n [Hi Hle]]].
  - rewrite Hn; reflexivity.
  - destruct (isnumeric rt v); [|reflexivity].
    rewrite Hi; simpl.
    replace (0 <? n) with false by (symmetry; apply Z.ltb_ge; lia).
    reflexivity.
Qed.

Lemma coerce_accepted (v : str) (n cur : Z) :
  accepted rt v n -> coerce rt v cur = Ok n.
Proof.
  unfold coerce; intros (Hn & Hi & Hpos).
  rewrite Hn, Hi; simpl.
  replace (0 <? n) with true by (symmetry; apply Z.ltb_lt; lia).
  reflexivity.
Qed.

(** What [coerce] can return: the old value, or a positive one. *)
Lemma coerce_result (v : str) (cur n : Z) :
  coerce rt v cur = Ok n -> n = cur \/ accepted rt v n.
Proof.
  unfold coerce, accepted.
  destruct (isnumeric rt v); [|intros [= <-]; auto].
  destruct (int rt v) as [m|e] eqn:Hi; simpl; [|discriminate].
  destruct (0 <? m) eqn:Hpos.
  - intros [= <-]. apply Z.ltb_lt in Hpos. auto.
  - intros [= <-]; auto.
Qed.

Lemma query_step_skipped (st : locals) (k v : str) (x : Z) :
  numeric_field k st = Some x -> skipped rt v ->
  query_step rt st (k, v) = Ok st.
Proof.
  unfold numeric_field, query_step; intros Hk Hv.
  destruct (str_eqb k (lit "digits")) eqn:Kd.
  { apply str_eqb_eq in Kd; subst k; simpl str_eqb.
    rewrite coerce_skipped by assumption; simpl.
    rewrite locals_eta; reflexivity. }
  destruct (str_eqb k (lit "period")) eqn:Kp.
  { apply str_eqb_eq in Kp; subst k; simpl str_eqb.
    rewrite coerce_skipped by assumption; simpl.
    rewrite locals_eta; reflexivity. }
  destruct (str_eqb k (lit "counter")) eqn:Kc; [|discriminate].
  apply str_eqb_eq in Kc; subst k; simpl str_eqb.
  rewrite coerce_skipped by assumption; simpl.
  rewrite locals_eta; reflexivity.
Qed.

Lemma query_loop_app (xs ys : list (str * str)) (st : locals) :
  query_loop rt (xs ++ ys) st
  = bind (query_loop rt xs st) (query_loop rt ys).
Proof.
  revert st; induction xs as [|kv xs IH]; intro st; simpl; [reflexivity|].
  destruct (query_step rt st kv); simpl; auto.
Qed.

(** The period stays positive, whatever the query holds. *)
Lemma query_step_period (st st' : locals) (kv : str * str) :
  query_step rt st kv = Ok st' -> 0 < period_ st -> 0 < period_ st'.
Proof.
  destruct kv as [k v]; unfold query_step.
  key_cases k; try (intros [= <-]; simpl; auto).
  - destruct (coerce rt v (digits st)); simpl; [|discriminate].
    intros [= <-]; simpl; auto.
  - destruct (coerce rt v (period_ st)) as [p|] eqn:Hc; simpl; [|discriminate].
    intros [= <-]; simpl; intro Hpos.
    apply coerce_result in Hc; destruct Hc as [-> | (_ & _ & Hp)]; assumption.
  - destruct (coerce rt v (counter st)); simpl; [|discriminate].
    intros [= <-]; simpl; auto.
Qed.

Lemma query_loop_period (qs : list (str * str)) :
  forall st st', query_loop rt qs st = Ok st' ->
                 0 < period_ st -> 0 < period_ st'.
Proof.
  induction qs as [|kv qs IH]; simpl; intros st st'.
  - intros [= <-]; auto.
  - destruct (query_step rt st kv) as [st1|] eqn:Hs; simpl; [|discriminate].
    intros Hl Hpos; eapply IH; eauto using query_step_period.
Qed.

Lemma numeric_key_cases (k : str) :
  numeric_key k = true ->
  k = lit "digits" \/ k = lit "period" \/ k = lit "counter".
Proof.
  unfold numeric_key; simpl existsb; rewrite !orb_true_iff, !str_eqb_eq.
  intuition discriminate.
Qed.

Lemma numeric_key_field (k : str) (st : locals) :
  numeric_key k = true -> exists x, numeric_field k st = Some x.
Proof.
  intro Hk; apply numeric_key_cases in Hk.
  destruct Hk as [-> | [-> | ->]]; eexists; reflexivity.
Qed.

(** A field with another key leaves the local of [k] alone. *)
Lemma query_step_other_key (st st' : locals) (k k' v' : str) :
  query_step rt st (k', v') = Ok st' ->
  numeric_key k = true -> k' <> k ->
  numeric_field k st' = numeric_field k st.
Proof.
  intros Hs Hk Hne; apply numeric_key_cases in Hk.
  revert Hs; unfold query_step.
  key_cases k';
    repeat match goal with
           | H : str_eqb _ _ = true |- _ => apply str_eqb_eq in H; subst
           end;
    try (intros [= <-]; destruct Hk as [-> | [-> | ->]]; reflexivity).
  - destruct (coerce rt v' (digits st)); simpl; [|discriminate].
    intros [= <-]; destruct Hk as [-> | [-> | ->]];
      solve [reflexivity | congruence].
  - destruct (coerce rt v' (period_ st)); simpl; [|discriminate].
    intros [= <-]; destruct Hk as [-> | [-> | ->]];
      solve [reflexivity | congruence].
  - destruct (coerce rt v' (counter st)); simpl; [|discriminate].
    intros [= <-]; destruct Hk as [-> | [-> | ->]];
      solve [reflexivity | congruence].
Qed.

Lemma str_eq_dec (a b : str) : a = b \/ a <> b.
Proof.
  destruct (str_eqb a b) eqn:E.
  - left; apply str_eqb_eq; exact E.
  - right; intro H; apply str_eqb_eq in H; congruence.
Qed.

(** While every value given for [k] is passed over, its local keeps
    the value it had. *)
Lemma query_loop_all_skipped (k : str) (qs : list (str * str)) :
  numeric_key k = true ->
  (forall v', In (k, v') qs -> skipped rt v') ->
  forall st st', query_loop rt qs st = Ok st' ->
                 numeric_field k st' = numeric_field k st.
Proof.
  intro Hk; induction qs as [|[k' v'] qs IH]; intros Hall st st';
    cbn [query_loop].
  - intros [= <-]; reflexivity.
  - destruct (query_step rt st (k', v')) as [st1|] eqn:Hs; cbn [bind];
      [|discriminate].
    intro Hl.
    rewrite (IH (fun v Hin => Hall v (or_intror Hin)) _ _ Hl).
    destruct (str_eq_dec k' k) as [-> | Hne].
    + destruct (numeric_key_field k st Hk) as [x Hx].
      rewrite (query_step_skipped st k v' x Hx) in Hs
        by (apply Hall; left; reflexivity).
      congruence.
    + eapply query_step_other_key; eauto.
Qed.

Lemma query_step_accepted (st : locals) (k v : str) (n : Z) :
  numeric_key k = true -> accepted rt v n ->
  exists st', query_step rt st (k, v) = Ok st' /\
              numeric_field k st' = Some n.
Proof.
  intros Hk Hv; apply numeric_key_cases in Hk.
  destruct Hk as [-> | [-> | ->]]; unfold query_step; simpl str_eqb; cbv iota.
  all: erewrite coerce_accepted by eassumption; simpl;
    eexists; split; reflexivity.
Qed.

(** When the loop runs to its end, the last value of [k] that [coerce]
    takes is the one the local holds. *)
Lemma last_accepted_wins (k v : str) (n : Z) (xs ys : list (str * str))
      (st0 st : locals) :
  numeric_key k = true -> accepted rt v n ->
  (forall v', In (k, v') ys -> skipped rt v') ->
  query_loop rt (xs ++ (k, v) :: ys) st0 = Ok st ->
  numeric_field k st = Some n.
Proof.
  intros Hk Hv Hys; rewrite query_loop_app.
  destruct (query_loop rt xs st0) as [st1|]; cbn [bind query_loop];
    [|discriminate].
  destruct (query_step_accepted st1 k v n Hk Hv) as (st2 & -> & Hf);
    cbn [bind].
  intro Hl; rewrite <- Hf.
  eapply query_loop_all_skipped; eauto.
Qed.

(** A field with another key leaves [secret] and [algorithm] alone. *)
Lemma query_step_keeps_secret (st st' : locals) (k' v' : str) :
  query_step rt st (k', v') = Ok st' -> k' <> lit "secret" ->
  secret st' = secret st.
Proof.
  unfold query_step; key_cases k'; intros Hs Hne;
    try (apply str_eqb_eq in Ksecret; congruence);
    revert Hs;
    try (intros [= <-]; reflexivity);
    match goal with
    | |- context [coerce rt v' ?c] => destruct (coerce rt v' c)
    end; simpl; try discriminate; intros [= <-]; reflexivity.
Qed.

Lemma query_step_keeps_algorithm (st st' : locals) (k' v' : str) :
  query_step rt st (k', v') = Ok st' -> k' <> lit "algorithm" ->
  algorithm st' = algorithm st.
Proof.
  unfold query_step; key_cases k'; intros Hs Hne;
    try (apply str_eqb_eq in Kalgorithm; congruence);
    revert Hs;
    try (intros [= <-]; reflexivity);
    match goal with
    | |- context [coerce rt v' ?c] => destruct (coerce rt v' c)
    end; simpl; try discriminate; intros [= <-]; reflexivity.
Qed.

(** When the loop runs to its end, [secret] and [algorithm] hold the
    value of their last field. *)
Lemma last_secret_wins (v : str) (xs ys : list (str * str)) (st0 st : locals) :
  (forall v', ~ In (lit "secret", v') ys) ->
  query_loop rt (xs ++ (lit "secret", v) :: ys) st0 = Ok st ->
  secret st = Some v.
Proof.
  intro Hys; rewrite query_loop_app.
  destruct (query_loop rt xs st0) as [st1|]; simpl; [|discriminate].
  clear xs st0.
  remember {| secret := Some v; algorithm := algorithm st1;
              digits := digits st1; period_ := period_ st1;
              counter := counter st1 |} as st2 eqn:E.
  assert (Hsec : secret st2 = Some v) by (subst; reflexivity).
  clear E st1; revert st2 Hsec.
  induction ys as [|[k' v'] ys IH]; intros st2 Hsec; cbn [query_loop].
  - intros [= <-]; exact Hsec.
  - destruct (query_step rt st2 (k', v')) as [st3|] eqn:Hs; cbn [bind];
      [|discriminate].
    apply IH.
    + intros w Hin; apply (Hys w); right; exact Hin.
    + rewrite <- Hsec; eapply query_step_keeps_secret; eauto.
      intros ->; apply (Hys v'); left; reflexivity.
Qed.

Lemma last_algorithm_wins (v : str) (xs ys : list (str * str)) (st0 st : locals) :
  (forall v', ~ In (lit "algorithm", v') ys) ->
  query_loop rt (xs ++ (lit "algorithm", v) :: ys) st0 = Ok st ->
  algorithm st = v.
Proof.
  intro Hys; rewrite query_loop_app.
  destruct (query_loop rt xs st0) as [st1|]; simpl; [|discriminate].
  clear xs st0.
  remember {| secret := secret st1; algorithm := v;
              digits := digits st1; period_ := period_ st1;
              counter := counter st1 |} as st2 eqn:E.
  assert (Halg : algorithm st2 = v) by (subst; reflexivity).
  clear E st1; revert st2 Halg.
  induction ys as [|[k' v'] ys IH]; intros st2 Halg; cbn [query_loop].
  - intros [= <-]; exact Halg.
  - destruct (query_step rt st2 (k', v')) as [st3|] eqn:Hs; cbn [bind];
      [|discriminate].
    apply IH.
    + intros w Hin; apply (Hys w); right; exact Hin.
    + rewrite <- Halg; eapply query_step_keeps_algorithm; eauto.
      intros ->; apply (Hys v'); left; reflexivity.
Qed.
End WithRuntime.

End LoopFacts.

(** ** The program tree of [get_totp_code] *)

Module ProgFacts.
Import Py Runtime Utils LoopFacts.

(** A program without [Now] runs the same under every clock and leaves
    the count of readings as it was. *)
Lemma run_clock_free {R} (p : prog R) :
  clock_free p ->
  forall clock clock' reads log,
    run clock reads log p = run clock' reads log p /\
    clock_reads (run clock reads log p) = reads.
Proof.
  induction p as [r|e|k IH|h key msg k IH]; simpl; intros Hfree **.
  - auto.
  - auto.
  - contradiction.
  - apply IH, Hfree.
Qed.

(** A program without [HmacDigest] leaves the log as it was. *)
Lemma run_hmac_free {R} (p : prog R) :
  hmac_free p ->
  forall clock reads log, hmac_log (run clock reads log p) = log.
Proof.
  induction p as [r|e|k IH|h key msg k IH]; simpl; intros Hfree **.
  - reflexivity.
  - reflexivity.
  - apply IH, Hfree.
  - contradiction.
Qed.

Lemma generate_clock_free hash secret digits period tm_base :
  clock_free (generate hash secret digits period tm_base).
Proof.
  unfold generate, try.
  destruct (Float.truediv tm_base period); simpl; [|exact I].
  destruct (Base64.b32decode (pad_secret secret)); simpl; [|exact I].
  destruct (to_bytes 8 _); simpl; [|exact I].
  intro d.
  destruct (offset_of d); simpl; [|exact I].
  destruct (code_int_of _); simpl; exact I.
Qed.

(** What a run of [generate] can return. *)
Lemma generate_returns hash secret digits period tm_base
      clock reads log r :
  value (run clock reads log
             (generate hash secret digits period tm_base))
  = Ok (Some r) ->
  exists code_int,
    r = {| code := format_code code_int digits;
           time_left := period - tm_base mod period;
           period := period |}.
Proof.
  unfold generate, try.
  destruct (Float.truediv tm_base period); simpl; [|discriminate].
  destruct (Base64.b32decode (pad_secret secret)); simpl; [|discriminate].
  destruct (to_bytes 8 _); simpl; [|discriminate].
  destruct (offset_of _); simpl; [|discriminate].
  destruct (code_int_of _) as [code_int|]; simpl; [|discriminate].
  intros [= <-]; exists code_int; reflexivity.
Qed.

Section WithRuntime.
Variable rt : runtime.

Lemma digits_check (d : Z) :
  existsb (Z.eqb d) [6; 7; 8] = true <-> In d [6; 7; 8].
Proof.
  rewrite existsb_exists; split.
  - intros [x [Hin Heq]]; apply Z.eqb_eq in Heq; subst; exact Hin.
  - intro Hin; exists d; split; [exact Hin | apply Z.eqb_refl].
Qed.

Lemma validate_validated (st : locals) : validated rt st (validate rt st).
Proof.
  unfold validate.
  destruct (secret st) as [[|c s]|] eqn:Hs; try (apply NoSecret; auto).
  destruct (select_hash (upper rt (algorithm st))) as [hash|] eqn:Hh.
  - destruct (existsb (Z.eqb (digits st)) [6; 7; 8]) eqn:Hd; simpl negb; cbv iota.
    + apply digits_check in Hd.
      destruct (0 <? counter st) eqn:Hc.
      * apply Z.ltb_lt in Hc. eapply FromCounter; eauto; discriminate.
      * apply Z.ltb_ge in Hc. eapply FromClock; eauto; discriminate.
    + eapply BadDigits; eauto; [discriminate|].
      intro Hin; apply digits_check in Hin; congruence.
  - eapply BadAlgorithm; eauto; discriminate.
Qed.

(** [get_totp_code] stops before the loop ends, or goes on to
    [validate] with the locals of the URL. *)
Lemma get_totp_code_cases (url : str) :
  (exists e, get_totp_code rt url = Raise e /\ locals_of rt url = Fail e)
  \/ exists st, parsed rt url st /\ get_totp_code rt url = validate rt st.
Proof.
  unfold get_totp_code, parsed, locals_of, try.
  destruct (urlparse rt url) as [comp|e] eqn:Hu; simpl bind.
  - destruct (str_eqb (scheme comp) (lit "otpauth")) eqn:Hsch; simpl negb; cbv iota.
    + destruct (query_loop rt (parse_qsl rt (query comp)) initial)
        as [st|e] eqn:Hl.
      * right; exists st; split; reflexivity.
      * left; exists e; split; reflexivity.
    + left; eexists; split; reflexivity.
  - left; exists e; split; reflexivity.
Qed.

Lemma get_totp_code_parsed (url : str) (st : locals) :
  parsed rt url st -> get_totp_code rt url = validate rt st.
Proof.
  intro Hp.
  destruct (get_totp_code_cases url) as [(e & _ & Hno) | (st' & Hp' & Heq)];
    unfold parsed in *; [congruence|].
  replace st with st' by congruence; exact Heq.
Qed.

Lemma parsed_period_pos (url : str) (st : locals) :
  parsed rt url st -> 0 < period_ st.
Proof.
  unfold parsed, locals_of.
  destruct (urlparse rt url) as [comp|]; simpl; [|discriminate].
  destruct (str_eqb (scheme comp) (lit "otpauth")); [|discriminate].
  intro Hl; eapply query_loop_period; [exact Hl | simpl; lia].
Qed.

(** What a run of [get_totp_code] can return. *)
Lemma get_totp_code_returns (url : str) (clock : nat -> Z) (o : option TotpCode) :
  value (exec clock (get_totp_code rt url)) = Ok o ->
  exists st code_int,
    parsed rt url st /\
    In (digits st) [6; 7; 8] /\
    o = Some {| code := format_code code_int (digits st);
                time_left := period_ st
                             - tm_base_of st (clock 0%nat) mod period_ st;
                period := period_ st |}.
Proof.
  unfold exec.
  destruct (get_totp_code_cases url) as [(e & -> & _) | (st & Hp & ->)];
    [discriminate|].
  intro Hv; exists st.
  destruct (validate_validated st) as [| | |s hash Hs Hne Hh Hd Hc|s hash Hs Hne Hh Hd Hc];
    try discriminate Hv.
  - pose proof Hv as Hv'.
    destruct o as [r|].
    + apply generate_returns in Hv; destruct Hv as [code_int ->].
      exists code_int; repeat split; auto.
      unfold tm_base_of.
      replace (0 <? counter st) with true by (symmetry; apply Z.ltb_lt; lia).
      reflexivity.
    + exfalso; revert Hv; unfold generate, try.
      repeat match goal with
             | |- context [match ?x with Ok _ => _ | Fail _ => _ end] =>
                 destruct x; simpl; try discriminate
             end.
  - simpl in Hv.
    destruct o as [r|].
    + apply generate_returns in Hv; destruct Hv as [code_int ->].
      exists code_int; repeat split; auto.
      unfold tm_base_of.
      replace (0 <? counter st) with false by (symmetry; apply Z.ltb_ge; lia).
      reflexivity.
    + exfalso; revert Hv; unfold generate, try.
      repeat match goal with
             | |- context [match ?x with Ok _ => _ | Fail _ => _ end] =>
                 destruct x; simpl; try discriminate
             end.
Qed.
End WithRuntime.

End ProgFacts.

(* ================================================================== *)
(** * The statements of the specification *)

Module Spec.
Import Py Runtime Utils LoopFacts ProgFacts.

(** C1.  For the RFC 6238 test vector (key ["12345678901234567890"] in
    base32, SHA1, eight digits, moving factor 59) [get_totp_code]
    returns the code ["94287082"]: with [counter=59] under every clock,
    and without a counter when the clock shows 59. *)
Theorem rfc6238_sha1_test_vector :
  (forall clock,
      value (exec clock (get_totp_code Cpython.rt Examples.rfc6238_uri))
      = Ok (Some {| code := lit "94287082"; time_left := 1; period := 30 |}))
  /\ value (exec (Examples.at_time 59)
                 (get_totp_code Cpython.rt Examples.rfc6238_uri_clock))
     = Ok (Some {| code := lit "94287082"; time_left := 1; period := 30 |}).
Proof.
  split; [intro clock|]; vm_compute; reflexivity.
Qed.

(** C2, at the input where the code departs from it.  With
    [counter = 2^53 + 1] and [period = 1] the floor of the quotient is
    the counter itself, but the true division rounds to binary64 and
    the message keyed into the HMAC is the time step [2^53]. *)
Theorem time_step_of_large_counter :
  9007199254740993 / 1 = 9007199254740993
  /\ time_step 9007199254740993 1 = Ok 9007199254740992
  /\ forall clock,
      hmac_log (exec clock (get_totp_code Cpython.rt Examples.large_counter_uri))
      = [(Hashlib.SHA1, lit "12345678901234567890",
          be_bytes 8 9007199254740992)].
Proof.
  split; [reflexivity|].
  split; [vm_compute; reflexivity|].
  intro clock; vm_compute; reflexivity.
Qed.

(** C3, as the code has it.  A [digits], [period] or [counter] value
    that [isnumeric] rejects (a sign, a letter, an empty text) or that
    [int] reads as zero raises nothing and leaves the locals as they
    were: the loop ends as it would without that field, and a
    parameter all of whose values are of this kind keeps its default.
    Values that are numeric without being decimal digits are not
    covered. *)
Theorem skipped_value_keeps_parameter (rt : runtime) (k v : str) :
  numeric_key k = true -> skipped rt v ->
  (forall st, query_step rt st (k, v) = Ok st) /\
  (forall xs ys st,
      query_loop rt (xs ++ (k, v) :: ys) st = query_loop rt (xs ++ ys) st) /\
  (forall qs st,
      (forall v', In (k, v') qs -> skipped rt v') ->
      query_loop rt qs initial = Ok st ->
      numeric_field k st = numeric_field k initial).
Proof.
  intros Hk Hv.
  assert (Hstep : forall st, query_step rt st (k, v) = Ok st).
  { intro st; destruct (numeric_key_field k st Hk) as [x Hx].
    eapply query_step_skipped; eauto. }
  split; [exact Hstep|]; split.
  - intros xs ys st; rewrite !query_loop_app.
    destruct (query_loop rt xs st) as [st1|]; cbn [bind query_loop];
      [|reflexivity].
    rewrite Hstep; reflexivity.
  - intros qs st Hall Hl.
    eapply query_loop_all_skipped; eauto.
Qed.

(** The theorem at [digits=-5], met with the initial locals. *)
Lemma skipped_value_keeps_parameter_witness :
  query_step Cpython.rt initial (lit "digits", lit "-5") = Ok initial.
Proof.
  refine (proj1 (skipped_value_keeps_parameter Cpython.rt
                   (lit "digits") (lit "-5") _ _) initial).
  - reflexivity.
  - left; vm_compute; reflexivity.
Defined.

(** C3 as stated fails.  After [digits=8], the malformed [digits=abc]
    does not bring the default 6 back: the code is computed on eight
    digits.  And a value of numeric characters that are not decimal
    digits, here SUPERSCRIPT TWO, does raise. *)
Lemma malformed_value_counterexample :
  (isnumeric Cpython.rt (lit "abc") = false
   /\ (exists st, parsed Cpython.rt Examples.repeated_digits_uri st /\
                  digits st = 8 /\ digits st <> digits initial)
   /\ forall clock,
       value (exec clock
                   (get_totp_code Cpython.rt Examples.repeated_digits_uri))
       = Ok (Some {| code := lit "94287082"; time_left := 1; period := 30 |}))
  /\ (Urllib.unquote (lit "%C2%B2") = [178]
      /\ isnumeric Cpython.rt [178] = true
      /\ forall clock,
          value (exec clock
                      (get_totp_code Cpython.rt Examples.superscript_period_uri))
          = Fail (ValueError (lit "invalid literal for int() with base 10: '"
                              ++ [178] ++ lit "'"))).
Proof.
  split.
  - split; [vm_compute; reflexivity|].
    split.
    + exists {| secret := Some Examples.rfc6238_secret; algorithm := lit "SHA1";
                digits := 8; period_ := 30; counter := 59 |}.
      split; [vm_compute; reflexivity|].
      split; [reflexivity | simpl; lia].
    + intro clock; vm_compute; reflexivity.
  - split; [vm_compute; reflexivity|].
    split; [vm_compute; reflexivity|].
    intro clock; vm_compute; reflexivity.
Qed.

(** C4.  Decoding goes as the padding rule predicts.  The padded
    secret has a length that is a multiple of 8 exactly when the length
    of the secret is not 1, 3 or 6 modulo 8.  At these three remainders
    [b32decode] fails (on the padding, or earlier on a character that
    is not ASCII); at the others a secret over the base32 alphabet
    decodes.  Whatever error the decoder raises is what [get_totp_code]
    raises, before any HMAC is keyed. *)
Theorem undecodable_secret_lengths (rt : runtime) :
  (forall s,
      Z.of_nat (length (pad_secret s)) mod 8 = 0
      <-> ~ In (Z.of_nat (length s) mod 8) [1; 3; 6]) /\
  (forall s,
      In (Z.of_nat (length s) mod 8) [1; 3; 6] ->
      Base64.b32decode (pad_secret s)
      = Fail (BinasciiError (lit "Incorrect padding")) \/
      Base64.b32decode (pad_secret s)
      = Fail (ValueError
                (lit "string argument should contain only ASCII characters"))) /\
  (forall s,
      forallb Base64.in_alphabet s = true ->
      In (Z.of_nat (length s) mod 8) [0; 2; 4; 5; 7] ->
      exists key, Base64.b32decode (pad_secret s) = Ok key) /\
  (forall url st s clock tm e,
      parsed rt url st -> secret st = Some s ->
      select_hash (upper rt (algorithm st)) <> None ->
      In (digits st) [6; 7; 8] ->
      Float.truediv (tm_base_of st (clock 0%nat)) (period_ st) = Ok tm ->
      Base64.b32decode (pad_secret s) = Fail e ->
      value (exec clock (get_totp_code rt url)) = Fail e /\
      hmac_log (exec clock (get_totp_code rt url)) = []).
Proof.
  assert (Hpad : forall s,
             let r := Z.of_nat (length s) mod 8 in
             (In r [1; 3; 6] -> pad_secret s = s) /\
             (Z.of_nat (length (pad_secret s)) mod 8 = 0 <-> ~ In r [1; 3; 6])).
  { intros s r.
    assert (Hr : 0 <= r < 8) by (apply Z.mod_pos_bound; lia).
    unfold pad_secret; fold r.
    assert (Hcases : r = 0 \/ r = 1 \/ r = 2 \/ r = 3 \/ r = 4 \/ r = 5
                     \/ r = 6 \/ r = 7) by lia.
    destruct Hcases as [E|[E|[E|[E|[E|[E|[E|E]]]]]]]; rewrite E;
      cbn [existsb Z.eqb Pos.eqb orb]; cbn [In];
      rewrite ?length_app, ?repeat_length;
      (split; [try reflexivity; intros [?|[?|[?|[]]]]; discriminate|]);
      unfold r in E; split; intro H; try lia;
      try (exfalso; apply H; tauto);
      try (intros [?|[?|[?|[]]]]; discriminate);
      rewrite Nat2Z.inj_add, Z2Nat.id, Z.add_mod, E by lia; reflexivity. }
  split; [intro s; apply Hpad|]; split.
  - intros s Hin.
    destruct (Hpad s) as [Hsame Hiff]; rewrite (Hsame Hin).
    assert (Hmod : (length s mod 8 =? 0)%nat = false).
    { apply Nat.eqb_neq; cbn [In] in Hin.
      pose proof (Nat2Z.inj_mod (length s) 8) as Hz.
      change (Z.of_nat 8) with 8 in Hz; lia. }
    unfold Base64.b32decode.
    destruct (forallb (fun c => c <? 128) s); cbn [negb];
      [|right; reflexivity].
    rewrite Hmod; left; reflexivity.
  - split; [exact Base32Facts.b32decode_padded|].
    intros url st s clock tm e Hp Hs Hh Hd Hdiv He.
    assert (Hne : s <> []) by (intros ->; discriminate He).
    rewrite (get_totp_code_parsed rt url st Hp).
    unfold exec, validate; rewrite Hs.
    destruct s as [|c s]; [congruence|].
    destruct (select_hash (upper rt (algorithm st))) as [hash|]; [|congruence].
    apply digits_check in Hd; rewrite Hd; simpl negb; cbv iota.
    revert Hdiv; unfold tm_base_of.
    destruct (0 <? counter st); intro Hdiv; cbn [run];
      unfold generate, try; rewrite Hdiv, He; split; reflexivity.
Qed.

(** The theorem at a secret of nine characters. *)
Lemma undecodable_secret_lengths_witness :
  value (exec (Examples.at_time 0)
              (get_totp_code Cpython.rt Examples.odd_secret_uri))
  = Fail (BinasciiError (lit "Incorrect padding")) /\
  hmac_log (exec (Examples.at_time 0)
                 (get_totp_code Cpython.rt Examples.odd_secret_uri)) = [].
Proof.
  refine (proj2 (proj2 (proj2 (undecodable_secret_lengths Cpython.rt)))
                Examples.odd_secret_uri
                {| secret := Some (lit "GEZDGNBVG"); algorithm := lit "SHA1";
                   digits := 6; period_ := 30; counter := 59 |}
                (lit "GEZDGNBVG") (Examples.at_time 0)
                {| Float.mant := 8857079267161975; Float.expo := -52 |}
                _ _ _ _ _ _ _).
  - vm_compute; reflexivity.
  - reflexivity.
  - vm_compute; discriminate.
  - simpl; auto.
  - vm_compute; reflexivity.
  - vm_compute; reflexivity.
Defined.

(** C5.  A result of [get_totp_code] has [1 <= time_left <= period];
    in particular when it is computed from the wall clock. *)
Theorem time_left_within_period (rt : runtime) (url : str)
        (clock : nat -> Z) (r : TotpCode) :
  value (exec clock (get_totp_code rt url)) = Ok (Some r) ->
  1 <= time_left r <= period r.
Proof.
  intro Hv.
  destruct (get_totp_code_returns rt url clock _ Hv)
    as (st & code_int & Hp & _ & Hr).
  injection Hr as ->; simpl.
  pose proof (parsed_period_pos rt url st Hp) as Hpos.
  pose proof (Z.mod_pos_bound (tm_base_of st (clock 0%nat)) (period_ st) Hpos).
  lia.
Qed.

(** The theorem at the RFC 6238 time 1111111109. *)
Lemma time_left_within_period_witness :
  value (exec (Examples.at_time 1111111109)
              (get_totp_code Cpython.rt Examples.rfc6238_uri_clock))
  = Ok (Some {| code := lit "07081804"; time_left := 1; period := 30 |})
  /\ 1 <= 1 <= 30.
Proof.
  split; [vm_compute; reflexivity|].
  apply (time_left_within_period Cpython.rt Examples.rfc6238_uri_clock
           (Examples.at_time 1111111109)
           {| code := lit "07081804"; time_left := 1; period := 30 |}).
  vm_compute; reflexivity.
Defined.

(** C6.  The code of a result has as many characters as the validated
    [digits], which is 6, 7 or 8: the decimal text of
    [code_int mod 10 ^ digits] behind as many zeros as it lacks; 42 on
    six digits is printed ["000042"]. *)
Theorem code_length_is_digits (rt : runtime) (url : str)
        (clock : nat -> Z) (r : TotpCode) :
  value (exec clock (get_totp_code rt url)) = Ok (Some r) ->
  exists st code_int,
    parsed rt url st /\
    In (digits st) [6; 7; 8] /\
    Z.of_nat (length (code r)) = digits st /\
    (let s := str_of_int (code_int mod 10 ^ digits st) in
     code r = repeat 48 (Z.to_nat (digits st) - length s) ++ s) /\
    format_code 42 6 = lit "000042".
Proof.
  intro Hv.
  destruct (get_totp_code_returns rt url clock _ Hv)
    as (st & code_int & Hp & Hd & Hr).
  injection Hr as ->; simpl code.
  exists st, code_int.
  assert (Hd1 : 1 <= digits st) by (simpl in Hd; lia).
  destruct (TextFacts.format_code_padded code_int (digits st) Hd1) as [Heq Hlen].
  repeat split; auto.
Qed.

(** The theorem at the RFC 6238 vector of C1. *)
Lemma code_length_is_digits_witness :
  exists st code_int,
    parsed Cpython.rt Examples.rfc6238_uri st /\
    In (digits st) [6; 7; 8] /\
    Z.of_nat (length (lit "94287082")) = digits st /\
    (let s := str_of_int (code_int mod 10 ^ digits st) in
     lit "94287082" = repeat 48 (Z.to_nat (digits st) - length s) ++ s) /\
    format_code 42 6 = lit "000042".
Proof.
  apply (code_length_is_digits Cpython.rt Examples.rfc6238_uri
           (Examples.at_time 0)
           {| code := lit "94287082"; time_left := 1; period := 30 |}).
  vm_compute; reflexivity.
Defined.

(** C7, as the code has it.  For an [otpauth] URI with a non-empty
    secret whose algorithm, once upper-cased, is none of SHA1, SHA256
    and SHA512, [get_totp_code] raises the "Invalid value" [ValueError]
    at once: the clock is not read, no HMAC is keyed, and the message
    holds the upper-cased algorithm. *)
Theorem unsupported_algorithm_is_rejected (rt : runtime) (url : str)
        (st : locals) (s : str) :
  parsed rt url st -> secret st = Some s -> s <> [] ->
  select_hash (upper rt (algorithm st)) = None ->
  let alg := upper rt (algorithm st) in
  get_totp_code rt url = Raise (invalid_algorithm alg) /\
  (forall clock,
      exec clock (get_totp_code rt url)
      = {| value := Fail (invalid_algorithm alg);
           clock_reads := 0; hmac_log := [] |}) /\
  exists msg, invalid_algorithm alg = ValueError msg /\
              contains msg alg = true.
Proof.
  intros Hp Hs Hne Hh alg.
  assert (Hg : get_totp_code rt url = Raise (invalid_algorithm alg)).
  { rewrite (get_totp_code_parsed rt url st Hp).
    unfold validate; rewrite Hs.
    destruct s as [|c s]; [congruence|].
    fold alg in Hh |- *; rewrite Hh; reflexivity. }
  split; [exact Hg|].
  split; [intro clock; rewrite Hg; reflexivity|].
  eexists; split; [reflexivity|].
  rewrite app_assoc; apply contains_app.
Qed.

(** The theorem at [algorithm=md5]. *)
Lemma unsupported_algorithm_is_rejected_witness :
  get_totp_code Cpython.rt Examples.md5_uri
  = Raise (invalid_algorithm (lit "MD5")).
Proof.
  refine (proj1 (unsupported_algorithm_is_rejected Cpython.rt Examples.md5_uri
                   {| secret := Some Examples.rfc6238_secret;
                      algorithm := lit "md5"; digits := 6; period_ := 30;
                      counter := 0 |}
                   Examples.rfc6238_secret _ _ _ _)).
  - vm_compute; reflexivity.
  - reflexivity.
  - discriminate.
  - vm_compute; reflexivity.
Defined.

(** C7 as stated fails.  The message names the upper-cased algorithm,
    not the value as supplied; without a secret the error is the
    missing secret; and under another scheme it is the scheme. *)
Lemma unsupported_algorithm_counterexample :
  (exists msg,
      value (exec (Examples.at_time 0)
                  (get_totp_code Cpython.rt Examples.md5_uri))
      = Fail (ValueError msg) /\
      contains msg (lit "md5") = false /\ contains msg (lit "MD5") = true)
  /\ value (exec (Examples.at_time 0)
                 (get_totp_code Cpython.rt Examples.md5_no_secret_uri))
     = Fail (ValueError (lit "TOTP secret not found in URI"))
  /\ value (exec (Examples.at_time 0)
                 (get_totp_code Cpython.rt Examples.md5_https_uri))
     = Fail (ValueError (lit "Not an otpauth URI")).
Proof.
  split; [|split; vm_compute; reflexivity].
  eexists; split; [vm_compute; reflexivity|].
  split; vm_compute; reflexivity.
Qed.

(** C8.  [get_totp_code] is a function of the URI and of at most one
    clock reading.  With a positive counter the program holds no clock
    reading, and two runs, under whatever clocks, give the same
    outcome; in general the clock is read at most once, and two runs
    that read the same time give the same outcome. *)
Theorem deterministic_given_time (rt : runtime) (url : str) :
  let p := get_totp_code rt url in
  (forall st, parsed rt url st -> 0 < counter st ->
      clock_free p /\
      forall clock clock',
        exec clock p = exec clock' p /\
        clock_reads (exec clock p) = 0%nat) /\
  (forall clock clock',
      clock 0%nat = clock' 0%nat -> exec clock p = exec clock' p) /\
  (forall clock, (clock_reads (exec clock p) <= 1)%nat).
Proof.
  intro p; unfold p.
  assert (Hshape : clock_free (get_totp_code rt url) \/
                   exists st k, parsed rt url st /\ counter st <= 0 /\
                                get_totp_code rt url = Now k /\
                                forall t, clock_free (k t)).
  { destruct (get_totp_code_cases rt url) as [(e & -> & _) | (st & Hp & ->)];
      [left; exact I|].
    destruct (validate_validated rt st); try (left; exact I).
    - left; apply generate_clock_free.
    - right; eexists st, _; repeat split; eauto.
      intro t; apply generate_clock_free. }
  split; [|split].
  - intros st Hp Hc.
    assert (Hfree : clock_free (get_totp_code rt url)).
    { destruct Hshape as [Hfree | (st' & k & Hp' & Hc' & _)]; [exact Hfree|].
      unfold parsed in Hp, Hp'; replace st' with st in Hc' by congruence; lia. }
    split; [exact Hfree|].
    intros clock clock'; unfold exec.
    destruct (run_clock_free _ Hfree clock clock' 0%nat []); auto.
  - intros clock clock' Hsame; unfold exec.
    destruct Hshape as [Hfree | (st & k & _ & _ & -> & Hk)].
    + apply run_clock_free; exact Hfree.
    + simpl; rewrite Hsame; apply run_clock_free, Hk.
  - intro clock; unfold exec.
    destruct Hshape as [Hfree | (st & k & _ & _ & -> & Hk)].
    + destruct (run_clock_free _ Hfree clock clock 0%nat []) as [_ ->]; lia.
    + simpl.
      destruct (run_clock_free _ (Hk (clock 0%nat)) clock clock 1%nat [])
        as [_ ->]; lia.
Qed.

(** The theorem at the RFC 6238 vector, with and without a counter. *)
Lemma deterministic_given_time_witness :
  clock_free (get_totp_code Cpython.rt Examples.rfc6238_uri) /\
  exec (Examples.at_time 59)
       (get_totp_code Cpython.rt Examples.rfc6238_uri_clock)
  = exec (fun n => 59 + Z.of_nat n)
         (get_totp_code Cpython.rt Examples.rfc6238_uri_clock).
Proof.
  split.
  - refine (proj1 (proj1 (deterministic_given_time Cpython.rt
                            Examples.rfc6238_uri)
                         {| secret := Some Examples.rfc6238_secret;
                            algorithm := lit "SHA1"; digits := 8;
                            period_ := 30; counter := 59 |} _ _)).
    + vm_compute; reflexivity.
    + simpl; lia.
  - refine (proj1 (proj2 (deterministic_given_time Cpython.rt
                            Examples.rfc6238_uri_clock)) _ _ _).
    reflexivity.
Defined.

(** C9.  Dynamic truncation stays in bounds: a digest of HMAC-SHA1,
    -SHA256 or -SHA512 has at least 20 bytes, the offset is at most 15,
    the slice at the offset has its four bytes, and [code_int] is a
    non-negative number below [2^31]. *)
Theorem dynamic_truncation_in_bounds
        (h : Hashlib.algorithm) (key msg : bytes) :
  let digest := Hmac.hmac_digest h key msg in
  (20 <= length digest)%nat /\
  exists offset,
    offset_of digest = Ok offset /\
    0 <= offset <= 15 /\
    length (base_of digest offset) = 4%nat /\
    exists code_int,
      code_int_of (base_of digest offset) = Ok code_int /\
      0 <= code_int < 2 ^ 31.
Proof.
  intro digest.
  assert (Hlen : (20 <= length digest)%nat).
  { unfold digest; rewrite BytesFacts.hmac_digest_length.
    apply BytesFacts.digest_size_ge_20. }
  assert (Hrange : Forall is_byte digest)
    by apply BytesFacts.hmac_digest_range.
  split; [exact Hlen|].
  assert (Hne : digest <> []) by (intro E; rewrite E in Hlen; simpl in Hlen; lia).
  destruct (TruncationFacts.offset_of_bound digest Hne) as (offset & Ho & Hb).
  exists offset; split; [exact Ho|]; split; [exact Hb|].
  pose proof (TruncationFacts.base_of_length digest offset Hlen Hb) as Hbase.
  split; [exact Hbase|].
  apply TruncationFacts.code_int_of_bound; [exact Hbase|].
  apply TruncationFacts.Forall_slice; exact Hrange.
Qed.

(** C10, at the input where the code departs from it.  In
    [digits=%C2%B2&digits=8] the last value [coerce] takes is [8], but
    the earlier one, SUPERSCRIPT TWO, passes [isnumeric] and makes
    [int] raise: the call ends in [ValueError]. *)
Theorem earlier_value_raises :
  locals_of Cpython.rt
            (Examples.with_query (lit "&digits=8&counter=59"))
  = Ok {| secret := Some Examples.rfc6238_secret; algorithm := lit "SHA1";
          digits := 8; period_ := 30; counter := 59 |}
  /\ accepted Cpython.rt (lit "8") 8
  /\ isnumeric Cpython.rt [178] = true
  /\ forall clock,
      value (exec clock
                  (get_totp_code Cpython.rt Examples.superscript_digits_uri))
      = Fail (ValueError (lit "invalid literal for int() with base 10: '"
                          ++ [178] ++ lit "'")).
Proof.
  split; [vm_compute; reflexivity|].
  split; [repeat split; vm_compute; reflexivity|].
  split; [vm_compute; reflexivity|].
  intro clock; vm_compute; reflexivity.
Qed.

End Spec.

(* ================================================================== *)
(** * Further properties of [get_totp_code] *)

Module TotpFacts.
Import Py Runtime Utils LoopFacts ProgFacts Chars.

Lemma dec_digits_chars (fuel : nat) :
  forall (n : Z) (acc : str),
    0 <= n -> Forall is_digit_char acc ->
    Forall is_digit_char (dec_digits fuel n acc).
Proof.
  induction fuel as [|fuel IH]; intros n acc Hn Hacc; [exact Hacc|].
  assert (Hr : 0 <= n mod 10 < 10) by (apply Z.mod_pos_bound; lia).
  assert (Hacc' : Forall is_digit_char ((48 + n mod 10) :: acc)).
  { constructor; [unfold is_digit_char; lia | exact Hacc]. }
  change (dec_digits (S fuel) n acc)
    with (if n / 10 =? 0 then (48 + n mod 10) :: acc
          else dec_digits fuel (n / 10) ((48 + n mod 10) :: acc)).
  destruct (n / 10 =? 0); [exact Hacc'|].
  apply IH; [apply Z.div_pos; lia | exact Hacc'].
Qed.

Lemma format_code_chars (code_int digits : Z) :
  1 <= digits -> Forall is_digit_char (format_code code_int digits).
Proof.
  intro Hd.
  destruct (TextFacts.format_code_padded code_int digits Hd) as [-> _].
  apply Forall_app; split.
  - apply Forall_forall; intros c Hc; apply repeat_spec in Hc; subst.
    unfold is_digit_char; lia.
  - assert (Hm : 0 <= code_int mod 10 ^ digits).
    { apply Z.mod_pos_bound, Z.pow_pos_nonneg; lia. }
    unfold str_of_int.
    replace (code_int mod 10 ^ digits <? 0) with false
      by (symmetry; apply Z.ltb_ge; exact Hm).
    apply dec_digits_chars; [apply Z.abs_nonneg | constructor].
Qed.

(** A run of [generate] that returns went through every step. *)
Lemma generate_run hash secret digits period tm_base clock reads log r :
  value (run clock reads log (generate hash secret digits period tm_base))
  = Ok (Some r) ->
  exists tm key msg offset code_int,
    Float.truediv tm_base period = Ok tm /\
    Base64.b32decode (pad_secret secret) = Ok key /\
    to_bytes 8 (Float.to_int tm) = Ok msg /\
    offset_of (Hmac.hmac_digest hash key msg) = Ok offset /\
    code_int_of (base_of (Hmac.hmac_digest hash key msg) offset)
    = Ok code_int /\
    run clock reads log (generate hash secret digits period tm_base)
    = {| value := Ok (Some {| code := format_code code_int digits;
                              time_left := period - tm_base mod period;
                              period := period |});
         clock_reads := reads;
         hmac_log := log ++ [(hash, key, msg)] |} /\
    r = {| code := format_code code_int digits;
           time_left := period - tm_base mod period;
           period := period |}.
Proof.
  unfold generate, try.
  destruct (Float.truediv tm_base period) as [tm|] eqn:Ht;
    [|discriminate].
  destruct (Base64.b32decode (pad_secret secret)) as [key|] eqn:Hk;
    [|discriminate].
  destruct (to_bytes 8 (Float.to_int tm)) as [msg|] eqn:Hm; [|discriminate].
  cbn [run].
  destruct (offset_of (Hmac.hmac_digest hash key msg)) as [offset|] eqn:Ho;
    [|discriminate].
  destruct (code_int_of (base_of (Hmac.hmac_digest hash key msg) offset))
    as [code_int|] eqn:Hc; [|discriminate].
  cbn [run value]; intros [= <-].
  exists tm, key, msg, offset, code_int; repeat split; auto.
Qed.

Lemma to_bytes_ok (n : nat) (x : Z) (b : bytes) :
  to_bytes n x = Ok b -> 0 <= x < 256 ^ Z.of_nat n /\ b = be_bytes n x.
Proof.
  unfold to_bytes.
  destruct (x <? 0) eqn:H0; [discriminate|].
  destruct (256 ^ Z.of_nat n <=? x) eqn:H1; [discriminate|].
  apply Z.ltb_ge in H0; apply Z.leb_gt in H1.
  intros [= <-]; auto.
Qed.

Lemma floor_small (t p : Z) :
  0 <= t < 2 ^ 53 -> 0 < p -> 0 <= t / p < 2 ^ 53.
Proof.
  intros Ht Hp; split; [apply Z.div_pos; lia|].
  apply Z.div_lt_upper_bound; [lia|].
  assert (2 ^ 53 <= p * 2 ^ 53) by nia; lia.
Qed.

Lemma to_bytes_small (x : Z) :
  0 <= x < 2 ^ 53 -> to_bytes 8 x = Ok (be_bytes 8 x).
Proof.
  intro Hx; unfold to_bytes.
  replace (x <? 0) with false by (symmetry; apply Z.ltb_ge; lia).
  replace (256 ^ Z.of_nat 8 <=? x) with false; [reflexivity|].
  symmetry; apply Z.leb_gt.
  change (256 ^ Z.of_nat 8) with (2 ^ 53 * 2048); lia.
Qed.

Lemma truediv_small (t p : Z) :
  0 <= t < 2 ^ 53 -> 0 < p ->
  exists tm, Float.truediv t p = Ok tm /\ Float.to_int tm = t / p.
Proof.
  intros Ht Hp.
  pose proof (FloatFacts.time_step_exact t p Ht Hp) as Hex.
  unfold time_step in Hex.
  destruct (Float.truediv t p) as [tm|]; cbn [bind] in Hex; [|discriminate].
  injection Hex as Hex; exists tm; auto.
Qed.

(** A wall-clock call that returns ran [generate] on the reading. *)
Lemma wall_clock_run (rt : runtime) (url : str) (st : locals)
      (clock : nat -> Z) (r : TotpCode) :
  parsed rt url st -> counter st <= 0 ->
  value (exec clock (get_totp_code rt url)) = Ok (Some r) ->
  exists s hash,
    secret st = Some s /\
    select_hash (upper rt (algorithm st)) = Some hash /\
    value (run clock 1 []
               (generate hash s (digits st) (period_ st) (clock 0%nat)))
    = Ok (Some r).
Proof.
  intros Hp Hc; unfold exec.
  rewrite (get_totp_code_parsed rt url st Hp).
  destruct (validate_validated rt st)
    as [| | |s hash Hs Hne Hh Hd Hc'|s hash Hs Hne Hh Hd Hc'];
    try discriminate; [lia|].
  cbn [run]; intro Hv; exists s, hash; auto.
Qed.

Lemma decode_quanta_error (qs : list bytes) :
  forall decoded acc e,
    Base64.decode_quanta qs decoded acc = Fail e ->
    exists m, e = BinasciiError m.
Proof.
  induction qs as [|q qs IH]; intros decoded acc e; cbn [Base64.decode_quanta].
  - discriminate.
  - destruct (Base64.quantum q 0) as [a|]; [apply IH|].
    intros [= <-]; eauto.
Qed.

(** The decoder raises [ValueError] or its subclass [binascii.Error]. *)
Lemma b32decode_error (s : str) (e : exn) :
  Base64.b32decode s = Fail e ->
  (exists m, e = ValueError m) \/ (exists m, e = BinasciiError m).
Proof.
  unfold Base64.b32decode.
  destruct (negb (forallb (fun c => c <? 128) s)); [intros [= <-]; eauto|].
  destruct (negb (Nat.modulo (length s) 8 =? 0)%nat); [intros [= <-]; eauto|].
  destruct (Base64.decode_quanta _ [] 0) as [[decoded acc]|e'] eqn:Hd;
    cbn [bind].
  - destruct (negb (existsb _ _)); [intros [= <-]; eauto|].
    destruct (_ && _); discriminate.
  - intros [= <-]; right; eapply decode_quanta_error; eauto.
Qed.

Lemma truediv_error (t p : Z) (e : exn) :
  0 < p -> Float.truediv t p = Fail e -> exists m, e = OverflowError m.
Proof.
  intro Hp; unfold Float.truediv.
  replace (p =? 0) with false by (symmetry; apply Z.eqb_neq; lia).
  destruct (t =? 0); [discriminate|].
  destruct (_ && _); [intros [= <-]; eauto | discriminate].
Qed.

Lemma to_bytes_error (n : nat) (x : Z) (e : exn) :
  to_bytes n x = Fail e -> exists m, e = OverflowError m.
Proof.
  unfold to_bytes.
  destruct (x <? 0); [intros [= <-]; eauto|].
  destruct (_ <=? x); [intros [= <-]; eauto | discriminate].
Qed.

(** On a digest of [hmac] the truncation does not raise. *)
Lemma truncation_ok (h : Hashlib.algorithm) (key msg : bytes) :
  exists offset code_int,
    offset_of (Hmac.hmac_digest h key msg) = Ok offset /\
    code_int_of (base_of (Hmac.hmac_digest h key msg) offset) = Ok code_int.
Proof.
  pose proof (BytesFacts.hmac_digest_length h key msg) as Hlen.
  pose proof (BytesFacts.digest_size_ge_20 h) as H20.
  pose proof (BytesFacts.hmac_digest_range h key msg) as Hrange.
  remember (Hmac.hmac_digest h key msg) as d eqn:Ed; clear Ed.
  assert (Hne : d <> []) by (intros ->; simpl in Hlen; lia).
  destruct (TruncationFacts.offset_of_bound d Hne) as (offset & Ho & Hb).
  exists offset.
  destruct (TruncationFacts.code_int_of_bound (base_of d offset))
    as (code_int & Hc & _).
  - apply TruncationFacts.base_of_length; [lia | exact Hb].
  - apply TruncationFacts.Forall_slice; exact Hrange.
  - exists code_int; auto.
Qed.

(** The errors of [generate]. *)
Lemma generate_error hash secret digits period tm_base clock reads log e :
  0 < period ->
  value (run clock reads log (generate hash secret digits period tm_base))
  = Fail e ->
  (exists m, e = ValueError m) \/ (exists m, e = BinasciiError m) \/
  ((exists m, e = OverflowError m) /\ ~ 0 <= tm_base < 2 ^ 53).
Proof.
  intro Hp; unfold generate, try.
  destruct (Float.truediv tm_base period) as [tm|e0] eqn:Ht.
  - destruct (Base64.b32decode (pad_secret secret)) as [key|e1] eqn:Hk.
    + destruct (to_bytes 8 (Float.to_int tm)) as [msg|e2] eqn:Hm.
      * cbn [run].
        destruct (truncation_ok hash key msg)
          as (offset & code_int & -> & ->).
        discriminate.
      * cbn [run value]; intros [= <-].
        right; right; split; [eapply to_bytes_error; eauto|].
        intro Hs.
        destruct (truediv_small _ _ Hs Hp) as (tm0 & E & Hstep).
        assert (tm0 = tm) by congruence; subst tm0.
        rewrite Hstep, to_bytes_small in Hm by (apply floor_small; assumption).
        discriminate.
    + cbn [run value]; intros [= <-].
      destruct (b32decode_error _ _ Hk); auto.
  - cbn [run value]; intros [= <-].
    right; right; split; [eapply truediv_error; eauto|].
    intro Hs.
    destruct (truediv_small _ _ Hs Hp) as (tm0 & E & _); congruence.
Qed.

End TotpFacts.

Module TotpMore.
Import Py Runtime Utils LoopFacts ProgFacts TotpFacts Chars.

(** X1.  A URL whose scheme is not [otpauth] is refused with "Not an
    otpauth URI" whatever its query holds: the query is not looked at,
    the clock is not read and no HMAC is keyed. *)
Theorem other_scheme_is_refused (rt : runtime) (url : str)
        (comp : ParseResult) :
  urlparse rt url = Ok comp -> scheme comp <> lit "otpauth" ->
  get_totp_code rt url = Raise (ValueError (lit "Not an otpauth URI")) /\
  forall clock,
    exec clock (get_totp_code rt url)
    = {| value := Fail (ValueError (lit "Not an otpauth URI"));
         clock_reads := 0; hmac_log := [] |}.
Proof.
  intros Hu Hs.
  assert (Hg : get_totp_code rt url
               = Raise (ValueError (lit "Not an otpauth URI"))).
  { unfold get_totp_code, try; rewrite Hu.
    destruct (str_eqb (scheme comp) (lit "otpauth")) eqn:E; [|reflexivity].
    apply str_eqb_eq in E; contradiction. }
  split; [exact Hg | intro clock; rewrite Hg; reflexivity].
Qed.

(** The theorem at an [https] URL whose query would make [int] raise. *)
Lemma other_scheme_is_refused_witness :
  get_totp_code Cpython.rt
                (lit "https://totp/Example:alice?secret=GEZDGNBVGY3TQOJQ&digits=%C2%B2")
  = Raise (ValueError (lit "Not an otpauth URI")).
Proof.
  refine (proj1 (other_scheme_is_refused Cpython.rt _
                   {| scheme := lit "https";
                      query := lit "secret=GEZDGNBVGY3TQOJQ&digits=%C2%B2" |}
                   _ _)).
  - vm_compute; reflexivity.
  - discriminate.
Defined.




(** X3.  With a secret and a supported algorithm, a [digits] value
    other than 6, 7 and 8 is refused with "TOTP Digits may only be 6,
    7, or 8" before the clock is read or an HMAC is keyed. *)
Theorem other_digits_are_refused (rt : runtime) (url : str)
        (st : locals) (s : str) (hash : Hashlib.algorithm) :
  parsed rt url st -> secret st = Some s -> s <> [] ->
  select_hash (upper rt (algorithm st)) = Some hash ->
  ~ In (digits st) [6; 7; 8] ->
  forall clock,
    exec clock (get_totp_code rt url)
    = {| value := Fail (ValueError (lit "TOTP Digits may only be 6, 7, or 8"));
         clock_reads := 0; hmac_log := [] |}.
Proof.
  intros Hp Hs Hne Hh Hd clock.
  rewrite (get_totp_code_parsed rt url st Hp).
  unfold validate; rewrite Hs.
  destruct s as [|c s]; [congruence|].
  rewrite Hh.
  destruct (existsb (Z.eqb (digits st)) [6; 7; 8]) eqn:E; [|reflexivity].
  apply digits_check in E; contradiction.
Qed.

(** The theorem at [digits=5]. *)
Lemma other_digits_are_refused_witness :
  exec (Examples.at_time 0)
       (get_totp_code Cpython.rt (Examples.with_query (lit "&digits=5")))
  = {| value := Fail (ValueError (lit "TOTP Digits may only be 6, 7, or 8"));
       clock_reads := 0; hmac_log := [] |}.
Proof.
  refine (other_digits_are_refused Cpython.rt _
            {| secret := Some Examples.rfc6238_secret; algorithm := lit "SHA1";
               digits := 5; period_ := 30; counter := 0 |}
            Examples.rfc6238_secret Hashlib.SHA1 _ _ _ _ _ _).
  - vm_compute; reflexivity.
  - reflexivity.
  - discriminate.
  - vm_compute; reflexivity.
  - simpl; lia.
Defined.

(** X4.  What a successful call computed.  The secret decoded to a
    key, the time step (floor of the moving factor over the period when
    the moving factor is below [2^53]) went into exactly one HMAC as an
    eight-byte big-endian message under the selected hash, and the
    result is the dynamic truncation of that digest on [digits] digits,
    with [time_left = period - moving factor mod period] and the period
    echoed. *)
Theorem success_is_truncated_hmac (rt : runtime) (url : str)
        (clock : nat -> Z) (r : TotpCode) :
  value (exec clock (get_totp_code rt url)) = Ok (Some r) ->
  exists st s hash key step,
    parsed rt url st /\
    secret st = Some s /\
    select_hash (upper rt (algorithm st)) = Some hash /\
    Base64.b32decode (pad_secret s) = Ok key /\
    time_step (tm_base_of st (clock 0%nat)) (period_ st) = Ok step /\
    0 <= step < 2 ^ 64 /\
    (0 <= tm_base_of st (clock 0%nat) < 2 ^ 53 ->
     step = tm_base_of st (clock 0%nat) / period_ st) /\
    hmac_log (exec clock (get_totp_code rt url))
    = [(hash, key, be_bytes 8 step)] /\
    exists offset code_int,
      offset_of (Hmac.hmac_digest hash key (be_bytes 8 step)) = Ok offset /\
      code_int_of (base_of (Hmac.hmac_digest hash key (be_bytes 8 step))
                           offset) = Ok code_int /\
      r = {| code := format_code code_int (digits st);
             time_left := period_ st
                          - tm_base_of st (clock 0%nat) mod period_ st;
             period := period_ st |}.
Proof.
  unfold exec.
  destruct (get_totp_code_cases rt url) as [(e & -> & _) | (st & Hp & ->)];
    [discriminate|].
  pose proof (parsed_period_pos rt url st Hp) as Hpos.
  assert (Hgen : forall hash s tm_base reads,
             secret st = Some s ->
             select_hash (upper rt (algorithm st)) = Some hash ->
             tm_base_of st (clock 0%nat) = tm_base ->
             value (run clock reads []
                        (generate hash s (digits st) (period_ st) tm_base))
             = Ok (Some r) ->
             exists key step,
               Base64.b32decode (pad_secret s) = Ok key /\
               time_step tm_base (period_ st) = Ok step /\
               0 <= step < 2 ^ 64 /\
               (0 <= tm_base < 2 ^ 53 -> step = tm_base / period_ st) /\
               hmac_log (run clock reads []
                             (generate hash s (digits st) (period_ st) tm_base))
               = [(hash, key, be_bytes 8 step)] /\
               exists offset code_int,
                 offset_of (Hmac.hmac_digest hash key (be_bytes 8 step))
                 = Ok offset /\
                 code_int_of
                   (base_of (Hmac.hmac_digest hash key (be_bytes 8 step))
                            offset) = Ok code_int /\
                 r = {| code := format_code code_int (digits st);
                        time_left := period_ st - tm_base mod period_ st;
                        period := period_ st |}).
  { intros hash s tm_base reads Hs Hh Htm Hv.
    destruct (generate_run _ _ _ _ _ _ _ _ _ Hv)
      as (tm & key & msg & offset & code_int & Ht & Hk & Hm & Ho & Hc & Hrun & Hr).
    apply to_bytes_ok in Hm; destruct Hm as [Hrange ->].
    exists key, (Float.to_int tm).
    split; [exact Hk|].
    split; [unfold time_step; rewrite Ht; reflexivity|].
    split; [exact Hrange|].
    split.
    { intro Hsmall.
      pose proof (FloatFacts.time_step_exact tm_base (period_ st) Hsmall Hpos)
        as Hex.
      unfold time_step in Hex; rewrite Ht in Hex; cbn [bind] in Hex.
      congruence. }
    split; [rewrite Hrun; reflexivity|].
    exists offset, code_int; auto. }
  intro Hv.
  destruct (validate_validated rt st)
    as [| | |s hash Hs Hne Hh Hd Hc|s hash Hs Hne Hh Hd Hc];
    try discriminate Hv.
  - assert (Htm : tm_base_of st (clock 0%nat) = counter st).
    { unfold tm_base_of.
      replace (0 <? counter st) with true by (symmetry; apply Z.ltb_lt; lia).
      reflexivity. }
    destruct (Hgen hash s (counter st) 0%nat Hs Hh Htm Hv)
      as (key & step & H1 & H2 & H3 & H4 & H5 & H6).
    exists st, s, hash, key, step; rewrite Htm; repeat split; auto; lia.
  - assert (Htm : tm_base_of st (clock 0%nat) = clock 0%nat).
    { unfold tm_base_of.
      replace (0 <? counter st) with false by (symmetry; apply Z.ltb_ge; lia).
      reflexivity. }
    cbn [run] in Hv |- *.
    destruct (Hgen hash s (clock 0%nat) 1%nat Hs Hh Htm Hv)
      as (key & step & H1 & H2 & H3 & H4 & H5 & H6).
    exists st, s, hash, key, step; rewrite Htm; repeat split; auto; lia.
Qed.

(** The theorem at the RFC 6238 vector for time 1111111109. *)
Lemma success_is_truncated_hmac_witness :
  exists st s hash key step,
    parsed Cpython.rt Examples.rfc6238_uri_clock st /\
    secret st = Some s /\
    select_hash (upper Cpython.rt (algorithm st)) = Some hash /\
    Base64.b32decode (pad_secret s) = Ok key /\
    time_step (tm_base_of st 1111111109) (period_ st) = Ok step /\
    0 <= step < 2 ^ 64 /\
    (0 <= tm_base_of st 1111111109 < 2 ^ 53 ->
     step = tm_base_of st 1111111109 / period_ st) /\
    hmac_log (exec (Examples.at_time 1111111109)
                   (get_totp_code Cpython.rt Examples.rfc6238_uri_clock))
    = [(hash, key, be_bytes 8 step)] /\
    exists offset code_int,
      offset_of (Hmac.hmac_digest hash key (be_bytes 8 step)) = Ok offset /\
      code_int_of (base_of (Hmac.hmac_digest hash key (be_bytes 8 step))
                           offset) = Ok code_int /\
      {| code := lit "07081804"; time_left := 1; period := 30 |}
      = {| code := format_code code_int (digits st);
           time_left := period_ st - tm_base_of st 1111111109 mod period_ st;
           period := period_ st |}.
Proof.
  apply (success_is_truncated_hmac Cpython.rt Examples.rfc6238_uri_clock
           (Examples.at_time 1111111109)
           {| code := lit "07081804"; time_left := 1; period := 30 |}).
  vm_compute; reflexivity.
Defined.

(** X5.  Two wall-clock calls whose readings fall into the same period
    (same quotient by the period, both below [2^53]) return the same
    code and the same period, and [time_left] goes down by the time
    that passed between them. *)
Theorem same_window_same_code (rt : runtime) (url : str) (st : locals)
        (clock clock' : nat -> Z) (r r' : TotpCode) :
  parsed rt url st -> counter st <= 0 ->
  value (exec clock (get_totp_code rt url)) = Ok (Some r) ->
  value (exec clock' (get_totp_code rt url)) = Ok (Some r') ->
  0 <= clock 0%nat < 2 ^ 53 -> 0 <= clock' 0%nat < 2 ^ 53 ->
  clock 0%nat / period_ st = clock' 0%nat / period_ st ->
  code r' = code r /\ period r' = period r /\
  time_left r' = time_left r - (clock' 0%nat - clock 0%nat).
Proof.
  intros Hp Hc Hv Hv' Ht Ht' Hq.
  pose proof (parsed_period_pos rt url st Hp) as Hpos.
  destruct (wall_clock_run rt url st clock r Hp Hc Hv)
    as (s & hash & Hs & Hh & Hrun).
  destruct (wall_clock_run rt url st clock' r' Hp Hc Hv')
    as (s' & hash' & Hs' & Hh' & Hrun').
  assert (s' = s) by congruence; assert (hash' = hash) by congruence.
  subst s' hash'.
  destruct (generate_run _ _ _ _ _ _ _ _ _ Hrun)
    as (tm & key & msg & offset & code_int
        & Hdiv & Hk & Hm & Ho & Hci & _ & ->).
  destruct (generate_run _ _ _ _ _ _ _ _ _ Hrun')
    as (tm' & key' & msg' & offset' & code_int'
        & Hdiv' & Hk' & Hm' & Ho' & Hci' & _ & ->).
  (* below 2^53 both time steps are the common quotient *)
  destruct (truediv_small _ _ Ht Hpos) as (tm0 & E & Hstep).
  destruct (truediv_small _ _ Ht' Hpos) as (tm0' & E' & Hstep').
  assert (tm0 = tm) by congruence; assert (tm0' = tm') by congruence.
  subst tm0 tm0'.
  rewrite Hstep in Hm; rewrite Hstep', <- Hq in Hm'.
  assert (key' = key) by congruence; assert (msg' = msg) by congruence.
  subst key' msg'.
  assert (offset' = offset) by congruence; subst offset'.
  assert (code_int' = code_int) by congruence; subst code_int'.
  cbn [code period time_left].
  split; [reflexivity|]; split; [reflexivity|].
  rewrite (Z.mod_eq (clock 0%nat) (period_ st)) by lia.
  rewrite (Z.mod_eq (clock' 0%nat) (period_ st)) by lia.
  rewrite Hq; lia.
Qed.

(** The theorem one second apart, at 1111111108 and 1111111109. *)
Lemma same_window_same_code_witness :
  lit "07081804" = lit "07081804" /\ 30 = 30 /\
  1 = 2 - (1111111109 - 1111111108).
Proof.
  apply (same_window_same_code Cpython.rt Examples.rfc6238_uri_clock
           {| secret := Some Examples.rfc6238_secret; algorithm := lit "SHA1";
              digits := 8; period_ := 30; counter := 0 |}
           (Examples.at_time 1111111108) (Examples.at_time 1111111109)
           {| code := lit "07081804"; time_left := 2; period := 30 |}
           {| code := lit "07081804"; time_left := 1; period := 30 |}).
  - vm_compute; reflexivity.
  - simpl; lia.
  - vm_compute; reflexivity.
  - vm_compute; reflexivity.
  - unfold Examples.at_time; lia.
  - unfold Examples.at_time; lia.
  - reflexivity.
Defined.

(** X6.  The code of a result is made of ASCII decimal digits only. *)
Theorem code_is_decimal (rt : runtime) (url : str) (clock : nat -> Z)
        (r : TotpCode) :
  value (exec clock (get_totp_code rt url)) = Ok (Some r) ->
  Forall is_digit_char (code r).
Proof.
  intro Hv.
  destruct (get_totp_code_returns rt url clock _ Hv)
    as (st & code_int & _ & Hd & Hr).
  injection Hr as ->; cbn [code].
  apply format_code_chars; simpl in Hd; lia.
Qed.

(** The theorem at the RFC 6238 vector of time 59. *)
Lemma code_is_decimal_witness : Forall is_digit_char (lit "94287082").
Proof.
  apply (code_is_decimal Cpython.rt Examples.rfc6238_uri (Examples.at_time 0)
           {| code := lit "94287082"; time_left := 1; period := 30 |}).
  vm_compute; reflexivity.
Defined.

Lemma query_step_unrecognized (rt : runtime) (st : locals) (k v : str) :
  recognized k = false -> query_step rt st (k, v) = Ok st.
Proof.
  unfold recognized; cbn [existsb]; intro H.
  repeat (apply orb_false_iff in H; destruct H as [? H]).
  unfold query_step.
  repeat match goal with
         | E : str_eqb k _ = false |- _ => rewrite E; clear E
         end.
  reflexivity.
Qed.

(** X7.  A query field whose name is none of [secret], [algorithm],
    [digits], [period] and [counter], compared exactly, changes nothing:
    the loop ends as it would without that field. *)
Theorem unrecognized_field_is_ignored (rt : runtime) (k v : str) :
  recognized k = false ->
  forall xs ys st,
    query_loop rt (xs ++ (k, v) :: ys) st = query_loop rt (xs ++ ys) st.
Proof.
  intros Hk xs ys st; rewrite !query_loop_app.
  destruct (query_loop rt xs st) as [st1|]; cbn [bind query_loop];
    [|reflexivity].
  rewrite (query_step_unrecognized rt st1 k v Hk); reflexivity.
Qed.

(** The theorem at a field named [Digits]. *)
Lemma unrecognized_field_is_ignored_witness :
  query_loop Cpython.rt
             ([(lit "secret", lit "GEZDGNBV")] ++ (lit "Digits", lit "8") :: [])
             initial
  = query_loop Cpython.rt ([(lit "secret", lit "GEZDGNBV")] ++ []) initial.
Proof.
  apply (unrecognized_field_is_ignored Cpython.rt (lit "Digits") (lit "8")).
  reflexivity.
Defined.

(** X8.  For a moving factor from 0 to [2^53 - 1] and a positive
    period, the true division and [int] of lines 159 and 165 give the
    exact floor of the quotient, without error. *)
Theorem time_step_is_floor (tm_base period : Z) :
  0 <= tm_base < 2 ^ 53 -> 0 < period ->
  exists tm,
    Float.truediv tm_base period = Ok tm /\
    Float.to_int tm = tm_base / period /\
    to_bytes 8 (Float.to_int tm) = Ok (be_bytes 8 (tm_base / period)).
Proof.
  intros Hsmall Hpos.
  destruct (truediv_small tm_base period Hsmall Hpos) as (tm & Hdiv & Hstep).
  exists tm; split; [exact Hdiv|]; split; [exact Hstep|].
  rewrite Hstep; apply to_bytes_small, floor_small; assumption.
Qed.

(** The theorem at time 1111111109 and the default period. *)
Lemma time_step_is_floor_witness :
  exists tm,
    Float.truediv 1111111109 30 = Ok tm /\
    Float.to_int tm = 1111111109 / 30 /\
    to_bytes 8 (Float.to_int tm) = Ok (be_bytes 8 (1111111109 / 30)).
Proof.
  apply (time_step_is_floor 1111111109 30); lia.
Defined.

(** X9.  When the query loop runs to its end, a parameter given
    several times has the value of its last usable occurrence: for
    [digits], [period] and [counter] the last value [coerce] takes,
    whatever came before and whatever skipped values follow; for
    [secret] and [algorithm] the last field of that name. *)
Theorem last_occurrence_wins (rt : runtime) :
  (forall k v n xs ys st0 st,
      numeric_key k = true -> accepted rt v n ->
      (forall v', In (k, v') ys -> skipped rt v') ->
      query_loop rt (xs ++ (k, v) :: ys) st0 = Ok st ->
      numeric_field k st = Some n) /\
  (forall v xs ys st0 st,
      (forall v', ~ In (lit "secret", v') ys) ->
      query_loop rt (xs ++ (lit "secret", v) :: ys) st0 = Ok st ->
      secret st = Some v) /\
  (forall v xs ys st0 st,
      (forall v', ~ In (lit "algorithm", v') ys) ->
      query_loop rt (xs ++ (lit "algorithm", v) :: ys) st0 = Ok st ->
      algorithm st = v).
Proof.
  split; [|split].
  - intros; eapply last_accepted_wins; eauto.
  - intros; eapply last_secret_wins; eauto.
  - intros; eapply last_algorithm_wins; eauto.
Qed.

(** The theorem at [period=60&period=45&period=0]. *)
Lemma last_occurrence_wins_witness :
  numeric_field (lit "period")
                {| secret := None; algorithm := lit "SHA1"; digits := 6;
                   period_ := 45; counter := 0 |}
  = Some 45.
Proof.
  refine (proj1 (last_occurrence_wins Cpython.rt)
                (lit "period") (lit "45") 45
                [(lit "period", lit "60")] [(lit "period", lit "0")]
                initial _ _ _ _ _).
  - reflexivity.
  - repeat split; vm_compute; reflexivity.
  - intros v' [H|[]]; injection H as <-.
    right; exists 0; split; [vm_compute; reflexivity | lia].
  - vm_compute; reflexivity.
Defined.

(** X10.  Once the query is read, a call that fails raises
    [ValueError] or its subclass [binascii.Error], except that a moving
    factor outside [0, 2^53) can end in [OverflowError]: it never
    raises [ZeroDivisionError] (the period stays positive) nor
    [IndexError] (the digest is long enough). *)
Theorem failure_is_value_or_overflow_error (rt : runtime) (url : str)
        (st : locals) (clock : nat -> Z) (e : exn) :
  parsed rt url st ->
  value (exec clock (get_totp_code rt url)) = Fail e ->
  (exists m, e = ValueError m) \/ (exists m, e = BinasciiError m) \/
  ((exists m, e = OverflowError m) /\
   ~ 0 <= tm_base_of st (clock 0%nat) < 2 ^ 53).
Proof.
  intros Hp; unfold exec.
  pose proof (parsed_period_pos rt url st Hp) as Hpos.
  rewrite (get_totp_code_parsed rt url st Hp).
  destruct (validate_validated rt st)
    as [| | |s hash Hs Hne Hh Hd Hc|s hash Hs Hne Hh Hd Hc]; cbn [run value].
  - intros [= <-]; eauto.
  - intros [= <-]; unfold invalid_algorithm; eauto.
  - intros [= <-]; eauto.
  - intro Hv.
    replace (tm_base_of st (clock 0%nat)) with (counter st).
    + exact (generate_error _ _ _ _ _ _ _ _ _ Hpos Hv).
    + unfold tm_base_of.
      replace (0 <? counter st) with true by (symmetry; apply Z.ltb_lt; lia).
      reflexivity.
  - intro Hv.
    replace (tm_base_of st (clock 0%nat)) with (clock 0%nat).
    + exact (generate_error _ _ _ _ _ _ _ _ _ Hpos Hv).
    + unfold tm_base_of.
      replace (0 <? counter st) with false by (symmetry; apply Z.ltb_ge; lia).
      reflexivity.
Qed.

(** The theorem at a counter of [2^64], whose time step does not fit
    eight bytes. *)
Lemma failure_is_value_or_overflow_error_witness :
  (exists m, OverflowError (lit "int too big to convert") = ValueError m) \/
  (exists m, OverflowError (lit "int too big to convert") = BinasciiError m) \/
  ((exists m, OverflowError (lit "int too big to convert") = OverflowError m)
   /\ ~ 0 <= 18446744073709551616 < 2 ^ 53).
Proof.
  apply (failure_is_value_or_overflow_error Cpython.rt
           (Examples.with_query (lit "&period=1&counter=18446744073709551616"))
           {| secret := Some Examples.rfc6238_secret; algorithm := lit "SHA1";
              digits := 6; period_ := 1; counter := 18446744073709551616 |}
           (Examples.at_time 0)
           (OverflowError (lit "int too big to convert"))).
  - vm_compute; reflexivity.
  - vm_compute; reflexivity.
Defined.

End TotpMore.

(* ================================================================== *)
(** * Properties of [FileKeyValueStorage] *)

Module StorageFacts.
Import Py Storage LoopFacts.

Section Documents.
Variable number : Type.
Implicit Types (d : dict number) (f : file number) (v : json number).

Lemma lookup_remove_same (k : str) d : lookup k (remove k d) = None.
Proof.
  induction d as [|[k' v] d IH]; simpl; [reflexivity|].
  destruct (str_eqb k' k) eqn:E; [exact IH|].
  simpl; rewrite E; exact IH.
Qed.

Lemma lookup_remove_other (k k' : str) d :
  k' <> k -> lookup k' (remove k d) = lookup k' d.
Proof.
  intro Hne; induction d as [|[k0 v] d IH]; simpl; [reflexivity|].
  destruct (str_eqb k0 k) eqn:E.
  - apply str_eqb_eq in E; subst k0.
    destruct (str_eqb k k') eqn:E'; [|exact IH].
    apply str_eqb_eq in E'; congruence.
  - simpl; destruct (str_eqb k0 k'); [reflexivity | exact IH].
Qed.

Lemma remove_absent (k : str) d :
  lookup k d = None -> remove k d = d.
Proof.
  induction d as [|[k' v] d IH]; simpl; [reflexivity|].
  destruct (str_eqb k' k); [discriminate|].
  intro H; rewrite (IH H); reflexivity.
Qed.

Lemma remove_remove (k : str) d :
  remove k (remove k d) = remove k d.
Proof. apply remove_absent, lookup_remove_same. Qed.

Lemma lookup_assign_same (k : str) v d :
  lookup k (assign k v d) = Some v.
Proof. unfold assign; simpl; rewrite str_eqb_refl; reflexivity. Qed.

Lemma assign_assign (k : str) v v' d :
  assign k v' (assign k v d) = assign k v' d.
Proof.
  unfold assign; cbn [remove]; rewrite str_eqb_refl, remove_remove.
  reflexivity.
Qed.

Lemma lookup_assign_other (k k' : str) v d :
  k' <> k -> lookup k' (assign k v d) = lookup k' d.
Proof.
  intro Hne; unfold assign; simpl.
  destruct (str_eqb k k') eqn:E.
  - apply str_eqb_eq in E; congruence.
  - apply lookup_remove_other; exact Hne.
Qed.

(** Reading a usable file returns its dict and leaves it on disk. *)
Lemma read_usable f :
  usable f ->
  read_storage f
  = (Returns (JObject (items_of f)), Holds (JObject (items_of f))).
Proof.
  destruct f as [| |[]]; simpl; intro H; try contradiction; reflexivity.
Qed.

Lemma get_usable (k : str) f :
  usable f ->
  get k f
  = (Returns (match lookup k (items_of f) with
              | Some v => v
              | None => JNull
              end),
     Holds (JObject (items_of f))).
Proof. intro H; unfold get; rewrite (read_usable f H); reflexivity. Qed.

Lemma contains_usable (k : str) f :
  usable f ->
  contains k f
  = (Returns (match lookup k (items_of f) with
              | Some _ => true
              | None => false
              end),
     Holds (JObject (items_of f))).
Proof. intro H; unfold contains; rewrite (read_usable f H); reflexivity. Qed.

Lemma set_usable (k : str) v f :
  usable f ->
  set k v f
  = (Returns (JObject (assign k v (items_of f))),
     Holds (JObject (assign k v (items_of f)))).
Proof. intro H; unfold set; rewrite (read_usable f H); reflexivity. Qed.

Lemma delete_usable (k : str) f :
  usable f ->
  delete k f
  = (Returns (JObject (remove k (items_of f))),
     Holds (JObject (remove k (items_of f)))).
Proof.
  intro H; unfold delete; rewrite (read_usable f H); cbn [is_in].
  destruct (lookup k (items_of f)) eqn:E; [reflexivity|].
  rewrite (remove_absent _ _ E); reflexivity.
Qed.
End Documents.

End StorageFacts.

Module StorageMore.
Import Py Storage LoopFacts StorageFacts.



(** X12.  [set] and [delete] of one key leave every other key as it
    was: what [get] returns and what [contains] answers for another key
    is the same before and after. *)
Theorem other_keys_are_kept (number : Type) (k k' : str) (v : json number)
        (f : file number) :
  usable f -> k' <> k ->
  fst (get k' (snd (set k v f))) = fst (get k' f) /\
  fst (contains k' (snd (set k v f))) = fst (contains k' f) /\
  fst (get k' (snd (delete k f))) = fst (get k' f) /\
  fst (contains k' (snd (delete k f))) = fst (contains k' f).
Proof.
  intros Hf Hne.
  rewrite (set_usable number k v f Hf), (delete_usable number k f Hf).
  cbn [snd].
  rewrite !get_usable, !contains_usable by (exact I || exact Hf).
  cbn [fst items_of].
  rewrite lookup_assign_other, lookup_remove_other by exact Hne.
  repeat split; reflexivity.
Qed.

(** The theorem on a file with two keys, one of them overwritten. *)
Lemma other_keys_are_kept_witness :
  fst (get (lit "appKey")
           (snd (set (lit "clientId") (JNumber 2)
                     (Holds (JObject [(lit "clientId", JNumber 1);
                                      (lit "appKey", JString (lit "k"))])))))
  = Returns (JString (lit "k")).
Proof.
  refine (proj1 (other_keys_are_kept Z (lit "clientId") (lit "appKey")
                   (JNumber 2)
                   (Holds (JObject [(lit "clientId", JNumber 1);
                                    (lit "appKey", JString (lit "k"))]))
                   _ _)).
  - exact I.
  - discriminate.
Defined.

(** X13.  After [delete] on a usable file the key is gone: [get]
    returns [None] and [contains] answers [False].  Deleting a key that
    is not there is not an error and leaves the dict as it was. *)
Theorem get_after_delete (number : Type) (k : str) (f : file number) :
  usable f ->
  let f' := snd (delete k f) in
  get k f' = (Returns JNull, f') /\
  contains k f' = (Returns false, f') /\
  (fst (contains k f) = Returns false ->
   delete k f = (Returns (JObject (items_of f)), Holds (JObject (items_of f)))).
Proof.
  intros Hf f'; unfold f'; rewrite (delete_usable number k f Hf); cbn [snd].
  rewrite get_usable, contains_usable by exact I.
  cbn [items_of]; rewrite lookup_remove_same.
  split; [reflexivity|]; split; [reflexivity|].
  rewrite (contains_usable number k f Hf); cbn [fst].
  destruct (lookup k (items_of f)) eqn:E; [discriminate|].
  intros _; rewrite (remove_absent number k _ E); reflexivity.
Qed.

(** The theorem on a file that holds the key. *)
Lemma get_after_delete_witness :
  contains (lit "clientId")
           (snd (delete (lit "clientId")
                        (Holds (JObject [(lit "clientId", JNumber 1)]))))
  = (Returns false,
     snd (delete (lit "clientId")
                 (Holds (JObject [(lit "clientId", JNumber 1)])))).
Proof.
  refine (proj1 (proj2 (get_after_delete Z (lit "clientId")
                          (Holds (JObject [(lit "clientId", JNumber 1)])) _))).
  exact I.
Defined.

(** X14.  After [delete_all] on a usable file the file holds the empty
    object: no key is contained and every [get] returns [None]. *)
Theorem nothing_after_delete_all (number : Type) (f : file number) :
  usable f ->
  delete_all f = (Returns (JObject []), Holds (JObject [])) /\
  forall k,
    get k (snd (delete_all f)) = (Returns JNull, Holds (JObject [])) /\
    contains k (snd (delete_all f)) = (Returns false, Holds (JObject [])).
Proof.
  intro Hf.
  assert (E : delete_all f = (Returns (JObject []), Holds (JObject []))).
  { unfold delete_all; rewrite (read_usable number f Hf); reflexivity. }
  split; [exact E|].
  intro k; rewrite E; split; reflexivity.
Qed.

(** The theorem on a file with one key. *)
Lemma nothing_after_delete_all_witness :
  delete_all (Holds (JObject [(lit "clientId", JNumber 1)]))
  = (Returns (JObject []), Holds (JObject [])).
Proof.
  refine (proj1 (nothing_after_delete_all Z
                   (Holds (JObject [(lit "clientId", JNumber 1)])) _)).
  exact I.
Defined.




(** X16.  When the file holds a JSON document that is not an object,
    [get] raises [AttributeError] and [set] raises [TypeError], and no
    method changes the document except [delete_all], which empties an
    array. *)
Theorem other_document_is_kept (number : Type) (k : str) (v : json number)
        (document : json number) :
  (forall d, document <> JObject d) ->
  let f := Holds document in
  get k f = (Raises AttributeError, f) /\
  set k v f = (Raises TypeError, f) /\
  snd (contains k f) = f /\
  snd (delete k f) = f /\
  (fst (delete k f) = Returns document \/ fst (delete k f) = Raises TypeError) /\
  ((exists l, document = JArray l) \/ delete_all f = (Raises AttributeError, f)).
Proof.
  intros Hd f; unfold f.
  destruct document as [|b|n|s|l|d]; try (exfalso; exact (Hd d eq_refl));
    unfold get, set, contains, delete, delete_all;
    cbn [read_storage create_config_file_if_missing is_in fst snd].
  1-3: repeat split; (now right) || (now left) || idtac.
  - (* a string *)
    destruct (Py.contains s k); cbn [fst snd save_storage];
      repeat split; (now right) || (now left) || idtac.
  - (* an array *)
    destruct (existsb _ l); cbn [fst snd save_storage];
      repeat split; (now right) || (now left) || idtac; left; eexists; reflexivity.
Qed.

(** The theorem on a file that holds a JSON string. *)
Lemma other_document_is_kept_witness :
  get (lit "clientId") (Holds (@JString Z (lit "clientId")))
  = (Raises AttributeError, Holds (JString (lit "clientId"))).
Proof.
  refine (proj1 (other_document_is_kept Z (lit "clientId") JNull
                   (JString (lit "clientId")) _)).
  intros d; discriminate.
Defined.

(** X17.  The last write wins: setting a key twice leaves the file
    exactly as setting it once to the second value does. *)
Theorem last_set_wins (number : Type) (k : str) (v1 v2 : json number)
        (f : file number) :
  usable f ->
  set k v2 (snd (set k v1 f)) = set k v2 f.
Proof.
  intro Hf; rewrite (set_usable number k v1 f Hf); cbn [snd].
  rewrite !set_usable by (exact I || exact Hf); cbn [items_of].
  rewrite assign_assign; reflexivity.
Qed.

(** The theorem on a file that does not exist yet. *)
Lemma last_set_wins_witness :
  set (lit "clientId") (JNumber 2)
      (snd (set (lit "clientId") (JNumber 1) (@Absent Z)))
  = set (lit "clientId") (JNumber 2) Absent.
Proof.
  refine (last_set_wins Z (lit "clientId") (JNumber 1) (JNumber 2) Absent _).
  exact I.
Defined.



(** X19.  Writes to different keys commute: setting two different keys
    in either order gives files from which [get] and [contains] answer
    the same for every key. *)
Theorem sets_of_different_keys_commute (number : Type) (k1 k2 q : str)
        (v1 v2 : json number) (f : file number) :
  usable f -> k1 <> k2 ->
  fst (get q (snd (set k2 v2 (snd (set k1 v1 f)))))
  = fst (get q (snd (set k1 v1 (snd (set k2 v2 f))))) /\
  fst (contains q (snd (set k2 v2 (snd (set k1 v1 f)))))
  = fst (contains q (snd (set k1 v1 (snd (set k2 v2 f))))).
Proof.
  intros Hf Hne.
  rewrite (set_usable number k1 v1 f Hf), (set_usable number k2 v2 f Hf).
  cbn [snd]; rewrite !set_usable by exact I; cbn [snd items_of].
  rewrite !get_usable, !contains_usable by exact I; cbn [fst items_of].
  assert (E : lookup q (assign k2 v2 (assign k1 v1 (items_of f)))
              = lookup q (assign k1 v1 (assign k2 v2 (items_of f)))).
  { destruct (str_eqb q k1) eqn:E1.
    - apply str_eqb_eq in E1; subst q.
      rewrite lookup_assign_other by exact Hne.
      rewrite !lookup_assign_same; reflexivity.
    - assert (Hq1 : q <> k1).
      { intros ->; rewrite str_eqb_refl in E1; discriminate. }
      rewrite (lookup_assign_other number k1 q) by exact Hq1.
      destruct (str_eqb q k2) eqn:E2.
      + apply str_eqb_eq in E2; subst q.
        rewrite !lookup_assign_same; reflexivity.
      + assert (Hq2 : q <> k2).
        { intros ->; rewrite str_eqb_refl in E2; discriminate. }
        rewrite !(lookup_assign_other number k2 q) by exact Hq2.
        rewrite lookup_assign_other by exact Hq1; reflexivity. }
  rewrite E; split; reflexivity.
Qed.

(** The theorem on two keys of the client configuration. *)
Lemma sets_of_different_keys_commute_witness :
  fst (get (lit "appKey")
         (snd (set (lit "appKey") (JNumber 2)
                 (snd (set (lit "clientId") (JNumber 1) (@Absent Z))))))
  = fst (get (lit "appKey")
           (snd (set (lit "clientId") (JNumber 1)
                   (snd (set (lit "appKey") (JNumber 2) (@Absent Z)))))).
Proof.
  refine (proj1 (sets_of_different_keys_commute Z (lit "clientId")
                   (lit "appKey") (lit "appKey") (JNumber 1) (JNumber 2)
                   Absent _ _)).
  - exact I.
  - discriminate.
Defined.

End StorageMore.

(* ================================================================== *)
(** * Properties of the password generation *)

Module PasswordFacts.
Import Py Password.

Lemma getitem_in_range (msg : string) (seq : list Z) (j : Z) :
  0 <= j < Z.of_nat (length seq) ->
  getitem msg seq j = Ok (nth (Z.to_nat j) seq 0).
Proof.
  intro H; unfold getitem.
  replace (0 <=? j) with true by (symmetry; apply Z.leb_le; lia).
  replace (j <? Z.of_nat (length seq)) with true
    by (symmetry; apply Z.ltb_lt; lia).
  reflexivity.
Qed.

Lemma setitem_in_range (l : list Z) (j x : Z) :
  0 <= j < Z.of_nat (length l) ->
  setitem l j x = Ok (put l (Z.to_nat j) x).
Proof.
  intro H; unfold setitem.
  replace (0 <=? j) with true by (symmetry; apply Z.leb_le; lia).
  replace (j <? Z.of_nat (length l)) with true
    by (symmetry; apply Z.ltb_lt; lia).
  reflexivity.
Qed.

Lemma put_length (l : list Z) (i : nat) (x : Z) :
  (i < length l)%nat -> length (put l i x) = length l.
Proof.
  intro H; unfold put.
  rewrite length_app, length_firstn; cbn [length]; rewrite length_skipn; lia.
Qed.

Lemma put_cons (a : Z) (l : list Z) (i : nat) (x : Z) :
  put (a :: l) (S i) x = a :: put l i x.
Proof. reflexivity. Qed.

Lemma firstn_succ (l : list Z) (m : nat) :
  (m < length l)%nat -> firstn (S m) l = firstn m l ++ [nth m l 0].
Proof.
  revert m; induction l as [|a l IH]; intros m H; cbn [length] in H; [lia|].
  destruct m as [|m]; [reflexivity|].
  rewrite !firstn_cons, IH by lia; reflexivity.
Qed.

(** One round of the pool: the item selected and the items left are the
    items there were. *)
Lemma pool_round (l : list Z) (j m : nat) :
  (j <= m)%nat -> (m < length l)%nat ->
  Permutation (firstn (S m) l)
              (nth j l 0 :: firstn m (put l j (nth m l 0))).
Proof.
  revert j m; induction l as [|a l IH]; intros j m Hj Hm;
    cbn [length] in Hm; [lia|].
  destruct j as [|j].
  - destruct m as [|m]; [apply Permutation_refl|].
    change (put (a :: l) 0 (nth (S m) (a :: l) 0)) with (nth m l 0 :: l).
    change (nth 0 (a :: l) 0) with a.
    rewrite !firstn_cons.
    apply perm_skip.
    rewrite firstn_succ by lia.
    apply Permutation_sym, Permutation_cons_append.
  - destruct m as [|m]; [lia|].
    rewrite put_cons, !firstn_cons.
    change (nth (S j) (a :: l) 0) with (nth j l 0).
    change (nth (S m) (a :: l) 0) with (nth m l 0).
    eapply perm_trans; [apply perm_skip, (IH j m); lia|].
    apply perm_swap.
Qed.

Lemma count_of_app (alphabet a b : str) :
  count_of alphabet (a ++ b) = count_of alphabet a + count_of alphabet b.
Proof. unfold count_of; rewrite filter_app, length_app; lia. Qed.

Lemma count_of_permutation (alphabet a b : str) :
  Permutation a b -> count_of alphabet a = count_of alphabet b.
Proof.
  unfold count_of; intro H; f_equal.
  induction H as [|x a b H IH|x y a|a b c H1 IH1 H2 IH2]; cbn [filter].
  - reflexivity.
  - destruct (existsb (Z.eqb x) alphabet); cbn [length]; lia.
  - destruct (existsb (Z.eqb x) alphabet), (existsb (Z.eqb y) alphabet);
      reflexivity.
  - lia.
Qed.

Lemma count_of_all (alphabet s : str) :
  Forall (fun c => In c alphabet) s ->
  count_of alphabet s = Z.of_nat (length s).
Proof.
  unfold count_of; intro H; f_equal.
  induction H as [|c s Hc H IH]; [reflexivity|].
  cbn [filter].
  replace (existsb (Z.eqb c) alphabet) with true.
  - cbn [length]; lia.
  - symmetry; apply existsb_exists; exists c; split; [exact Hc|].
    apply Z.eqb_refl.
Qed.

Lemma count_of_none (alphabet other s : str) :
  apart alphabet other = true ->
  Forall (fun c => In c other) s ->
  count_of alphabet s = 0.
Proof.
  unfold count_of, apart; intros Ha H.
  rewrite forallb_forall in Ha.
  induction H as [|c s Hc H IH]; [reflexivity|].
  cbn [filter].
  specialize (Ha c Hc).
  destruct (existsb (Z.eqb c) alphabet); [discriminate|exact IH].
Qed.

Section WithRandom.
Variable state : Type.
Variable rnd : source state.
Hypothesis system_below : below (system_randbelow rnd).
Hypothesis random_below : below (randbelow rnd).

Lemma draw_ok (sample_string : str) (s : state) :
  sample_string <> [] ->
  exists c s', draw rnd sample_string s = (Ok c, s') /\ In c sample_string.
Proof.
  intro Hne.
  assert (Hlen : 0 < Z.of_nat (length sample_string)).
  { destruct sample_string; [congruence|cbn [length]; lia]. }
  unfold draw; destruct (has_secrets rnd).
  - unfold choice.
    replace (Z.of_nat (length sample_string) =? 0) with false
      by (symmetry; apply Z.eqb_neq; lia).
    pose proof (system_below _ s Hlen) as Hj.
    destruct (system_randbelow rnd (Z.of_nat (length sample_string)) s)
      as [j s'] eqn:E; cbn [fst] in Hj.
    exists (nth (Z.to_nat j) sample_string 0), s'; split.
    + rewrite getitem_in_range by exact Hj; reflexivity.
    + apply nth_In; lia.
  - destruct (urandom rnd 2 s) as [b s'] eqn:E.
    replace (Z.of_nat (length sample_string) =? 0) with false
      by (symmetry; apply Z.eqb_neq; lia).
    pose proof (Z.mod_pos_bound (from_bytes b) _ Hlen) as Hj.
    exists (nth (Z.to_nat (from_bytes b mod Z.of_nat (length sample_string)))
                sample_string 0), s'; split.
    + cbv zeta; rewrite getitem_in_range by exact Hj; reflexivity.
    + apply nth_In; lia.
Qed.

Lemma sample_loop_ok (count : nat) (sample_string chosen : str) (s : state) :
  sample_string <> [] ->
  exists more s',
    sample_loop rnd count sample_string chosen s = (Ok (chosen ++ more), s') /\
    length more = count /\
    Forall (fun c => In c sample_string) more.
Proof.
  intro Hne; revert chosen s.
  induction count as [|count IH]; intros chosen s.
  - exists [], s; rewrite app_nil_r; repeat split; constructor.
  - destruct (draw_ok sample_string s Hne) as (c & s1 & Hd & Hc).
    destruct (IH (chosen ++ [c]) s1) as (more & s' & Hl & Hn & Hall).
    exists (c :: more), s'; split; [|split].
    + cbn [sample_loop]; unfold and_then; rewrite Hd, Hl.
      rewrite <- app_assoc; reflexivity.
    + cbn [length]; lia.
    + constructor; assumption.
Qed.

Lemma random_sample_ok (sample_length : Z) (sample_string : str) (s : state) :
  sample_string <> [] ->
  exists chosen s',
    random_sample rnd sample_length sample_string s = (Ok chosen, s') /\
    Z.of_nat (length chosen) = Z.max 0 sample_length /\
    Forall (fun c => In c sample_string) chosen.
Proof.
  intro Hne; unfold random_sample.
  destruct (sample_loop_ok (Z.to_nat sample_length) sample_string [] s Hne)
    as (more & s' & Hl & Hn & Hall).
  exists more, s'; split; [exact Hl|]; split; [lia|exact Hall].
Qed.

Lemma pool_loop_ok (n : Z) (todo : nat) (i : Z) (pool result : list Z)
      (s : state) :
  Z.of_nat todo + i = n -> 0 <= i -> Z.of_nat (length pool) = n ->
  exists out s',
    pool_loop rnd todo n i pool result s = (Ok out, s') /\
    Permutation out (result ++ firstn todo pool).
Proof.
  revert i pool result s.
  induction todo as [|todo IH]; intros i pool result s Hn Hi Hlen.
  - exists result, s; split; [reflexivity|].
    cbn [firstn]; rewrite app_nil_r; apply Permutation_refl.
  - cbn [pool_loop].
    assert (Hpos : 0 < n - i) by lia.
    pose proof (random_below _ s Hpos) as Hj.
    destruct (randbelow rnd (n - i) s) as [j s1] eqn:E; cbn [fst] in Hj.
    unfold and_then, lift.
    rewrite !getitem_in_range by lia.
    rewrite setitem_in_range by lia.
    replace (Z.to_nat (n - i - 1)) with todo by lia.
    destruct (IH (i + 1) (put pool (Z.to_nat j) (nth todo pool 0))
                 (result ++ [nth (Z.to_nat j) pool 0]) s1)
      as (out & s' & Hrun & Hperm).
    + lia.
    + lia.
    + rewrite put_length by lia; exact Hlen.
    + exists out, s'; split; [exact Hrun|].
      eapply perm_trans; [exact Hperm|].
      rewrite <- app_assoc; apply Permutation_app_head.
      apply Permutation_sym, pool_round; lia.
Qed.

(** Sampling as many items as there are gives the items in another
    order. *)
Lemma sample_all (population : list Z) (s : state) :
  exists out s',
    sample rnd population (Z.of_nat (length population)) s = (Ok out, s') /\
    Permutation out population.
Proof.
  unfold sample.
  replace (0 <=? Z.of_nat (length population)) with true
    by (symmetry; apply Z.leb_le; lia).
  rewrite Z.leb_refl; cbn [andb negb].
  rewrite Nat2Z.id.
  destruct (pool_loop_ok (Z.of_nat (length population)) (length population) 0
                         population [] s) as (out & s' & Hrun & Hperm);
    try lia.
  exists out, s'; split; [exact Hrun|].
  rewrite firstn_all in Hperm; exact Hperm.
Qed.

Lemma part_ok (count : Z) (alphabet password : str) (s : state) :
  alphabet <> [] ->
  exists chosen s',
    part rnd count alphabet password s = (Ok (password ++ chosen), s') /\
    Z.of_nat (length chosen) = Z.max 0 count /\
    Forall (fun c => In c alphabet) chosen.
Proof.
  intro Hne; unfold part.
  destruct (count =? 0) eqn:E.
  - apply Z.eqb_eq in E; subst count.
    exists [], s; rewrite app_nil_r; repeat split; constructor.
  - destruct (random_sample_ok count alphabet s Hne)
      as (chosen & s' & Hrun & Hlen & Hall).
    exists chosen, s'; split; [|split; assumption].
    unfold and_then; rewrite Hrun; reflexivity.
Qed.

(** The password holds, in some order, as many characters of each
    alphabet as [counts] gives, a negative count giving none. *)
Lemma generate_password_ok
      (length lowercase uppercase digits special_characters : Z) (s : state) :
  exists newpass s',
    generate_password rnd length lowercase uppercase digits special_characters s
    = (Ok newpass, s') /\
    let '(a, b, c, d) :=
      counts length lowercase uppercase digits special_characters in
    count_of ascii_lowercase newpass = Z.max 0 a /\
    count_of ascii_uppercase newpass = Z.max 0 b /\
    count_of string_digits newpass = Z.max 0 c /\
    count_of SPECIAL_CHARACTERS newpass = Z.max 0 d /\
    Z.of_nat (List.length newpass)
    = Z.max 0 a + Z.max 0 b + Z.max 0 c + Z.max 0 d /\
    Forall (fun x => In x (ascii_lowercase ++ ascii_uppercase
                             ++ string_digits ++ SPECIAL_CHARACTERS))
           newpass.
Proof.
  unfold generate_password.
  destruct (counts length lowercase uppercase digits special_characters)
    as [[[a b] c] d].
  destruct (part_ok a ascii_lowercase [] s) as (p1 & s1 & H1 & L1 & A1);
    [discriminate|].
  destruct (part_ok b ascii_uppercase ([] ++ p1) s1)
    as (p2 & s2 & H2 & L2 & A2); [discriminate|].
  destruct (part_ok c string_digits (([] ++ p1) ++ p2) s2)
    as (p3 & s3 & H3 & L3 & A3); [discriminate|].
  destruct (part_ok d SPECIAL_CHARACTERS ((([] ++ p1) ++ p2) ++ p3) s3)
    as (p4 & s4 & H4 & L4 & A4); [discriminate|].
  destruct (sample_all (((([] ++ p1) ++ p2) ++ p3) ++ p4) s4)
    as (out & s' & Hs & Hperm).
  exists out, s'; split.
  - unfold and_then at 1; rewrite H1.
    unfold and_then at 1; rewrite H2.
    unfold and_then at 1; rewrite H3.
    unfold and_then at 1; rewrite H4.
    unfold and_then; rewrite Hs; reflexivity.
  - cbn [app] in Hperm.
    rewrite (Permutation_length Hperm).
    rewrite !(count_of_permutation _ _ _ Hperm), !count_of_app, !length_app.
    rewrite (count_of_all _ _ A1), (count_of_all _ _ A2),
      (count_of_all _ _ A3), (count_of_all _ _ A4).
    rewrite
      (count_of_none ascii_lowercase ascii_uppercase _ eq_refl A2),
      (count_of_none ascii_lowercase string_digits _ eq_refl A3),
      (count_of_none ascii_lowercase SPECIAL_CHARACTERS _ eq_refl A4),
      (count_of_none ascii_uppercase ascii_lowercase _ eq_refl A1),
      (count_of_none ascii_uppercase string_digits _ eq_refl A3),
      (count_of_none ascii_uppercase SPECIAL_CHARACTERS _ eq_refl A4),
      (count_of_none string_digits ascii_lowercase _ eq_refl A1),
      (count_of_none string_digits ascii_uppercase _ eq_refl A2),
      (count_of_none string_digits SPECIAL_CHARACTERS _ eq_refl A4),
      (count_of_none SPECIAL_CHARACTERS ascii_lowercase _ eq_refl A1),
      (count_of_none SPECIAL_CHARACTERS ascii_uppercase _ eq_refl A2),
      (count_of_none SPECIAL_CHARACTERS string_digits _ eq_refl A3).
    repeat split; try lia.
    apply (Permutation_Forall (Permutation_sym Hperm)).
    rewrite !Forall_app; repeat split;
      eapply Forall_impl; try eassumption; cbv beta; intros x Hx;
      rewrite !in_app_iff; tauto.
Qed.

End WithRandom.

End PasswordFacts.

Module PasswordMore.
Import Py Password PasswordFacts.

(** X20.  [random_sample] on a string that is not empty returns
    [sample_length] characters, none for a negative [sample_length], and
    every one of them is a character of [sample_string]; this holds with
    the [secrets] module and without it. *)
Theorem random_sample_draws_from_string
        (state : Type) (rnd : source state)
        (sample_length : Z) (sample_string : str) (s : state) :
  below (system_randbelow rnd) ->
  sample_string <> [] ->
  exists chosen s',
    random_sample rnd sample_length sample_string s = (Ok chosen, s') /\
    Z.of_nat (length chosen) = Z.max 0 sample_length /\
    Forall (fun c => In c sample_string) chosen.
Proof.
  intros Hsys Hne.
  destruct (sample_loop_ok state rnd Hsys (Z.to_nat sample_length)
                           sample_string [] s Hne)
    as (more & s' & Hrun & Hlen & Hall).
  exists more, s'; split; [exact Hrun|]; split; [lia|exact Hall].
Qed.

(** Five characters of the digits, without the [secrets] module. *)
Lemma random_sample_draws_from_string_witness :
  exists chosen s',
    random_sample (counter_source false) 5 string_digits 0 = (Ok chosen, s') /\
    Z.of_nat (length chosen) = Z.max 0 5 /\
    Forall (fun c => In c string_digits) chosen.
Proof.
  refine (random_sample_draws_from_string Z (counter_source false) 5
            string_digits 0 _ _).
  - intros n s Hn; unfold counter_source, counter_below; cbn [system_randbelow fst].
    apply Z.mod_pos_bound; exact Hn.
  - discriminate.
Defined.

(** X21.  [random_sample] with a [sample_length] that is not positive
    returns the empty string without drawing, whatever the string.  With
    a positive [sample_length] and an empty [sample_string] it raises:
    [IndexError] from [secrets.choice], or [ZeroDivisionError] from the
    fallback, after it has read [os.urandom] once. *)
Theorem random_sample_of_nothing
        (state : Type) (rnd : source state)
        (sample_length : Z) (sample_string : str) (s : state) :
  (sample_length <= 0 ->
   random_sample rnd sample_length sample_string s = (Ok [], s)) /\
  (0 < sample_length -> sample_string = [] ->
   random_sample rnd sample_length sample_string s
   = if has_secrets rnd
     then (Fail (IndexError (lit "Cannot choose from an empty sequence")), s)
     else (Fail (ZeroDivisionError (lit "integer modulo by zero")),
           snd (urandom rnd 2 s))).
Proof.
  unfold random_sample; split.
  - intro H; replace (Z.to_nat sample_length) with O by lia; reflexivity.
  - intros H ->.
    destruct (Z.to_nat sample_length) as [|count] eqn:E; [lia|].
    cbn [sample_loop]; unfold and_then, draw.
    destruct (has_secrets rnd); [reflexivity|].
    destruct (urandom rnd 2 s) as [b s']; reflexivity.
Qed.

(** Three characters of the empty string, with the [secrets] module. *)
Lemma random_sample_of_nothing_witness :
  random_sample (counter_source true) 3 [] 0
  = (Fail (IndexError (lit "Cannot choose from an empty sequence")), 0).
Proof.
  refine (proj2 (random_sample_of_nothing Z (counter_source true) 3 [] 0) _ _).
  - lia.
  - reflexivity.
Defined.

(** X22.  Called with all four counts zero, [generate_password] returns
    a password of [length] characters, of [64] when [length] is not
    positive: a quarter of it (rounded down) lowercase letters, a quarter
    uppercase letters, a quarter digits, and the rest special
    characters. *)
Theorem default_password_is_split_evenly
        (state : Type) (rnd : source state) (length : Z) (s : state) :
  below (system_randbelow rnd) ->
  below (randbelow rnd) ->
  let total := if length <=? 0 then 64 else length in
  exists newpass s',
    generate_password rnd length 0 0 0 0 s = (Ok newpass, s') /\
    Z.of_nat (List.length newpass) = total /\
    count_of ascii_lowercase newpass = total / 4 /\
    count_of ascii_uppercase newpass = total / 4 /\
    count_of string_digits newpass = total / 4 /\
    count_of SPECIAL_CHARACTERS newpass = total / 4 + total mod 4.
Proof.
  intros Hsys Hrb total.
  destruct (generate_password_ok state rnd Hsys Hrb length 0 0 0 0 s)
    as (newpass & s' & Hrun & H).
  exists newpass, s'; split; [exact Hrun|].
  unfold counts in H; cbn [Z.eqb andb] in H; fold total in H.
  assert (Hpos : 0 < total).
  { unfold total; destruct (length <=? 0) eqn:E; [lia|].
    apply Z.leb_gt in E; exact E. }
  pose proof (Z.div_pos total 4 ltac:(lia) ltac:(lia)) as Hq.
  pose proof (Z.mod_pos_bound total 4 ltac:(lia)) as Hr.
  pose proof (Z.div_mod total 4 ltac:(lia)) as Hdm.
  destruct H as (Ha & Hb & Hc & Hd & Hlen & _).
  repeat split; lia.
Qed.

(** A password of ten characters. *)
Lemma default_password_is_split_evenly_witness :
  exists newpass s',
    generate_password (counter_source true) 10 0 0 0 0 0 = (Ok newpass, s') /\
    Z.of_nat (List.length newpass) = 10 /\
    count_of ascii_lowercase newpass = 10 / 4 /\
    count_of ascii_uppercase newpass = 10 / 4 /\
    count_of string_digits newpass = 10 / 4 /\
    count_of SPECIAL_CHARACTERS newpass = 10 / 4 + 10 mod 4.
Proof.
  refine (default_password_is_split_evenly Z (counter_source true) 10 0 _ _).
  - intros n s Hn; unfold counter_source, counter_below; cbn [system_randbelow fst].
    apply Z.mod_pos_bound; exact Hn.
  - intros n s Hn; unfold counter_source, counter_below; cbn [randbelow fst].
    apply Z.mod_pos_bound; exact Hn.
Defined.

(** X23.  When one of the four counts is not zero, [length] is ignored:
    the password holds exactly the requested number of characters of
    each kind, a negative count giving none, and nothing else. *)
Theorem given_counts_override_length
        (state : Type) (rnd : source state)
        (length length' lowercase uppercase digits special_characters : Z)
        (s : state) :
  below (system_randbelow rnd) ->
  below (randbelow rnd) ->
  lowercase <> 0 \/ uppercase <> 0 \/ digits <> 0
  \/ special_characters <> 0 ->
  generate_password rnd length lowercase uppercase digits special_characters s
  = generate_password rnd length' lowercase uppercase digits
                      special_characters s /\
  exists newpass s',
    generate_password rnd length lowercase uppercase digits
                      special_characters s = (Ok newpass, s') /\
    count_of ascii_lowercase newpass = Z.max 0 lowercase /\
    count_of ascii_uppercase newpass = Z.max 0 uppercase /\
    count_of string_digits newpass = Z.max 0 digits /\
    count_of SPECIAL_CHARACTERS newpass = Z.max 0 special_characters /\
    Z.of_nat (List.length newpass)
    = Z.max 0 lowercase + Z.max 0 uppercase + Z.max 0 digits
      + Z.max 0 special_characters.
Proof.
  intros Hsys Hrb Hsome.
  assert (Hc : forall l,
             counts l lowercase uppercase digits special_characters
             = (lowercase, uppercase, digits, special_characters)).
  { intro l; unfold counts.
    destruct (lowercase =? 0) eqn:E1; [|reflexivity].
    destruct (uppercase =? 0) eqn:E2; [|reflexivity].
    destruct (digits =? 0) eqn:E3; [|reflexivity].
    destruct (special_characters =? 0) eqn:E4; [|reflexivity].
    apply Z.eqb_eq in E1, E2, E3, E4; lia. }
  split.
  - unfold generate_password; rewrite (Hc length), (Hc length'); reflexivity.
  - destruct (generate_password_ok state rnd Hsys Hrb length lowercase
                uppercase digits special_characters s)
      as (newpass & s' & Hrun & H).
    rewrite (Hc length) in H.
    destruct H as (Ha & Hb & Hd & He & Hlen & _).
    exists newpass, s'; repeat split; assumption.
Qed.

(** Two digits, a negative number of lowercase letters, and a [length]
    of a hundred. *)
Lemma given_counts_override_length_witness :
  generate_password (counter_source true) 100 (-1) 0 2 0 0
  = generate_password (counter_source true) 8 (-1) 0 2 0 0.
Proof.
  refine (proj1 (given_counts_override_length Z (counter_source true)
                   100 8 (-1) 0 2 0 0 _ _ _)).
  - intros n s Hn; unfold counter_source, counter_below; cbn [system_randbelow fst].
    apply Z.mod_pos_bound; exact Hn.
  - intros n s Hn; unfold counter_source, counter_below; cbn [randbelow fst].
    apply Z.mod_pos_bound; exact Hn.
  - left; lia.
Defined.

(** X24.  Whatever its arguments, [generate_password] returns: it does
    not raise, and every character of the password is a lowercase or
    uppercase ASCII letter, a digit, or one of [SPECIAL_CHARACTERS]. *)
Theorem password_is_over_the_four_alphabets
        (state : Type) (rnd : source state)
        (length lowercase uppercase digits special_characters : Z)
        (s : state) :
  below (system_randbelow rnd) ->
  below (randbelow rnd) ->
  exists newpass s',
    generate_password rnd length lowercase uppercase digits
                      special_characters s = (Ok newpass, s') /\
    Forall (fun x => In x (ascii_lowercase ++ ascii_uppercase
                             ++ string_digits ++ SPECIAL_CHARACTERS))
           newpass.
Proof.
  intros Hsys Hrb.
  destruct (generate_password_ok state rnd Hsys Hrb length lowercase
              uppercase digits special_characters s)
    as (newpass & s' & Hrun & H).
  exists newpass, s'; split; [exact Hrun|].
  destruct (counts length lowercase uppercase digits special_characters)
    as [[[a b] c] d].
  apply H.
Qed.

(** The default call. *)
Lemma password_is_over_the_four_alphabets_witness :
  exists newpass s',
    generate_password (counter_source true) 64 0 0 0 0 7 = (Ok newpass, s') /\
    Forall (fun x => In x (ascii_lowercase ++ ascii_uppercase
                             ++ string_digits ++ SPECIAL_CHARACTERS))
           newpass.
Proof.
  refine (password_is_over_the_four_alphabets Z (counter_source true)
            64 0 0 0 0 7 _ _).
  - intros n s Hn; unfold counter_source, counter_below; cbn [system_randbelow fst].
    apply Z.mod_pos_bound; exact Hn.
  - intros n s Hn; unfold counter_source, counter_below; cbn [randbelow fst].
    apply Z.mod_pos_bound; exact Hn.
Defined.

End PasswordMore.

(* ================================================================== *)
(** * Properties of the conversions *)

Module Base64Facts.
Import Py Binascii Convert.

Lemma lor_shiftl (x y k : Z) :
  0 <= k -> 0 <= y < 2 ^ k -> Z.lor (Z.shiftl x k) y = x * 2 ^ k + y.
Proof.
  intros Hk Hy.
  rewrite Z.shiftl_mul_pow2 by exact Hk.
  rewrite <- Z.add_lor_land.
  replace (Z.land (x * 2 ^ k) y) with 0; [lia|].
  symmetry; apply Z.bits_inj'; intros n Hn.
  rewrite Z.land_spec, Z.bits_0.
  destruct (Z.lt_ge_cases n k) as [Hlt|Hge].
  - rewrite Z.mul_pow2_bits_low by exact Hlt; reflexivity.
  - replace (Z.testbit y n) with false; [apply andb_false_r|].
    symmetry.
    destruct (Z.eq_dec y 0) as [->|Hy0]; [apply Z.bits_0|].
    apply Z.bits_above_log2; [lia|].
    apply Z.lt_le_trans with k; [|exact Hge].
    apply Z.log2_lt_pow2; lia.
Qed.

Lemma leftchar_next (leftchar byte : Z) :
  0 <= byte < 256 ->
  Z.land (Z.lor (Z.shiftl leftchar 8) byte) 4294967295 = (leftchar * 256 + byte) mod 4294967296.
Proof.
  intro H.
  rewrite lor_shiftl by (simpl; lia).
  change 4294967295 with (Z.ones 32).
  rewrite Z.land_ones by lia; reflexivity.
Qed.

Lemma sextet_at (x k : Z) :
  0 <= k -> Z.land (Z.shiftr x k) 63 = (x / 2 ^ k) mod 64.
Proof.
  intro Hk; rewrite Z.shiftr_div_pow2 by exact Hk.
  change 63 with (Z.ones 6); rewrite Z.land_ones by lia; reflexivity.
Qed.

Lemma b2a_byte (byte : Z) (rest : bytes) (leftchar leftbits : Z) (out : str) :
  0 <= byte < 256 ->
  b2a_loop (byte :: rest) leftchar leftbits out
  = let l := (leftchar * 256 + byte) mod 4294967296 in
    let (written, leftbits') :=
      b2a_ready (Z.to_nat (leftbits + 8)) l (leftbits + 8)
    in b2a_loop rest l leftbits' (out ++ written).
Proof.
  intro H; cbn [b2a_loop]; rewrite leftchar_next by exact H; reflexivity.
Qed.

Lemma b2a_ready_8 (l : Z) :
  b2a_ready (Z.to_nat (0 + 8)) l (0 + 8) = ([char_of ((l / 4) mod 64)], 2).
Proof.
  change (Z.to_nat (0 + 8)) with 8%nat; cbn [b2a_ready].
  change (6 <=? 0 + 8) with true; change (6 <=? 0 + 8 - 6) with false.
  cbv iota; rewrite sextet_at by lia; reflexivity.
Qed.

Lemma b2a_ready_10 (l : Z) :
  b2a_ready (Z.to_nat (2 + 8)) l (2 + 8) = ([char_of ((l / 16) mod 64)], 4).
Proof.
  change (Z.to_nat (2 + 8)) with 10%nat; cbn [b2a_ready].
  change (6 <=? 2 + 8) with true; change (6 <=? 2 + 8 - 6) with false.
  cbv iota; rewrite sextet_at by lia; reflexivity.
Qed.

Lemma b2a_ready_12 (l : Z) :
  b2a_ready (Z.to_nat (4 + 8)) l (4 + 8)
  = ([char_of ((l / 64) mod 64); char_of (l mod 64)], 0).
Proof.
  change (Z.to_nat (4 + 8)) with 12%nat; cbn [b2a_ready].
  change (6 <=? 4 + 8) with true; change (6 <=? 4 + 8 - 6) with true.
  change (6 <=? 4 + 8 - 6 - 6) with false.
  cbv iota; rewrite !sextet_at by lia.
  change (2 ^ (4 + 8 - 6 - 6)) with 1; rewrite Z.div_1_r; reflexivity.
Qed.


Lemma b2a_triple (a b c : Z) (rest : bytes) (l : Z) (out : str) :
  0 <= a < 256 -> 0 <= b < 256 -> 0 <= c < 256 ->
  exists l',
    b2a_loop (a :: b :: c :: rest) l 0 out
    = b2a_loop rest l' 0
               (out ++ [char_of (a / 4); char_of (a mod 4 * 16 + b / 16);
                        char_of (b mod 16 * 4 + c / 64); char_of (c mod 64)]).
Proof.
  intros Ha Hb Hc.
  rewrite b2a_byte by exact Ha; cbv zeta; rewrite b2a_ready_8.
  rewrite b2a_byte by exact Hb; cbv zeta; rewrite b2a_ready_10.
  rewrite b2a_byte by exact Hc; cbv zeta; rewrite b2a_ready_12.
  eexists; rewrite <- !app_assoc; cbn [app].
  do 2 f_equal.
  do 3 (f_equal; [f_equal; Z.div_mod_to_equations; lia|]).
  do 2 f_equal; Z.div_mod_to_equations; lia.
Qed.

Lemma b2a_single (a : Z) (l : Z) (out : str) :
  0 <= a < 256 ->
  b2a_loop [a] l 0 out
  = out ++ [char_of (a / 4); char_of (a mod 4 * 16); 61; 61].
Proof.
  intros Ha.
  rewrite b2a_byte by exact Ha; cbv zeta; rewrite b2a_ready_8.
  cbn [b2a_loop]; change (2 =? 2) with true; cbv iota.
  rewrite <- !app_assoc; cbn [app]; f_equal.
  rewrite Z.shiftl_mul_pow2 by lia.
  change 3 with (Z.ones 2); rewrite Z.land_ones by lia.
  change (2 ^ 4) with 16; change (2 ^ 2) with 4.
  f_equal; [f_equal; Z.div_mod_to_equations; lia|].
  f_equal; f_equal; Z.div_mod_to_equations; lia.
Qed.

Lemma b2a_pair (a b : Z) (l : Z) (out : str) :
  0 <= a < 256 -> 0 <= b < 256 ->
  b2a_loop [a; b] l 0 out
  = out ++ [char_of (a / 4); char_of (a mod 4 * 16 + b / 16);
            char_of (b mod 16 * 4); 61].
Proof.
  intros Ha Hb.
  rewrite b2a_byte by exact Ha; cbv zeta; rewrite b2a_ready_8.
  rewrite b2a_byte by exact Hb; cbv zeta; rewrite b2a_ready_10.
  cbn [b2a_loop]; change (4 =? 2) with false; change (4 =? 4) with true.
  cbv iota.
  rewrite <- !app_assoc; cbn [app]; f_equal.
  rewrite Z.shiftl_mul_pow2 by lia.
  change 15 with (Z.ones 4); rewrite Z.land_ones by lia.
  change (2 ^ 4) with 16; change (2 ^ 2) with 4.
  do 2 (f_equal; [f_equal; Z.div_mod_to_equations; lia|]).
  f_equal; f_equal; Z.div_mod_to_equations; lia.
Qed.


(** A character of the alphabet: what the reverse table and the two
    translations make of it. *)
Lemma char_of_alphabet (n : Z) :
  0 <= n < 64 ->
  table_a2b_base64 (char_of n) = n /\
  char_of n <> 61 /\
  0 <= char_of n < 128 /\
  urlsafe_decode_translation (char_of n) = char_of n /\
  urlsafe_decode_translation (urlsafe_encode_translation (char_of n))
  = char_of n /\
  urlsafe_encode_translation (char_of n) <> 61 /\
  0 <= urlsafe_encode_translation (char_of n) < 128.
Proof.
  intro H.
  assert (Hm : exists m, (m < 64)%nat /\ n = Z.of_nat m).
  { exists (Z.to_nat n); lia. }
  destruct Hm as (m & Hm & ->); clear H.
  do 64 (destruct m as [|m];
         [vm_compute; repeat split; congruence|]).
  lia.
Qed.

Lemma a2b_pad_low (rest : bytes) (quad_pos leftchar pads : Z) (out : bytes) :
  quad_pos < 2 ->
  a2b_loop (61 :: rest) quad_pos leftchar pads out
  = a2b_loop rest quad_pos leftchar pads out.
Proof.
  intro H; cbn [a2b_loop]; change (61 =? BASE64_PAD) with true; cbv iota.
  replace (2 <=? quad_pos) with false by (symmetry; apply Z.leb_gt; lia).
  reflexivity.
Qed.

Lemma a2b_char (n : Z) (rest : bytes) (quad_pos leftchar pads : Z)
      (out : bytes) :
  0 <= n < 64 ->
  a2b_loop (char_of n :: rest) quad_pos leftchar pads out
  = if quad_pos =? 0 then a2b_loop rest 1 n 0 out
    else if quad_pos =? 1 then
      a2b_loop rest 2 (Z.land n 15) 0
               (out ++ [Z.land (Z.lor (Z.shiftl leftchar 2) (Z.shiftr n 4))
                               255])
    else if quad_pos =? 2 then
      a2b_loop rest 3 (Z.land n 3) 0
               (out ++ [Z.land (Z.lor (Z.shiftl leftchar 4) (Z.shiftr n 2))
                               255])
    else
      a2b_loop rest 0 0 0
               (out ++ [Z.land (Z.lor (Z.shiftl leftchar 6) n) 255]).
Proof.
  intro H; destruct (char_of_alphabet n H) as (Ht & Hp & _).
  cbn [a2b_loop].
  replace (char_of n =? BASE64_PAD) with false
    by (symmetry; apply Z.eqb_neq; exact Hp).
  rewrite Ht.
  replace (64 <=? n) with false by (symmetry; apply Z.leb_gt; lia).
  reflexivity.
Qed.

(** Four characters of the alphabet that encode three bytes. *)
Lemma a2b_quad (a b c : Z) (rest : bytes) (leftchar pads : Z) (out : bytes) :
  0 <= a < 256 -> 0 <= b < 256 -> 0 <= c < 256 ->
  a2b_loop (char_of (a / 4) :: char_of (a mod 4 * 16 + b / 16)
              :: char_of (b mod 16 * 4 + c / 64) :: char_of (c mod 64)
              :: rest) 0 leftchar pads out
  = a2b_loop rest 0 0 0 (out ++ [a; b; c]).
Proof.
  intros Ha Hb Hc.
  do 4 (rewrite a2b_char by (Z.div_mod_to_equations; lia);
        cbn [Z.eqb Pos.eqb]).
  rewrite <- !app_assoc; cbn [app].
  change 15 with (Z.ones 4); change 3 with (Z.ones 2);
    change 255 with (Z.ones 8).
  rewrite !Z.land_ones by lia.
  rewrite !Z.shiftr_div_pow2 by lia.
  change (2 ^ 4) with 16; change (2 ^ 2) with 4; change (2 ^ 8) with 256.
  rewrite !lor_shiftl by (cbn [Z.pow Z.pow_pos Pos.iter Z.mul Pos.mul];
                          Z.div_mod_to_equations; lia).
  change (2 ^ 2) with 4; change (2 ^ 4) with 16; change (2 ^ 6) with 64.
  do 2 f_equal.
  do 2 (f_equal; [Z.div_mod_to_equations; lia|]).
  f_equal; Z.div_mod_to_equations; lia.
Qed.


Lemma a2b_pads_at_0 (j : nat) (leftchar pads : Z) (out : bytes) :
  a2b_loop (repeat 61 j) 0 leftchar pads out = Ok out.
Proof.
  induction j as [|j IH]; [reflexivity|].
  cbn [repeat]; rewrite a2b_pad_low by lia; exact IH.
Qed.

(** After two characters of a quad: two pads end the data, fewer are an
    error. *)
Lemma a2b_pads_at_2 (j : nat) (leftchar : Z) (out : bytes) :
  a2b_loop (repeat 61 j) 2 leftchar 0 out
  = if (2 <=? j)%nat then Ok out
    else Fail (BinasciiError (lit "Incorrect padding")).
Proof.
  destruct j as [|[|j]]; reflexivity.
Qed.

Lemma a2b_pads_at_3 (j : nat) (leftchar : Z) (out : bytes) :
  a2b_loop (repeat 61 j) 3 leftchar 0 out
  = if (1 <=? j)%nat then Ok out
    else Fail (BinasciiError (lit "Incorrect padding")).
Proof.
  destruct j as [|j]; reflexivity.
Qed.

Lemma a2b_single (a : Z) (j : nat) (leftchar pads : Z) (out : bytes) :
  0 <= a < 256 ->
  a2b_loop (char_of (a / 4) :: char_of (a mod 4 * 16) :: repeat 61 j)
           0 leftchar pads out
  = if (2 <=? j)%nat then Ok (out ++ [a])
    else Fail (BinasciiError (lit "Incorrect padding")).
Proof.
  intros Ha.
  do 2 (rewrite a2b_char by (Z.div_mod_to_equations; lia);
        cbn [Z.eqb Pos.eqb]).
  rewrite a2b_pads_at_2.
  replace (Z.land (Z.lor (Z.shiftl (a / 4) 2) (Z.shiftr (a mod 4 * 16) 4)) 255)
    with a; [reflexivity|].
  change 255 with (Z.ones 8); rewrite Z.land_ones by lia.
  rewrite Z.shiftr_div_pow2 by lia; change (2 ^ 4) with 16.
  rewrite lor_shiftl by (change (2 ^ 2) with 4; Z.div_mod_to_equations; lia).
  change (2 ^ 2) with 4; change (2 ^ 8) with 256.
  Z.div_mod_to_equations; lia.
Qed.

Lemma a2b_pair (a b : Z) (j : nat) (leftchar pads : Z) (out : bytes) :
  0 <= a < 256 -> 0 <= b < 256 ->
  a2b_loop (char_of (a / 4) :: char_of (a mod 4 * 16 + b / 16)
              :: char_of (b mod 16 * 4) :: repeat 61 j)
           0 leftchar pads out
  = if (1 <=? j)%nat then Ok (out ++ [a; b])
    else Fail (BinasciiError (lit "Incorrect padding")).
Proof.
  intros Ha Hb.
  do 3 (rewrite a2b_char by (Z.div_mod_to_equations; lia);
        cbn [Z.eqb Pos.eqb]).
  rewrite a2b_pads_at_3.
  rewrite <- !app_assoc; cbn [app].
  change 15 with (Z.ones 4); change 255 with (Z.ones 8).
  rewrite !Z.land_ones by lia.
  rewrite !Z.shiftr_div_pow2 by lia.
  change (2 ^ 4) with 16; change (2 ^ 2) with 4; change (2 ^ 8) with 256.
  rewrite !lor_shiftl by (cbn [Z.pow Z.pow_pos Pos.iter Z.mul Pos.mul];
                          Z.div_mod_to_equations; lia).
  change (2 ^ 2) with 4; change (2 ^ 4) with 16.
  replace ((a / 4 * 4 + (a mod 4 * 16 + b / 16) / 16) mod 256) with a
    by (Z.div_mod_to_equations; lia).
  replace (((a mod 4 * 16 + b / 16) mod 16 * 16 + b mod 16 * 4 / 4) mod 256)
    with b by (Z.div_mod_to_equations; lia).
  reflexivity.
Qed.

Lemma b2a_loop_app (data : bytes) (leftchar leftbits : Z) (out : str) :
  b2a_loop data leftchar leftbits out
  = out ++ b2a_loop data leftchar leftbits [].
Proof.
  revert leftchar leftbits out.
  induction data as [|byte data IH]; intros leftchar leftbits out.
  - cbn [b2a_loop].
    destruct (leftbits =? 2); [reflexivity|].
    destruct (leftbits =? 4); [reflexivity|].
    rewrite app_nil_r; reflexivity.
  - cbn [b2a_loop].
    destruct (b2a_ready _ _ _) as [written leftbits'].
    rewrite IH, (IH _ _ ([] ++ written)), app_assoc; reflexivity.
Qed.

Lemma by_triples (P : bytes -> Prop) :
  P [] -> (forall a, P [a]) -> (forall a b, P [a; b]) ->
  (forall a b c rest, P rest -> P (a :: b :: c :: rest)) ->
  forall data, P data.
Proof.
  intros H0 H1 H2 H3 data.
  assert (H : forall n data, (length data <= n)%nat -> P data).
  { clear data; induction n as [|n IH]; intros data Hlen.
    - destruct data; [exact H0|cbn [length] in Hlen; lia].
    - destruct data as [|a [|b [|c rest]]]; auto.
      apply H3, IH; cbn [length] in Hlen; lia. }
  apply (H (length data)); lia.
Qed.

(** The encoding of [data]: characters of the alphabet, then as many
    pads as complete the last quad.  The decoder gives [data] back when
    at least these pads follow, and refuses fewer. *)
Lemma encoding_shape (data : bytes) :
  Forall is_byte data ->
  forall leftchar,
  exists (body : str) (k : nat),
    b2a_loop data leftchar 0 [] = body ++ repeat 61 k /\
    Forall (fun ch => exists n, 0 <= n < 64 /\ ch = char_of n) body /\
    Z.of_nat k = (- Z.of_nat (length data)) mod 3 /\
    (forall (j : nat) lc p out,
        a2b_loop (body ++ repeat 61 j) 0 lc p out
        = if (k <=? j)%nat then Ok (out ++ data)
          else Fail (BinasciiError (lit "Incorrect padding"))) /\
    (forall (t : bytes) lc p out,
        (0 < k)%nat ->
        a2b_loop (body ++ repeat 61 k ++ t) 0 lc p out = Ok (out ++ data)).
Proof.
  induction data as [| a | a b | a b c rest IH] using by_triples;
    intros Hb leftchar.
  - exists [], 0%nat; repeat split; [constructor| |intros; lia].
    intros j lc p out; cbn [app Nat.leb]; rewrite app_nil_r.
    apply a2b_pads_at_0.
  - inversion_clear Hb as [|? ? Ha _].
    exists [char_of (a / 4); char_of (a mod 4 * 16)], 2%nat.
    split; [rewrite b2a_single by exact Ha; reflexivity|].
    split; [|split; [reflexivity|split]].
    + repeat constructor; eexists; (split; [|reflexivity]);
        unfold is_byte in Ha; Z.div_mod_to_equations; lia.
    + intros j lc p out; cbn [app]; apply a2b_single; exact Ha.
    + intros t lc p out _; cbn [app repeat].
      transitivity (a2b_loop (char_of (a / 4) :: char_of (a mod 4 * 16)
                                :: repeat 61 2) 0 lc p out);
        [|apply a2b_single; exact Ha].
      rewrite !a2b_char by (unfold is_byte in Ha;
                            Z.div_mod_to_equations; lia).
      reflexivity.
  - inversion_clear Hb as [|? ? Ha Hb']; inversion_clear Hb' as [|? ? Hb _].
    exists [char_of (a / 4); char_of (a mod 4 * 16 + b / 16);
            char_of (b mod 16 * 4)], 1%nat.
    split; [rewrite b2a_pair by assumption; reflexivity|].
    split; [|split; [reflexivity|split]].
    + repeat constructor; eexists; (split; [|reflexivity]);
        unfold is_byte in Ha, Hb; Z.div_mod_to_equations; lia.
    + intros j lc p out; cbn [app]; apply a2b_pair; assumption.
    + intros t lc p out _; cbn [app repeat].
      transitivity (a2b_loop (char_of (a / 4)
                                :: char_of (a mod 4 * 16 + b / 16)
                                :: char_of (b mod 16 * 4) :: repeat 61 1)
                             0 lc p out);
        [|apply a2b_pair; assumption].
      rewrite !a2b_char by (unfold is_byte in Ha, Hb;
                            Z.div_mod_to_equations; lia).
      reflexivity.
  - inversion_clear Hb as [|? ? Ha Hb']; inversion_clear Hb' as [|? ? Hb Hc'];
      inversion_clear Hc' as [|? ? Hc Hrest].
    destruct (b2a_triple a b c rest leftchar [] Ha Hb Hc) as [l' Hl'].
    destruct (IH Hrest l') as (body & k & Henc & Hbody & Hk & Hdec & Htail).
    exists (char_of (a / 4) :: char_of (a mod 4 * 16 + b / 16)
              :: char_of (b mod 16 * 4 + c / 64) :: char_of (c mod 64)
              :: body), k.
    split; [|split; [|split; [|split]]].
    + rewrite Hl', b2a_loop_app, Henc; reflexivity.
    + repeat (constructor;
              [eexists; (split; [|reflexivity]);
               unfold is_byte in Ha, Hb, Hc; Z.div_mod_to_equations; lia|]).
      exact Hbody.
    + rewrite Hk; cbn [length]; Z.div_mod_to_equations; lia.
    + intros j lc p out; cbn [app].
      rewrite a2b_quad by assumption.
      rewrite Hdec, <- app_assoc; reflexivity.
    + intros t lc p out Hpos; cbn [app].
      rewrite a2b_quad by assumption.
      rewrite Htail by exact Hpos; rewrite <- app_assoc; reflexivity.
Qed.

(** A character the decoder passes over can be put anywhere. *)
Lemma a2b_loop_ignores (c : Z) (s1 s2 : bytes) :
  c <> 61 -> 64 <= table_a2b_base64 c ->
  forall quad_pos leftchar pads out,
    a2b_loop (s1 ++ c :: s2) quad_pos leftchar pads out
    = a2b_loop (s1 ++ s2) quad_pos leftchar pads out.
Proof.
  intros Hp Ht.
  induction s1 as [|x s1 IH]; intros quad_pos leftchar pads out.
  - cbn [app a2b_loop].
    replace (c =? BASE64_PAD) with false
      by (symmetry; apply Z.eqb_neq; exact Hp).
    replace (64 <=? table_a2b_base64 c) with true
      by (symmetry; apply Z.leb_le; exact Ht).
    reflexivity.
  - cbn [app a2b_loop].
    repeat match goal with
           | |- context [if ?b then _ else _] => destruct b
           end; try reflexivity; apply IH.
Qed.

Lemma ascii_text (s : str) :
  Forall (fun c => c < 128) s -> bytes_from_decode_data s = Ok s.
Proof.
  intro H; unfold bytes_from_decode_data.
  replace (forallb (fun c => c <? 128) s) with true; [reflexivity|].
  symmetry; apply forallb_forall; rewrite Forall_forall in H.
  intros c Hc; apply Z.ltb_lt, H, Hc.
Qed.

(** A text of the alphabet and pads, in the standard or in the URL-safe
    alphabet, followed by ASCII text: what [urlsafe_b64decode] hands to
    the decoder. *)
Lemma urlsafe_b64decode_text (body : str) (k : nat) (t : str) :
  Forall (fun ch => exists n, 0 <= n < 64 /\ ch = char_of n) body ->
  Forall (fun c => c < 128) t ->
  urlsafe_b64decode (body ++ repeat 61 k ++ t)
  = a2b_base64 (body ++ repeat 61 k ++ map urlsafe_decode_translation t) /\
  urlsafe_b64decode (urlsafe body ++ repeat 61 k ++ t)
  = a2b_base64 (body ++ repeat 61 k ++ map urlsafe_decode_translation t).
Proof.
  intros Hbody Ht.
  assert (Hpads : Forall (fun c => c < 128) (repeat 61 k)).
  { apply Forall_forall; intros c Hc; apply repeat_spec in Hc; lia. }
  assert (Hmap : map urlsafe_decode_translation (repeat 61 k) = repeat 61 k).
  { rewrite map_repeat; reflexivity. }
  unfold urlsafe_b64decode, b64decode; split.
  - rewrite ascii_text.
    + cbn [bind]; rewrite !map_app, Hmap; do 2 f_equal.
      induction Hbody as [|ch body (n & Hn & ->) _ IH]; [reflexivity|].
      cbn [map]; rewrite IH.
      destruct (char_of_alphabet n Hn) as (_ & _ & _ & -> & _); reflexivity.
    + rewrite !Forall_app; repeat split; try assumption.
      eapply Forall_impl; [|exact Hbody].
      intros ch (n & Hn & ->); apply (char_of_alphabet n Hn).
  - rewrite ascii_text.
    + cbn [bind]; rewrite !map_app, Hmap; do 2 f_equal.
      induction Hbody as [|ch body (n & Hn & ->) _ IH]; [reflexivity|].
      cbn [map urlsafe]; unfold urlsafe in IH; rewrite IH.
      destruct (char_of_alphabet n Hn) as (_ & _ & _ & _ & -> & _).
      reflexivity.
    + rewrite !Forall_app; repeat split; try assumption.
      unfold urlsafe; rewrite Forall_map.
      eapply Forall_impl; [|exact Hbody].
      intros ch (n & Hn & ->); apply (char_of_alphabet n Hn).
Qed.

Lemma urlsafe_text (body : str) (k : nat) :
  urlsafe (body ++ repeat 61 k) = urlsafe body ++ repeat 61 k.
Proof. unfold urlsafe; rewrite map_app, map_repeat; reflexivity. Qed.

Lemma rstrip_pad_text (body : str) (k : nat) :
  Forall (fun ch => exists n, 0 <= n < 64 /\ ch = char_of n) body ->
  rstrip_pad (body ++ repeat 61 k) = body /\
  rstrip_pad (urlsafe body ++ repeat 61 k) = urlsafe body.
Proof.
  intro Hbody; unfold rstrip_pad; split;
    apply Base32Facts.rstrip_pad_padding.
  - eapply Forall_impl; [|exact Hbody].
    intros ch (n & Hn & ->); apply (char_of_alphabet n Hn).
  - unfold urlsafe; rewrite Forall_map.
    eapply Forall_impl; [|exact Hbody].
    intros ch (n & Hn & ->); apply (char_of_alphabet n Hn).
Qed.

Lemma from_bytes_snoc (b : bytes) (x : Z) :
  from_bytes (b ++ [x]) = from_bytes b * 256 + x.
Proof. unfold from_bytes; rewrite fold_left_app; reflexivity. Qed.

Lemma from_bytes_be_bytes (n : nat) (x : Z) :
  0 <= x < 256 ^ Z.of_nat n -> from_bytes (be_bytes n x) = x.
Proof.
  revert x; induction n as [|n IH]; intros x Hx.
  - cbn [be_bytes]; change (256 ^ Z.of_nat 0) with 1 in Hx.
    unfold from_bytes; cbn [fold_left]; lia.
  - cbn [be_bytes]; rewrite from_bytes_snoc, IH.
    + Z.div_mod_to_equations; lia.
    + rewrite Nat2Z.inj_succ, Z.pow_succ_r in Hx by lia.
      Z.div_mod_to_equations; nia.
Qed.


(** [url_safe_str_to_bytes] on an encoding without its pads, or with any
    number of them. *)
Lemma unpadded_decodes (b : bytes) (j : nat) :
  Forall is_byte b ->
  url_safe_str_to_bytes (rstrip_pad (bytes_to_base64 b) ++ repeat 61 j)
  = Ok b /\
  url_safe_str_to_bytes (rstrip_pad (urlsafe (bytes_to_base64 b))
                           ++ repeat 61 j)
  = Ok b.
Proof.
  intro Hb.
  destruct (encoding_shape b Hb 0) as (body & k & Henc & Hbody & Hk & Hdec & _).
  unfold bytes_to_base64, b64encode, b2a_base64; rewrite Henc.
  rewrite urlsafe_text.
  destruct (rstrip_pad_text body k Hbody) as [-> ->].
  unfold url_safe_str_to_bytes.
  change (lit "==") with (repeat 61 2).
  rewrite <- !app_assoc, <- !repeat_app.
  destruct (urlsafe_b64decode_text body (j + 2) [] Hbody (Forall_nil _))
    as [H1 H2].
  cbn [map] in H1, H2; rewrite !app_nil_r in H1, H2.
  rewrite H1, H2; unfold a2b_base64; rewrite Hdec.
  replace (k <=? j + 2)%nat with true; [split; reflexivity|].
  symmetry; apply Nat.leb_le.
  assert (0 <= (- Z.of_nat (length b)) mod 3 < 3)
    by (apply Z.mod_pos_bound; lia).
  lia.
Qed.

End Base64Facts.

Module ConvertMore.
Import Py Binascii Convert Base64Facts.

(** X25.  Decoding an encoding gives the bytes back:
    [base64_to_bytes(bytes_to_base64(b))] is [b], and so is the decoding
    of the same text written in the URL-safe alphabet. *)
Theorem base64_round_trip (b : bytes) :
  Forall is_byte b ->
  base64_to_bytes (bytes_to_base64 b) = Ok b /\
  base64_to_bytes (urlsafe (bytes_to_base64 b)) = Ok b.
Proof.
  intro Hb.
  destruct (encoding_shape b Hb 0) as (body & k & Henc & Hbody & Hk & Hdec & _).
  unfold bytes_to_base64, b64encode, b2a_base64; rewrite Henc.
  rewrite urlsafe_text.
  destruct (urlsafe_b64decode_text body k [] Hbody (Forall_nil _)) as [H1 H2].
  cbn [map] in H1, H2; rewrite !app_nil_r in H1, H2.
  unfold base64_to_bytes; rewrite H1, H2.
  unfold a2b_base64; rewrite Hdec, Nat.leb_refl; split; reflexivity.
Qed.

(** Four bytes, of which the encoding has [+] and [/]. *)
Lemma base64_round_trip_witness :
  base64_to_bytes (urlsafe (bytes_to_base64 [251; 255; 190; 7]))
  = Ok [251; 255; 190; 7].
Proof.
  refine (proj2 (base64_round_trip [251; 255; 190; 7] _)).
  repeat constructor; unfold is_byte; lia.
Defined.

(** X26.  [url_safe_str_to_bytes] does not need the padding: it decodes
    an encoding, in either alphabet, from which the pads were stripped,
    and also one that is followed by any number of pads. *)
Theorem url_safe_str_to_bytes_without_padding (b : bytes) (j : nat) :
  Forall is_byte b ->
  url_safe_str_to_bytes (rstrip_pad (bytes_to_base64 b) ++ repeat 61 j)
  = Ok b /\
  url_safe_str_to_bytes (rstrip_pad (urlsafe (bytes_to_base64 b))
                           ++ repeat 61 j)
  = Ok b.
Proof.
  intro Hb.
  destruct (encoding_shape b Hb 0) as (body & k & Henc & Hbody & Hk & Hdec & _).
  unfold bytes_to_base64, b64encode, b2a_base64; rewrite Henc.
  rewrite urlsafe_text.
  destruct (rstrip_pad_text body k Hbody) as [-> ->].
  unfold url_safe_str_to_bytes.
  change (lit "==") with (repeat 61 2).
  rewrite <- !app_assoc, <- !repeat_app.
  destruct (urlsafe_b64decode_text body (j + 2) [] Hbody (Forall_nil _))
    as [H1 H2].
  cbn [map] in H1, H2; rewrite !app_nil_r in H1, H2.
  rewrite H1, H2; unfold a2b_base64; rewrite Hdec.
  replace (k <=? j + 2)%nat with true; [split; reflexivity|].
  symmetry; apply Nat.leb_le.
  assert (0 <= (- Z.of_nat (length b)) mod 3 < 3)
    by (apply Z.mod_pos_bound; lia).
  lia.
Qed.

(** One byte: two characters, no pad. *)
Lemma url_safe_str_to_bytes_without_padding_witness :
  url_safe_str_to_bytes (rstrip_pad (urlsafe (bytes_to_base64 [255]))
                           ++ repeat 61 0)
  = Ok [255].
Proof.
  refine (proj2 (url_safe_str_to_bytes_without_padding [255] 0 _)).
  repeat constructor; unfold is_byte; lia.
Defined.

(** X27.  [base64_to_bytes] does need it: on an encoding from which the
    pads were stripped it raises [binascii.Error] (Incorrect padding)
    whenever the number of bytes is not a multiple of three. *)
Theorem base64_to_bytes_needs_padding (b : bytes) :
  Forall is_byte b ->
  Z.of_nat (length b) mod 3 <> 0 ->
  base64_to_bytes (rstrip_pad (bytes_to_base64 b))
  = Fail (BinasciiError (lit "Incorrect padding")) /\
  base64_to_bytes (rstrip_pad (urlsafe (bytes_to_base64 b)))
  = Fail (BinasciiError (lit "Incorrect padding")).
Proof.
  intros Hb Hlen.
  destruct (encoding_shape b Hb 0) as (body & k & Henc & Hbody & Hk & Hdec & _).
  unfold bytes_to_base64, b64encode, b2a_base64; rewrite Henc.
  rewrite urlsafe_text.
  destruct (rstrip_pad_text body k Hbody) as [-> ->].
  destruct (urlsafe_b64decode_text body 0 [] Hbody (Forall_nil _)) as [H1 H2].
  cbn [map repeat app] in H1, H2.
  repeat rewrite app_nil_r in H1; repeat rewrite app_nil_r in H2.
  unfold base64_to_bytes; rewrite H1, H2.
  unfold a2b_base64.
  specialize (Hdec 0%nat 0 0 []); cbn [repeat] in Hdec.
  rewrite app_nil_r in Hdec; rewrite Hdec.
  replace (k <=? 0)%nat with false; [split; reflexivity|].
  symmetry; apply Nat.leb_gt.
  assert (k <> 0%nat); [|lia].
  intros ->; change (Z.of_nat 0) with 0 in Hk.
  symmetry in Hk; revert Hk Hlen.
  generalize (Z.of_nat (length b)); intros n Hk Hlen.
  Z.div_mod_to_equations; lia.
Qed.

(** One byte. *)
Lemma base64_to_bytes_needs_padding_witness :
  base64_to_bytes (rstrip_pad (bytes_to_base64 [255]))
  = Fail (BinasciiError (lit "Incorrect padding")).
Proof.
  refine (proj1 (base64_to_bytes_needs_padding [255] _ _)).
  - repeat constructor; unfold is_byte; lia.
  - cbn [length]; discriminate.
Defined.

(** X28.  The decoders do not validate: an ASCII character that is not
    the pad and is in neither alphabet (a space, a line break) is passed
    over wherever it stands, in any text. *)
Theorem other_characters_are_ignored (s1 s2 : str) (c : Z) :
  ignored c = true ->
  base64_to_bytes (s1 ++ c :: s2) = base64_to_bytes (s1 ++ s2) /\
  url_safe_str_to_bytes (s1 ++ c :: s2) = url_safe_str_to_bytes (s1 ++ s2) /\
  url_safe_str_to_int (s1 ++ c :: s2) = url_safe_str_to_int (s1 ++ s2).
Proof.
  unfold ignored; intro H.
  apply andb_prop in H; destruct H as [H Ht].
  apply andb_prop in H; destruct H as [Ha Hp].
  apply Z.leb_le in Ht.
  apply negb_true_iff, Z.eqb_neq in Hp.
  assert (Hp' : urlsafe_decode_translation c <> 61).
  { unfold urlsafe_decode_translation.
    destruct (c =? 45); [discriminate|].
    destruct (c =? 95); [discriminate|exact Hp]. }
  assert (Hany : forall t,
             urlsafe_b64decode (s1 ++ c :: t) = urlsafe_b64decode (s1 ++ t)).
  { intro t; unfold urlsafe_b64decode, bytes_from_decode_data.
    rewrite !forallb_app; cbn [forallb]; rewrite Ha; cbn [andb].
    destruct (forallb _ s1 && forallb _ t); [|reflexivity].
    cbn [bind]; rewrite !map_app; cbn [map].
    apply a2b_loop_ignores; assumption. }
  assert (Hsafe : url_safe_str_to_bytes (s1 ++ c :: s2)
                  = url_safe_str_to_bytes (s1 ++ s2)).
  { unfold url_safe_str_to_bytes.
    rewrite <- !app_assoc, <- app_comm_cons; apply Hany. }
  split; [apply Hany|]; split; [exact Hsafe|].
  unfold url_safe_str_to_int; rewrite Hsafe; reflexivity.
Qed.

(** A line break inside an encoding. *)
Lemma other_characters_are_ignored_witness :
  base64_to_bytes (lit "AQID" ++ 10 :: lit "BA==")
  = base64_to_bytes (lit "AQID" ++ lit "BA==").
Proof.
  refine (proj1 (other_characters_are_ignored (lit "AQID") (lit "BA==") 10 _)).
  reflexivity.
Defined.

(** X29.  An integer written with [to_bytes] and encoded is read back
    by [url_safe_str_to_int] from the encoding without its pads. *)
Theorem url_safe_str_to_int_round_trip (n : nat) (x : Z) (b : bytes) :
  to_bytes n x = Ok b ->
  url_safe_str_to_int (rstrip_pad (urlsafe (bytes_to_base64 b))) = Ok x.
Proof.
  unfold to_bytes; intro H.
  destruct (x <? 0) eqn:E1; [discriminate|].
  destruct (256 ^ Z.of_nat n <=? x) eqn:E2; [discriminate|].
  injection H as <-.
  apply Z.ltb_ge in E1; apply Z.leb_gt in E2.
  unfold url_safe_str_to_int.
  pose proof (proj2 (unpadded_decodes (be_bytes n x) 0
                       (BytesFacts.be_bytes_range n x))) as Hd.
  cbn [repeat] in Hd; rewrite app_nil_r in Hd; rewrite Hd.
  cbn [bind]; unfold bytes_to_int.
  rewrite from_bytes_be_bytes by lia; reflexivity.
Qed.

(** The integer [65537] on four bytes. *)
Lemma url_safe_str_to_int_round_trip_witness :
  url_safe_str_to_int (rstrip_pad (urlsafe (bytes_to_base64 [0; 1; 0; 1])))
  = Ok 65537.
Proof.
  refine (url_safe_str_to_int_round_trip 4 65537 [0; 1; 0; 1] _).
  reflexivity.
Defined.

(** X30.  What follows the padding is dropped: when the number of bytes
    is not a multiple of three, so that the encoding ends with pads,
    [base64_to_bytes] returns the bytes whatever ASCII text follows the
    encoding. *)
Theorem text_after_padding_is_dropped (b : bytes) (t : str) :
  Forall is_byte b ->
  Z.of_nat (length b) mod 3 <> 0 ->
  Forall (fun c => c < 128) t ->
  base64_to_bytes (bytes_to_base64 b ++ t) = Ok b.
Proof.
  intros Hb Hlen Ht.
  destruct (encoding_shape b Hb 0)
    as (body & k & Henc & Hbody & Hk & _ & Htail).
  unfold bytes_to_base64, b64encode, b2a_base64; rewrite Henc.
  rewrite <- app_assoc.
  unfold base64_to_bytes.
  rewrite (proj1 (urlsafe_b64decode_text body k t Hbody Ht)).
  unfold a2b_base64; rewrite Htail; [reflexivity|].
  assert (k <> 0%nat); [|lia].
  intros ->; change (Z.of_nat 0) with 0 in Hk.
  symmetry in Hk; revert Hk Hlen.
  generalize (Z.of_nat (length b)); intros n Hk Hlen.
  Z.div_mod_to_equations; lia.
Qed.

(** Two bytes, and a second encoding after the first. *)
Lemma text_after_padding_is_dropped_witness :
  base64_to_bytes (bytes_to_base64 [1; 2] ++ lit "AQID") = Ok [1; 2].
Proof.
  refine (text_after_padding_is_dropped [1; 2] (lit "AQID") _ _ _).
  - repeat constructor; unfold is_byte; lia.
  - cbn [length]; discriminate.
  - repeat constructor.
Defined.

End ConvertMore.
